(** * Transaction totals, GST breakup, ageing and lifecycle of the accounting app

    A shallow embedding of
    - the storage module of the server (class [MemStorage]): the in-memory
      record store with its transaction operations and the two ageing
      reports;
    - [server/controllers/transactionController.ts]: [createTransaction]
      and [updateTransaction];
    - [client/src/components/TransactionDetailView.tsx]: [StatusBadge] and
      [calculateGstBreakup].

    Conventions of the embedding.
    - A JavaScript number is a [num]: either [NaN] or a rational.  The
      infinities and the sign of zero are outside the model.  [NaN] is kept
      because the code guards against it ([Number(x) || 0]) and because
      comparisons with it are all false.
    - Time values and day counts are whole numbers far below [2^53], on
      which the operations of doubles are exact; they are computed with the
      exact operations of [Num].
    - The amounts that the two ageing reports, the open balances and the GST
      breakup add up are doubles: [Double.add] rounds every sum to 53
      significant bits as [+] does, and [Double.Number] rounds the value of
      a decimal string.  [getAgingAnalysis] and [totalTaxAmount] are kept on
      the exact operations; what is proved of them holds for every way of
      rounding a sum.
    - A field that holds a decimal column is a [value]: the database layer
      hands decimals over as strings (["45000"]), the controller writes
      numbers back, and either may be [null] or missing.
    - A [Date] is its time value in milliseconds since the epoch, or the
      invalid date, whose time value is [NaN].
    - A JavaScript [Map] is an association list in insertion order.
    - [new Date()] reads the clock of the [World] the code runs in. *)

From Stdlib Require Import ZArith QArith Qcanon Qround Qpower List Bool String
  Ascii Lia.
Import ListNotations.

Local Open Scope Z_scope.

(** ** Numbers *)

Module Num.

Inductive num : Type :=
| NaN : num
| Finite (q : Qc) : num.

Definition ofZ (z : Z) : num := Finite (Q2Qc (inject_Z z)).

Definition zero : num := ofZ 0.
Arguments ofZ : simpl never.

Definition Qc_eqb (x y : Qc) : bool := Qeq_bool x y.
Definition Qc_ltb (x y : Qc) : bool := negb (Qle_bool y x).
Definition Qc_leb (x y : Qc) : bool := Qle_bool x y.

(** [a + b] *)
Definition add (a b : num) : num :=
  match a, b with
  | Finite x, Finite y => Finite (x + y)%Qc
  | _, _ => NaN
  end.

(** [a - b] *)
Definition sub (a b : num) : num :=
  match a, b with
  | Finite x, Finite y => Finite (x - y)%Qc
  | _, _ => NaN
  end.

(** [a / b]; a zero divisor would give an infinity or [NaN] in JavaScript,
    the model has no infinity and answers [NaN]. *)
Definition div (a b : num) : num :=
  match a, b with
  | Finite x, Finite y => if Qc_eqb y 0%Qc then NaN else Finite (x / y)%Qc
  | _, _ => NaN
  end.

(** [a === b] on numbers: [NaN] is not equal to itself. *)
Definition strict_eq (a b : num) : bool :=
  match a, b with
  | Finite x, Finite y => Qc_eqb x y
  | _, _ => false
  end.

(** SameValueZero, the equality of [Set] and [Map] keys: [NaN] equals [NaN]. *)
Definition same_value_zero (a b : num) : bool :=
  match a, b with
  | NaN, NaN => true
  | Finite x, Finite y => Qc_eqb x y
  | _, _ => false
  end.

(** [a > b], [a <= b] *)
Definition gt (a b : num) : bool :=
  match a, b with
  | Finite x, Finite y => Qc_ltb y x
  | _, _ => false
  end.

Definition le (a b : num) : bool :=
  match a, b with
  | Finite x, Finite y => Qc_leb x y
  | _, _ => false
  end.

(** ToBoolean on a number: [0] and [NaN] are falsy. *)
Definition truthy (a : num) : bool :=
  match a with
  | NaN => false
  | Finite x => negb (Qc_eqb x 0%Qc)
  end.

(** [a || b] on numbers *)
Definition or_else (a b : num) : num := if truthy a then a else b.

(** [Math.floor] *)
Definition floor (a : num) : num :=
  match a with
  | NaN => NaN
  | Finite x => ofZ (Qfloor x)
  end.

End Num.

Import Num.

(** ** Values of decimal and text fields *)

Inductive value : Type :=
| VUndefined : value
| VNull : value
| VStr (s : string) : value
| VNum (n : num) : value.

(** *** [StringToNumber] on decimal literals

    White space is trimmed, the empty string is [0]; then an optional sign,
    digits with an optional fraction, and an optional exponent.  [Infinity]
    and the [0x]/[0o]/[0b] literals are not read (they come out as [NaN]);
    no decimal column holds them. *)

Definition is_white_space (c : ascii) : bool :=
  match nat_of_ascii c with
  | 9%nat | 10%nat | 11%nat | 12%nat | 13%nat | 32%nat => true
  | _ => false
  end.

Fixpoint trim_start (l : list ascii) : list ascii :=
  match l with
  | c :: r => if is_white_space c then trim_start r else l
  | [] => []
  end.

Definition trim (l : list ascii) : list ascii :=
  rev (trim_start (rev (trim_start l))).

Definition digit_of (c : ascii) : option Z :=
  let n := Z.of_nat (nat_of_ascii c) in
  if (48 <=? n) && (n <=? 57) then Some (n - 48) else None.

(** Reads a run of digits: its value, its length, and the rest. *)
Fixpoint digits (l : list ascii) (acc : Z) (len : nat) : Z * nat * list ascii :=
  match l with
  | c :: r =>
      match digit_of c with
      | Some d => digits r (10 * acc + d) (S len)
      | None => (acc, len, l)
      end
  | [] => (acc, len, [])
  end.

Definition read_sign (l : list ascii) : Z * list ascii :=
  match l with
  | "+"%char :: r => (1, r)
  | "-"%char :: r => (-1, r)
  | _ => (1, l)
  end.

(** What follows the mantissa: nothing, or [e] or [E], a sign and digits. *)
Definition exponent (l : list ascii) : option Z :=
  match l with
  | [] => Some 0
  | c :: r =>
      if Ascii.eqb c "e" || Ascii.eqb c "E" then
        let '(sign, r1) := read_sign r in
        let '(n, len, r2) := digits r1 0 0%nat in
        match r2 with
        | [] => if Nat.eqb len 0 then None else Some (sign * n)
        | _ => None
        end
      else None
  end.

Definition decimal (sign : Z) (int_part frac_part : Z) (frac_len : nat)
    (exp : Z) : num :=
  Finite (Q2Qc (inject_Z sign
                * (inject_Z int_part
                   + Qmake frac_part (Z.to_pos (10 ^ Z.of_nat frac_len)))
                * Qpower (inject_Z 10) exp)).

Definition StrDecimalLiteral (l : list ascii) : num :=
  let '(sign, l1) := read_sign l in
  let '(ip, ni, l2) := digits l1 0 0%nat in
  let '(fp, nf, l3) :=
    match l2 with
    | "."%char :: r => digits r 0 0%nat
    | _ => (0, 0%nat, l2)
    end in
  if Nat.eqb (ni + nf) 0 then NaN
  else match exponent l3 with
       | Some e => decimal sign ip fp nf e
       | None => NaN
       end.

Definition StringToNumber (s : string) : num :=
  match trim (list_ascii_of_string s) with
  | [] => zero
  | l => StrDecimalLiteral l
  end.

(** [Number(v)] *)
Definition Number (v : value) : num :=
  match v with
  | VUndefined => NaN
  | VNull => zero
  | VStr s => StringToNumber s
  | VNum n => n
  end.

(** ToBoolean *)
Definition truthy (v : value) : bool :=
  match v with
  | VUndefined | VNull => false
  | VStr s => negb (String.eqb s EmptyString)
  | VNum n => Num.truthy n
  end.

(** [v || 0] *)
Definition or_zero (v : value) : value :=
  if truthy v then v else VNum zero.

(** [v === s] for a string literal [s] *)
Definition is_string (v : value) (s : string) : bool :=
  match v with
  | VStr s' => String.eqb s' s
  | _ => false
  end.

(** ** IEEE doubles

    The [+] and [/] of JavaScript round their result to the nearest double:
    53 significant bits, ties to the even mantissa.  [Double.round] is that
    rounding on the rationals, and [Double.add] and [Double.div] are the
    exact operations followed by it.  The exponent range of a double
    (overflow to an infinity, gradual underflow below [2^-1022]) is outside
    the model. *)

Module Double.

(** [2^k], for a negative [k] too *)
Definition pow2 (k : Z) : Q := Qpower 2 k.

(** The binary exponent of a positive rational: the [e] with
    [2^e <= x < 2^(e+1)].  The logarithms of numerator and denominator give
    it up to one. *)
Definition ilog2 (x : Q) : Z :=
  let e := Z.log2 (Qnum x) - Z.log2 (Zpos (Qden x)) in
  if Qle_bool (pow2 e) x then e else e - 1.

(** The nearest integer, ties to the even one *)
Definition rne (x : Q) : Z :=
  let f := Qfloor x in
  match Qcompare (x - inject_Z f) (1 # 2) with
  | Lt => f
  | Gt => f + 1
  | Eq => if Z.even f then f else f + 1
  end.

(** A positive number is scaled until its integer part has 53 bits, rounded
    to an integer and scaled back. *)
Definition round_pos (x : Q) : Q :=
  let s := 52 - ilog2 x in
  (inject_Z (rne (x * pow2 s)) * pow2 (- s))%Q.

Definition roundQ (x : Q) : Q :=
  match Qcompare x 0 with
  | Eq => 0%Q
  | Gt => round_pos x
  | Lt => (- round_pos (- x))%Q
  end.

(** The result is reduced before it is made canonical, so that equal
    doubles are equal terms. *)
Definition round (x : Qc) : Qc := Q2Qc (Qred (roundQ x)).

(** The double nearest to a number *)
Definition ofNum (a : num) : num :=
  match a with
  | NaN => NaN
  | Finite x => Finite (round x)
  end.

(** A number that is a double *)
Definition representable (a : num) : Prop := ofNum a = a.

(** [a + b] and [a / b] on doubles *)
Definition add (a b : num) : num := ofNum (Num.add a b).

Definition div (a b : num) : num := ofNum (Num.div a b).

(** [Number(v)] as a double: the value of a decimal literal is rounded. *)
Definition Number (v : value) : num := ofNum (Number v).

(** The sum of a list of doubles, from the left as [reduce] and a loop of
    [+=] do it. *)
Definition sum (l : list num) : num := fold_left add l (ofZ 0).

End Double.

(** ** Dates *)

Inductive Date : Type :=
| ValidDate (ms : Z) : Date
| InvalidDate : Date.

Definition getTime (d : Date) : num :=
  match d with
  | ValidDate ms => ofZ ms
  | InvalidDate => NaN
  end.

(** ** The shared schema: records of the store *)

Module Transaction.
Record t : Type := mk {
  id : Z;
  transactionNumber : string;
  transactionType : string;
  transactionDate : Date;
  partyId : Z;
  amount : value;
  balanceDue : value;
  dueDate : option Date;
  status : string;
  notes : value;
  reference : value;
  isBnpl : bool;
  isSync : bool;
  userId : Z;
  createdAt : Date
}.
End Transaction.

Module InsertTransaction.
Record t : Type := mk {
  transactionNumber : string;
  transactionType : string;
  transactionDate : Date;
  partyId : Z;
  amount : value;
  balanceDue : value;
  dueDate : option Date;
  status : string;
  notes : value;
  reference : value;
  isBnpl : bool;
  isSync : bool;
  userId : Z
}.
End InsertTransaction.

(** [Partial<InsertTransaction>]: [None] is a key that is absent. *)
Module PartialTransaction.
Record t : Type := mk {
  transactionNumber : option string;
  transactionType : option string;
  transactionDate : option Date;
  partyId : option Z;
  amount : option value;
  balanceDue : option value;
  dueDate : option (option Date);
  status : option string;
  notes : option value;
  reference : option value;
  isBnpl : option bool;
  isSync : option bool;
  userId : option Z
}.

Definition empty : t :=
  mk None None None None None None None None None None None None None.
End PartialTransaction.

Module TransactionItem.
Record t : Type := mk {
  id : Z;
  transactionId : Z;
  itemId : Z;
  description : value;
  quantity : value;
  rate : value;
  amount : value;
  taxRate : value;
  taxAmount : value;
  totalAmount : value;
  createdAt : Date
}.
End TransactionItem.

Module InsertTransactionItem.
Record t : Type := mk {
  transactionId : Z;
  itemId : Z;
  description : value;
  quantity : value;
  rate : value;
  amount : value;
  taxRate : value;
  taxAmount : value;
  totalAmount : value
}.
End InsertTransactionItem.

(** The fields of a party that the modelled code reads, with those of the
    data model around them. *)
Module Party.
Record t : Type := mk {
  id : Z;
  name : string;
  type : string;
  state : value;
  creditLimit : value;
  creditPeriod : Z;
  userId : Z
}.
End Party.

(** ** [Map<number, V>] in insertion order *)

Module JsMap.
Section WithValue.
Context {V : Type}.

Definition t := list (Z * V).

Fixpoint get (k : Z) (m : list (Z * V)) : option V :=
  match m with
  | [] => None
  | (k', v) :: r => if Z.eqb k k' then Some v else get k r
  end.

(** [set] keeps the position of a key that is already there and appends a
    new one. *)
Fixpoint set (k : Z) (v : V) (m : list (Z * V)) : list (Z * V) :=
  match m with
  | [] => [(k, v)]
  | (k', v') :: r => if Z.eqb k k' then (k, v) :: r else (k', v') :: set k v r
  end.

Definition values (m : list (Z * V)) : list V := map snd m.
End WithValue.
Arguments t : clear implicits.
End JsMap.

(** ** The world the server code runs in *)

(** The maps and counters of [MemStorage] that the transaction operations
    touch; the maps of users, parties, items, BNPL limits and sync logs are
    not written by any operation below. *)
Record MemStorage : Type := mkMemStorage {
  transactions : JsMap.t Transaction.t;
  transactionItems : JsMap.t TransactionItem.t;
  transactionIdCounter : Z;
  transactionItemIdCounter : Z
}.

Record World : Type := mkWorld {
  storage : MemStorage;
  clock : Z
}.

(** A computation reads and writes the world and returns or throws; what it
    wrote before it threw stays written. *)
Inductive result (A : Type) : Type :=
| Ok (a : A) : result A
| Throw (message : string) : result A.
Arguments Ok {A} a.
Arguments Throw {A} message.

Definition M (A : Type) : Type := World -> result A * World.

Definition ret {A} (a : A) : M A := fun w => (Ok a, w).

Definition bind {A B} (m : M A) (k : A -> M B) : M B :=
  fun w =>
    match m w with
    | (Ok a, w') => k a w'
    | (Throw e, w') => (Throw e, w')
    end.

Definition throw {A} (message : string) : M A := fun w => (Throw message, w).

(** [try { m } catch (error) { handler(error.message) }] *)
Definition try_catch {A} (m : M A) (handler : string -> M A) : M A :=
  fun w =>
    match m w with
    | (Ok a, w') => (Ok a, w')
    | (Throw e, w') => handler e w'
    end.

(** A synchronous or awaited call that cannot write: a pure result lifted. *)
Definition lift {A} (r : result A) : M A := fun w => (r, w).

(** [new Date()] *)
Definition newDate : M Date := fun w => (Ok (ValidDate (clock w)), w).

Definition getStorage : M MemStorage := fun w => (Ok (storage w), w).

Definition putStorage (s : MemStorage) : M unit :=
  fun w => (Ok tt, mkWorld s (clock w)).

Declare Scope js_scope.
Delimit Scope js_scope with js.
Notation "x <- m ;; k" := (bind m (fun x => k))
  (at level 61, m at next level, right associativity) : js_scope.
Notation "m ;;; k" := (bind m (fun _ => k))
  (at level 61, right associativity) : js_scope.

Local Open Scope js_scope.

(** ** [MemStorage]: transaction operations

    The class body declares [createTransaction], [getTransaction],
    [updateTransaction] and [getTransactionItemsByTransactionId] twice; the
    later declaration is the one a class keeps.  The two agree except for the
    text of the error that [updateTransaction] throws, and for the place of
    [id] in the object that [createTransaction] builds, which shows only for
    a payload with an [id] of its own; [InsertTransaction] has none. *)

Definition getTransaction (id : Z) : M (option Transaction.t) :=
  s <- getStorage ;;
  ret (JsMap.get id (transactions s)).

(** [{ id: this.transactionIdCounter++, ...transaction, createdAt: new Date() }] *)
Definition newTransaction (id : Z) (transaction : InsertTransaction.t)
    (createdAt : Date) : Transaction.t :=
  Transaction.mk id
    (InsertTransaction.transactionNumber transaction)
    (InsertTransaction.transactionType transaction)
    (InsertTransaction.transactionDate transaction)
    (InsertTransaction.partyId transaction)
    (InsertTransaction.amount transaction)
    (InsertTransaction.balanceDue transaction)
    (InsertTransaction.dueDate transaction)
    (InsertTransaction.status transaction)
    (InsertTransaction.notes transaction)
    (InsertTransaction.reference transaction)
    (InsertTransaction.isBnpl transaction)
    (InsertTransaction.isSync transaction)
    (InsertTransaction.userId transaction)
    createdAt.

Definition storage_createTransaction (transaction : InsertTransaction.t)
  : M Transaction.t :=
  s <- getStorage ;;
  let id := transactionIdCounter s in
  putStorage (mkMemStorage (transactions s) (transactionItems s)
                (id + 1) (transactionItemIdCounter s)) ;;;
  now <- newDate ;;
  let newTransaction := newTransaction id transaction now in
  s <- getStorage ;;
  putStorage (mkMemStorage
                (JsMap.set (Transaction.id newTransaction) newTransaction
                   (transactions s))
                (transactionItems s)
                (transactionIdCounter s) (transactionItemIdCounter s)) ;;;
  ret newTransaction.

Definition override {A} (old : A) (new : option A) : A :=
  match new with
  | Some a => a
  | None => old
  end.

(** [{ ...existingTransaction, ...transaction }] *)
Definition spread (existing : Transaction.t) (updates : PartialTransaction.t)
  : Transaction.t :=
  Transaction.mk
    (Transaction.id existing)
    (override (Transaction.transactionNumber existing)
       (PartialTransaction.transactionNumber updates))
    (override (Transaction.transactionType existing)
       (PartialTransaction.transactionType updates))
    (override (Transaction.transactionDate existing)
       (PartialTransaction.transactionDate updates))
    (override (Transaction.partyId existing)
       (PartialTransaction.partyId updates))
    (override (Transaction.amount existing)
       (PartialTransaction.amount updates))
    (override (Transaction.balanceDue existing)
       (PartialTransaction.balanceDue updates))
    (override (Transaction.dueDate existing)
       (PartialTransaction.dueDate updates))
    (override (Transaction.status existing)
       (PartialTransaction.status updates))
    (override (Transaction.notes existing)
       (PartialTransaction.notes updates))
    (override (Transaction.reference existing)
       (PartialTransaction.reference updates))
    (override (Transaction.isBnpl existing)
       (PartialTransaction.isBnpl updates))
    (override (Transaction.isSync existing)
       (PartialTransaction.isSync updates))
    (override (Transaction.userId existing)
       (PartialTransaction.userId updates))
    (Transaction.createdAt existing).

(** [id] is [None] when the caller's number is [NaN]: no key of the map is
    [NaN], so [this.transactions.get] finds nothing. *)
Definition storage_updateTransaction (id : option Z)
    (transaction : PartialTransaction.t) : M Transaction.t :=
  s <- getStorage ;;
  match id with
  | None => throw "Transaction not found"
  | Some key =>
      match JsMap.get key (transactions s) with
      | None => throw "Transaction not found"
      | Some existingTransaction =>
          let updatedTransaction := spread existingTransaction transaction in
          putStorage (mkMemStorage
                        (JsMap.set key updatedTransaction (transactions s))
                        (transactionItems s)
                        (transactionIdCounter s)
                        (transactionItemIdCounter s)) ;;;
          ret updatedTransaction
      end
  end.

Definition getTransactionItemsByTransactionId (transactionId : Z)
  : M (list TransactionItem.t) :=
  s <- getStorage ;;
  ret (filter (fun item => Z.eqb (TransactionItem.transactionId item) transactionId)
         (JsMap.values (transactionItems s))).

(** [{ ...insertTransactionItem, id, createdAt: now }] *)
Definition newTransactionItem (id : Z)
    (insertTransactionItem : InsertTransactionItem.t) (createdAt : Date)
  : TransactionItem.t :=
  TransactionItem.mk id
    (InsertTransactionItem.transactionId insertTransactionItem)
    (InsertTransactionItem.itemId insertTransactionItem)
    (InsertTransactionItem.description insertTransactionItem)
    (InsertTransactionItem.quantity insertTransactionItem)
    (InsertTransactionItem.rate insertTransactionItem)
    (InsertTransactionItem.amount insertTransactionItem)
    (InsertTransactionItem.taxRate insertTransactionItem)
    (InsertTransactionItem.taxAmount insertTransactionItem)
    (InsertTransactionItem.totalAmount insertTransactionItem)
    createdAt.

Definition storage_createTransactionItem
    (insertTransactionItem : InsertTransactionItem.t) : M TransactionItem.t :=
  s <- getStorage ;;
  let id := transactionItemIdCounter s in
  putStorage (mkMemStorage (transactions s) (transactionItems s)
                (transactionIdCounter s) (id + 1)) ;;;
  now <- newDate ;;
  let transactionItem := newTransactionItem id insertTransactionItem now in
  s <- getStorage ;;
  putStorage (mkMemStorage (transactions s)
                (JsMap.set id transactionItem (transactionItems s))
                (transactionIdCounter s) (transactionItemIdCounter s)) ;;;
  ret transactionItem.

(** ** [MemStorage]: ageing analysis *)

Record Ageing : Type := mkAgeing {
  current : num;
  days1to30 : num;
  days31to60 : num;
  days60plus : num
}.

(** [["pending", "overdue", "partially_paid"].includes(status)] *)
Definition isOpenStatus (status : string) : bool :=
  existsb (String.eqb status) ["pending"; "overdue"; "partially_paid"]%string.

(** The filter of both reports, for the transaction type of each. *)
Definition isOpen (userId : Z) (type : string) (transaction : Transaction.t)
  : bool :=
  Z.eqb (Transaction.userId transaction) userId
  && String.eqb (Transaction.transactionType transaction) type
  && isOpenStatus (Transaction.status transaction).

Definition msPerDay : num := ofZ (1000 * 60 * 60 * 24).

(** [Math.floor((now.getTime() - dueDate.getTime()) / (1000 * 60 * 60 * 24))] *)
Definition diffDays (now dueDate : Date) : num :=
  Num.floor (Num.div (Num.sub (getTime now) (getTime dueDate)) msPerDay).

(** The body of the [forEach] callback of both reports; [+=] adds
    doubles. *)
Definition ageingStep (now : Date) (result : Ageing)
    (transaction : Transaction.t) : Ageing :=
  match Transaction.dueDate transaction with
  | None => result
  | Some due =>
      let dueDate := due in
      let diffDays := diffDays now dueDate in
      let balance :=
        Double.Number (or_zero (Transaction.balanceDue transaction)) in
      if Num.le diffDays (ofZ 0) then
        mkAgeing (Double.add (current result) balance) (days1to30 result)
          (days31to60 result) (days60plus result)
      else if Num.le diffDays (ofZ 30) then
        mkAgeing (current result) (Double.add (days1to30 result) balance)
          (days31to60 result) (days60plus result)
      else if Num.le diffDays (ofZ 60) then
        mkAgeing (current result) (days1to30 result)
          (Double.add (days31to60 result) balance) (days60plus result)
      else
        mkAgeing (current result) (days1to30 result)
          (days31to60 result) (Double.add (days60plus result) balance)
  end.

Definition emptyAgeing : Ageing := mkAgeing (ofZ 0) (ofZ 0) (ofZ 0) (ofZ 0).

(** The two reports have the same body up to the transaction type. *)
Definition ageingOf (type : string) (userId : Z) : M Ageing :=
  now <- newDate ;;
  s <- getStorage ;;
  let open := filter (isOpen userId type) (JsMap.values (transactions s)) in
  ret (fold_left (ageingStep now) open emptyAgeing).

Definition getReceivablesAgeing (userId : Z) : M Ageing :=
  ageingOf "sales_invoice" userId.

Definition getPayablesAgeing (userId : Z) : M Ageing :=
  ageingOf "purchase_bill" userId.

(** ** The transaction controller *)

(** Request bodies as [express.json()] delivers them. *)
#[local] Unset Elimination Schemes.
Inductive json : Type :=
| JNull : json
| JBool (b : bool) : json
| JNum (n : num) : json
| JStr (s : string) : json
| JArr (elements : list json) : json
| JObj (fields : list (string * json)) : json.
#[local] Set Elimination Schemes.

Definition json_truthy (j : json) : bool :=
  match j with
  | JNull => false
  | JBool b => b
  | JNum n => Num.truthy n
  | JStr s => negb (String.eqb s EmptyString)
  | JArr _ | JObj _ => true
  end.

Fixpoint lookup_field (name : string) (fields : list (string * json))
  : option json :=
  match fields with
  | [] => None
  | (k, v) :: r => if String.eqb k name then Some v else lookup_field name r
  end.

(** Reading a property while destructuring: [null] and [undefined] throw,
    an object answers with the field or [undefined], anything else has no
    such property. *)
Definition property (name : string) (body : option json)
  : result (option json) :=
  match body with
  | None | Some JNull => Throw "Cannot destructure property of req.body"
  | Some (JObj fields) => Ok (lookup_field name fields)
  | Some _ => Ok None
  end.

(** [!x] for a property that may be [undefined] *)
Definition falsy (x : option json) : bool :=
  match x with
  | None => true
  | Some j => negb (json_truthy j)
  end.

Record Totals : Type := mkTotals {
  subtotal : value;
  totalTax : value;
  grandTotal : value
}.

Inductive Body : Type :=
| Message (message : string) (error : option string) : Body
| TransactionWithItems (header : Transaction.t)
    (items : list TransactionItem.t) (totals : Totals) : Body
| TransactionBody (transaction : Transaction.t) : Body.

Record Response : Type := mkResponse {
  statusCode : Z;
  body : Body
}.

Record CreateRequest : Type := mkCreateRequest {
  create_body : option json
}.

(** [req.params.id] after [parseInt] ([None] is [NaN]) and [req.body]. *)
Record UpdateRequest : Type := mkUpdateRequest {
  params_id : option Z;
  update_body : option json
}.

Section TransactionController.

(** [@shared/schema] and [../services/transactionService] are imported by
    the controller; what they compute is left open here.
    - [insertTransactionSchema.parse(x)];
    - [insertTransactionSchema.partial().parse(x)];
    - [insertTransactionItemSchema.parse({ ...item, transactionId })], as a
      function of [item] and [transactionId];
    - [validateTransaction], which may read the world and may throw;
    - [calculateTotals]. *)
Variable insertTransactionSchema_parse :
  option json -> result InsertTransaction.t.
Variable insertTransactionSchema_partial_parse :
  option json -> result PartialTransaction.t.
Variable insertTransactionItemSchema_parse :
  json -> Z -> result InsertTransactionItem.t.
Variable validateTransaction : InsertTransaction.t -> World -> result unit.
Variable calculateTotals : list TransactionItem.t -> result Totals.

(** The [for (const item of items)] loop. *)
Fixpoint createItems (items : list json) (transactionId : Z)
    (createdItems : list TransactionItem.t) : M (list TransactionItem.t) :=
  match items with
  | [] => ret createdItems
  | item :: rest =>
      itemData <- lift (insertTransactionItemSchema_parse item transactionId) ;;
      createdItem <- storage_createTransactionItem itemData ;;
      createItems rest transactionId (createdItems ++ [createdItem])
  end.

Definition finalization (totals : Totals) : PartialTransaction.t :=
  PartialTransaction.mk None None None None
    (Some (grandTotal totals)) (Some (grandTotal totals))
    None None None None None None None.

Definition createTransaction (req : CreateRequest) : M Response :=
  try_catch
    (transaction <- lift (property "transaction" (create_body req)) ;;
     items <- lift (property "items" (create_body req)) ;;
     if falsy transaction || falsy items then
       ret (mkResponse 400
              (Message "Transaction and items are required" None))
     else
       transactionData <- lift (insertTransactionSchema_parse transaction) ;;
       (fun w => (validateTransaction transactionData w, w)) ;;;
       createdTransaction <- storage_createTransaction transactionData ;;
       createdItems <-
         match items with
         | Some (JArr elements) =>
             createItems elements (Transaction.id createdTransaction) []
         | _ => ret []
         end ;;
       totals <- lift (calculateTotals createdItems) ;;
       storage_updateTransaction (Some (Transaction.id createdTransaction))
         (finalization totals) ;;;
       ret (mkResponse 201
              (TransactionWithItems createdTransaction createdItems totals)))
    (fun error =>
       ret (mkResponse 400
              (Message "Failed to create transaction" (Some error)))).

Definition updateTransaction (req : UpdateRequest) : M Response :=
  try_catch
    (let transactionId := params_id req in
     transactionData <-
       lift (insertTransactionSchema_partial_parse (update_body req)) ;;
     transaction <- storage_updateTransaction transactionId transactionData ;;
     (* [if (!transaction)]: an object is never falsy *)
     ret (mkResponse 200 (TransactionBody transaction)))
    (fun error =>
       ret (mkResponse 400
              (Message "Failed to update transaction" (Some error)))).

End TransactionController.

(** The store after the items [new] were written one after the other. *)
Definition with_items (new : list TransactionItem.t) (w : World) : World :=
  mkWorld
    (mkMemStorage (transactions (storage w))
       (fold_left (fun m x => JsMap.set (TransactionItem.id x) x m) new
          (transactionItems (storage w)))
       (transactionIdCounter (storage w))
       (transactionItemIdCounter (storage w) + Z.of_nat (List.length new)))
    (clock w).

(** The world once the header [d] is written, before any item. *)
Definition after_header (d : InsertTransaction.t) (w : World) : World :=
  let c := transactionIdCounter (storage w) in
  mkWorld
    (mkMemStorage
       (JsMap.set c (newTransaction c d (ValidDate (clock w)))
          (transactions (storage w)))
       (transactionItems (storage w)) (c + 1)
       (transactionItemIdCounter (storage w)))
    (clock w).

(** The world once the header is patched with the totals. *)
Definition finalized (header : Transaction.t) (totals : Totals) (w : World)
  : World :=
  mkWorld
    (mkMemStorage
       (JsMap.set (Transaction.id header) (spread header (finalization totals))
          (transactions (storage w)))
       (transactionItems (storage w))
       (transactionIdCounter (storage w))
       (transactionItemIdCounter (storage w)))
    (clock w).

(** The response of the [catch] clause of [createTransaction]. *)
Definition failed_to_create (error : string) : Response :=
  mkResponse 400 (Message "Failed to create transaction" (Some error)).

(** The elements the loop runs over: those of an array, none otherwise. *)
Definition elements_of (items : option json) : list json :=
  match items with
  | Some (JArr elements) => elements
  | _ => []
  end.

(** ** [TransactionDetailView]: status badge and GST breakup *)

(** The display status that [StatusBadge] hands to [getStatusColor] and
    [getStatusLabel].  [dueDate] is [None] for a falsy prop ([undefined],
    [null] or the empty string) and otherwise the date that
    [new Date(dueDate)] builds from the prop. *)
Definition StatusBadge (status : string) (dueDate : option Date)
    (balanceDue : value) : M string :=
  let displayStatus := status in
  if truthy balanceDue && Num.strict_eq (Number balanceDue) (ofZ 0) then
    ret "paid"%string
  else
    (* [balanceDue && Number(balanceDue) > 0 && dueDate] *)
    match (if truthy balanceDue && Num.gt (Number balanceDue) (ofZ 0)
           then dueDate else None) with
    | Some dueDate =>
        today <- newDate ;;
        let due := dueDate in
        if Num.gt (getTime today) (getTime due) then ret "overdue"%string
        else ret displayStatus
    | None => ret displayStatus
    end.

Record GstGroup : Type := mkGstGroup {
  rate : num;
  taxableAmount : num;
  igst : num;
  cgst : num;
  sgst : num;
  total : num
}.

(** [[...new Set(l)]]: the first occurrence of each number, in order; a
    [Set] compares with SameValueZero. *)
Definition dedupe (l : list num) : list num :=
  fold_left
    (fun seen x => if existsb (Num.same_value_zero x) seen then seen
                   else seen ++ [x])
    l [].

(** [parties?.find(p => p.id === transaction.partyId)] *)
Definition findParty (parties : option (list Party.t)) (partyId : Z)
  : option Party.t :=
  match parties with
  | None => None
  | Some l => find (fun p => Z.eqb (Party.id p) partyId) l
  end.

(** [party?.state] *)
Definition party_state (party : option Party.t) : value :=
  match party with
  | None => VUndefined
  | Some p => Party.state p
  end.

(** The sum of a list of numbers, from the left as [reduce] does it, and
    [Number(item.taxAmount) || 0], on the exact numbers. *)
Definition sum (l : list num) : num := fold_left Num.add l (ofZ 0).


(** [calculateGstBreakup]: the rates are collected in a [Set], and the
    amounts of each group are added up as doubles. *)
Definition calculateGstBreakup (party : option Party.t)
    (transactionItems : option (list TransactionItem.t))
  : option (list GstGroup) :=
  match transactionItems with
  | None => None
  | Some transactionItems =>
      let gstRates :=
        dedupe
          (map (fun item =>
                  Double.Number (or_zero (TransactionItem.taxRate item)))
             transactionItems) in
      Some (map
        (fun rate =>
           let itemsWithRate :=
             filter
               (fun item =>
                  Num.strict_eq
                    (Double.Number (or_zero (TransactionItem.taxRate item)))
                    rate)
               transactionItems in
           let taxableAmount :=
             fold_left
               (fun sum item =>
                  Double.add sum
                    (Num.or_else
                       (Double.Number (TransactionItem.amount item)) (ofZ 0)))
               itemsWithRate (ofZ 0) in
           let taxAmount :=
             fold_left
               (fun sum item =>
                  Double.add sum
                    (Num.or_else
                       (Double.Number (TransactionItem.taxAmount item))
                       (ofZ 0)))
               itemsWithRate (ofZ 0) in
           let isIGST := negb (is_string (party_state party) "Same State as User") in
           mkGstGroup rate taxableAmount
             (if isIGST then taxAmount else ofZ 0)
             (if negb isIGST then Double.div taxAmount (ofZ 2) else ofZ 0)
             (if negb isIGST then Double.div taxAmount (ofZ 2) else ofZ 0)
             taxAmount)
        gstRates)
  end.

(** What the breakup reads of an item: [Number(item.taxRate || 0)],
    [Number(item.amount) || 0] and [Number(item.taxAmount) || 0]. *)
Definition rateOf (item : TransactionItem.t) : num :=
  Double.Number (or_zero (TransactionItem.taxRate item)).

Definition amountOf (item : TransactionItem.t) : num :=
  Num.or_else (Double.Number (TransactionItem.amount item)) (ofZ 0).

Definition taxOf (item : TransactionItem.t) : num :=
  Num.or_else (Double.Number (TransactionItem.taxAmount item)) (ofZ 0).

(** The group that [calculateGstBreakup] builds for one rate. *)
Definition group_of (party : option Party.t) (items : list TransactionItem.t)
    (r : num) : GstGroup :=
  let itemsWithRate := filter (fun i => Num.strict_eq (rateOf i) r) items in
  let taxAmount := Double.sum (map taxOf itemsWithRate) in
  let isIGST := negb (is_string (party_state party) "Same State as User") in
  mkGstGroup r (Double.sum (map amountOf itemsWithRate))
    (if isIGST then taxAmount else ofZ 0)
    (if negb isIGST then Double.div taxAmount (ofZ 2) else ofZ 0)
    (if negb isIGST then Double.div taxAmount (ofZ 2) else ofZ 0)
    taxAmount.

(** ** The wording of the specification, for comparison with the code *)

Definition day_ms : Z := 1000 * 60 * 60 * 24.

(** The calendar date (in UTC) of an instant, as a day number. *)
Definition calendarDay (ms : Z) : Z := ms / day_ms.

(** "balanceDue is present" *)
Definition present (v : value) : bool :=
  match v with
  | VUndefined | VNull => false
  | _ => true
  end.

(** "dueDate is in the past (strict, by calendar date)" *)
Definition past_by_calendar_date (now : Z) (dueDate : option Date) : bool :=
  match dueDate with
  | Some (ValidDate due) => calendarDay due <? calendarDay now
  | _ => false
  end.

(** The status-display resolver as the specification words it: "paid" if
    [balanceDue] is present and numerically equal to 0, else "overdue" if
    [balanceDue > 0] and the due date is strictly in the past by calendar
    date, else the stored status. *)
Definition spec_displayStatus (now : Z) (status : string)
    (dueDate : option Date) (balanceDue : value) : string :=
  if present balanceDue && Num.strict_eq (Number balanceDue) (ofZ 0) then "paid"
  else if Num.gt (Number balanceDue) (ofZ 0) && past_by_calendar_date now dueDate
       then "overdue"
       else status.

(** The resolver as the code computes it, in the same wording: "paid" if
    [balanceDue] is a non-empty string that reads as 0, else "overdue" if
    [balanceDue] is positive and the due date is an instant strictly before
    now, else the stored status. *)
Definition past_by_instant (now : Z) (dueDate : option Date) : bool :=
  match dueDate with
  | Some (ValidDate due) => due <? now
  | _ => false
  end.

Definition nonempty_string (v : value) : bool :=
  match v with
  | VStr s => negb (String.eqb s EmptyString)
  | _ => false
  end.

Definition code_displayStatus (now : Z) (status : string)
    (dueDate : option Date) (balanceDue : value) : string :=
  if nonempty_string balanceDue && Num.strict_eq (Number balanceDue) (ofZ 0)
  then "paid"
  else if Num.gt (Number balanceDue) (ofZ 0) && past_by_instant now dueDate
       then "overdue"
       else status.

(** The four buckets of the ageing analyzer. *)
Inductive Bucket : Type := Current | Days1to30 | Days31to60 | Days60plus.

(** [result] with [balance] added to one bucket and the others untouched. *)
Definition credit (b : Bucket) (balance : num) (result : Ageing) : Ageing :=
  match b with
  | Current =>
      mkAgeing (Double.add (current result) balance) (days1to30 result)
        (days31to60 result) (days60plus result)
  | Days1to30 =>
      mkAgeing (current result) (Double.add (days1to30 result) balance)
        (days31to60 result) (days60plus result)
  | Days31to60 =>
      mkAgeing (current result) (days1to30 result)
        (Double.add (days31to60 result) balance) (days60plus result)
  | Days60plus =>
      mkAgeing (current result) (days1to30 result)
        (days31to60 result) (Double.add (days60plus result) balance)
  end.

(** "diffDays ≤ 0 → current; 1 ≤ diffDays ≤ 30 → days1to30;
    31 ≤ diffDays ≤ 60 → days31to60; diffDays > 60 → days60plus" *)
Definition bucket_of_days (d : Z) : Bucket :=
  if d <=? 0 then Current
  else if d <=? 30 then Days1to30
  else if d <=? 60 then Days31to60
  else Days60plus.

(** The bucket the thresholds give a transaction at the instant [now]; a
    date without a time value has no day difference and is left to the last
    branch. *)
Definition bucket_at (now : Z) (transaction : Transaction.t) : option Bucket :=
  match Transaction.dueDate transaction with
  | None => None
  | Some (ValidDate due) => Some (bucket_of_days ((now - due) / day_ms))
  | Some InvalidDate => Some Days60plus
  end.

Definition in_bucket (now : Z) (b : Bucket) (transaction : Transaction.t)
  : bool :=
  match bucket_at now transaction, b with
  | Some Current, Current => true
  | Some Days1to30, Days1to30 => true
  | Some Days31to60, Days31to60 => true
  | Some Days60plus, Days60plus => true
  | _, _ => false
  end.

Definition bucket (b : Bucket) (result : Ageing) : num :=
  match b with
  | Current => current result
  | Days1to30 => days1to30 result
  | Days31to60 => days31to60 result
  | Days60plus => days60plus result
  end.

(** [current + days1to30 + days31to60 + days60plus], added as doubles *)
Definition total_of (result : Ageing) : num :=
  Double.add (Double.add (Double.add (current result) (days1to30 result))
                (days31to60 result)) (days60plus result).

(** [Number(transaction.balanceDue || 0)], exactly and as the double that
    the ageing reports add. *)
Definition balanceOf (transaction : Transaction.t) : num :=
  Number (or_zero (Transaction.balanceDue transaction)).

Definition balanceDueOf (transaction : Transaction.t) : num :=
  Double.Number (or_zero (Transaction.balanceDue transaction)).

(** "matching userId, the requested type, and status in {pending, overdue,
    partially_paid}" *)
Definition eligible (userId : Z) (type : string) (transaction : Transaction.t)
  : Prop :=
  Transaction.userId transaction = userId
  /\ Transaction.transactionType transaction = type
  /\ In (Transaction.status transaction)
       ["pending"; "overdue"; "partially_paid"]%string.

(** The sum of whole numbers and the sum of their absolute values: while the
    second stays within [2^53], no sum of doubles over them rounds. *)
Definition sumZ (zs : list Z) : Z := fold_right Z.add 0 zs.

Definition magnitude (zs : list Z) : Z := sumZ (map Z.abs zs).

Definition hasDueDate (transaction : Transaction.t) : bool :=
  match Transaction.dueDate transaction with
  | Some _ => true
  | None => false
  end.

(** ** Stand-ins for the imported modules, to run the controller *)

(** Modelled from the spec: [TransactionService.calculateTotals] is not among
    the sources.  Section 4.1: subtotal is the sum of the items' [amount],
    totalTax the sum of their [taxAmount], grandTotal their sum; a field that
    is absent or not a number counts as 0. *)
Definition spec_calculateTotals (items : list TransactionItem.t)
  : result Totals :=
  let subtotal :=
    sum (map (fun i => Num.or_else (Number (TransactionItem.amount i)) (ofZ 0))
           items) in
  let totalTax :=
    sum (map (fun i => Num.or_else (Number (TransactionItem.taxAmount i)) (ofZ 0))
           items) in
  Ok (mkTotals (VNum subtotal) (VNum totalTax)
        (VNum (Num.add subtotal totalTax))).

(** Modelled from the spec: [TransactionService.validateTransaction] is not
    among the sources; the stand-in accepts every header that the schema
    let through. *)
Definition spec_validateTransaction (transaction : InsertTransaction.t)
    (w : World) : result unit := Ok tt.

Definition field_value (name : string) (fields : list (string * json)) : value :=
  match lookup_field name fields with
  | Some (JStr s) => VStr s
  | Some (JNum n) => VNum n
  | Some JNull => VNull
  | _ => VUndefined
  end.

Definition field_integer (name : string) (fields : list (string * json))
  : option Z :=
  match lookup_field name fields with
  | Some (JNum (Finite q)) =>
      if Z.eqb (Z.pos (Qden q)) 1 then Some (Qnum q) else None
  | _ => None
  end.

Definition field_string (name : string) (fields : list (string * json))
  : option string :=
  match lookup_field name fields with
  | Some (JStr s) => Some s
  | _ => None
  end.

(** Modelled from the spec: [insertTransactionSchema] of [@shared/schema] is
    not among the sources.  The stand-in follows the data model of section 3:
    it requires an object with a transaction number, a transaction type, a
    party and an owner, takes [amount] and [balanceDue] as supplied, and
    defaults the status to pending. *)
Definition spec_insertTransactionSchema_parse (x : option json)
  : result InsertTransaction.t :=
  match x with
  | Some (JObj fields) =>
      match field_string "transactionNumber" fields,
            field_string "transactionType" fields,
            field_integer "partyId" fields,
            field_integer "userId" fields with
      | Some number, Some type, Some party, Some user =>
          Ok (InsertTransaction.mk number type (ValidDate 0) party
                (field_value "amount" fields)
                (field_value "balanceDue" fields)
                None
                (match field_string "status" fields with
                 | Some s => s
                 | None => "pending"%string
                 end)
                (field_value "notes" fields)
                (field_value "reference" fields)
                false false user)
      | _, _, _, _ => Throw "Required"
      end
  | _ => Throw "Expected object"
  end.

(** Modelled from the spec: the partial form of the same schema; the
    stand-in reads the fields that section 3 calls amounts and status. *)
Definition spec_insertTransactionSchema_partial_parse (x : option json)
  : result PartialTransaction.t :=
  match x with
  | Some (JObj fields) =>
      Ok (PartialTransaction.mk None None None None
            (option_map (fun _ => field_value "amount" fields)
               (lookup_field "amount" fields))
            (option_map (fun _ => field_value "balanceDue" fields)
               (lookup_field "balanceDue" fields))
            None
            (field_string "status" fields)
            None None None None None)
  | _ => Throw "Expected object"
  end.

(** Modelled from the spec: [insertTransactionItemSchema] of [@shared/schema]
    is not among the sources.  The stand-in requires an object that names its
    inventory item and stamps the owning transaction on it. *)
Definition spec_insertTransactionItemSchema_parse (item : json)
    (transactionId : Z) : result InsertTransactionItem.t :=
  match item with
  | JObj fields =>
      match field_integer "itemId" fields with
      | Some itemId =>
          Ok (InsertTransactionItem.mk transactionId itemId
                (field_value "description" fields)
                (field_value "quantity" fields)
                (field_value "rate" fields)
                (field_value "amount" fields)
                (field_value "taxRate" fields)
                (field_value "taxAmount" fields)
                (field_value "totalAmount" fields))
      | None => Throw "Required"
      end
  | _ => Throw "Expected object"
  end.

(** A store with one earlier invoice, at noon of day 20000. *)
Definition sample_invoice : Transaction.t :=
  Transaction.mk 1 "INV-2023-042" "sales_invoice" (ValidDate 0) 1
    (VStr "47250") (VStr "47250") (Some (ValidDate (20000 * day_ms)))
    "pending" VNull VNull false true 1 (ValidDate 0).

Definition sample_world : World :=
  mkWorld (mkMemStorage [(1, sample_invoice)] [] 2 1)
    (20000 * day_ms + 12 * 60 * 60 * 1000).

Definition laptop : json :=
  JObj [("itemId", JNum (ofZ 1)); ("amount", JStr "45000");
        ("taxRate", JStr "5"); ("taxAmount", JStr "2250")]%string.

Definition desktop : json :=
  JObj [("itemId", JNum (ofZ 2)); ("amount", JStr "35000");
        ("taxRate", JStr "5"); ("taxAmount", JStr "1750")]%string.

Definition sample_header : json :=
  JObj [("transactionNumber", JStr "INV-2023-043");
        ("transactionType", JStr "sales_invoice");
        ("partyId", JNum (ofZ 1)); ("userId", JNum (ofZ 1));
        ("amount", JStr "1"); ("balanceDue", JStr "0")]%string.

Definition sample_request (items : list json) : CreateRequest :=
  mkCreateRequest
    (Some (JObj [("transaction", sample_header); ("items", JArr items)]%string)).

(** The first line item and the first customer of the demonstration data. *)
Definition laptop_item : TransactionItem.t :=
  TransactionItem.mk 1 1 1 (VStr "Laptop") (VStr "1") (VStr "45000")
    (VStr "45000") (VStr "5") (VStr "2250") (VStr "47250") (ValidDate 0).

Definition GlobalTech : Party.t :=
  Party.mk 1 "GlobalTech Solutions" "customer" (VStr "Maharashtra")
    (VStr "500000") 30 1.

(** * More of the record store, the controller and the detail view *)

(** ** [MemStorage]: listings and open balances *)

Definition getTransactionsByUserId (userId : Z) : M (list Transaction.t) :=
  s <- getStorage ;;
  ret (filter (fun transaction => Z.eqb (Transaction.userId transaction) userId)
         (JsMap.values (transactions s))).

Definition getTransactionsByType (userId : Z) (type : string)
  : M (list Transaction.t) :=
  s <- getStorage ;;
  ret (filter
         (fun transaction =>
            Z.eqb (Transaction.userId transaction) userId
            && String.eqb (Transaction.transactionType transaction) type)
         (JsMap.values (transactions s))).

Definition getTransactionsByPartyId (userId partyId : Z)
  : M (list Transaction.t) :=
  s <- getStorage ;;
  ret (filter
         (fun transaction =>
            Z.eqb (Transaction.userId transaction) userId
            && Z.eqb (Transaction.partyId transaction) partyId)
         (JsMap.values (transactions s))).

(** [{ total, count }] *)
Record OpenBalance : Type := mkOpenBalance {
  open_total : num;
  open_count : nat
}.

(** [getOpenPayables] and [getOpenReceivables] have the same body up to the
    transaction type. *)
Definition openOf (type : string) (userId : Z) : M OpenBalance :=
  s <- getStorage ;;
  let open :=
    filter
      (fun transaction =>
         Z.eqb (Transaction.userId transaction) userId
         && String.eqb (Transaction.transactionType transaction) type
         && isOpenStatus (Transaction.status transaction))
      (JsMap.values (transactions s)) in
  let total :=
    fold_left
      (fun sum transaction =>
         Double.add sum
           (Double.Number (or_zero (Transaction.balanceDue transaction))))
      open (ofZ 0) in
  ret (mkOpenBalance total (List.length open)).

Definition getOpenPayables (userId : Z) : M OpenBalance :=
  openOf "purchase_bill" userId.

Definition getOpenReceivables (userId : Z) : M OpenBalance :=
  openOf "sales_invoice" userId.

(** ** The shape a store keeps

    The keys of each map are distinct, as in any [Map]; they lie below the
    counter that hands out the next id; and each record is stored under its
    own id. *)

Definition keys {V} (m : JsMap.t V) : list Z := map fst m.

Definition keys_below {V} (c : Z) (m : JsMap.t V) : Prop :=
  Forall (fun k => k < c) (keys m).

Definition wellFormed (s : MemStorage) : Prop :=
  NoDup (keys (transactions s)) /\
  NoDup (keys (transactionItems s)) /\
  keys_below (transactionIdCounter s) (transactions s) /\
  keys_below (transactionItemIdCounter s) (transactionItems s) /\
  Forall (fun kv => Transaction.id (snd kv) = fst kv) (transactions s) /\
  Forall (fun kv => TransactionItem.id (snd kv) = fst kv) (transactionItems s).

(** Every stored item belongs to a transaction whose id was handed out. *)
Definition itemsReferBelowCounter (s : MemStorage) : Prop :=
  Forall (fun item => TransactionItem.transactionId item < transactionIdCounter s)
    (JsMap.values (transactionItems s)).

(** ** The transaction controller: reading a transaction *)

(** [req.params.id] after [parseInt]; [None] is [NaN]. *)
Record GetRequest : Type := mkGetRequest {
  get_params_id : option Z
}.

Section TransactionControllerReads.

Variable calculateTotals : list TransactionItem.t -> result Totals.

(** No key of either map is [NaN] and no item belongs to transaction [NaN]:
    for such an id the store answers [undefined] and no items. *)
Definition getTransactionById (req : GetRequest) : M Response :=
  try_catch
    (let transactionId := get_params_id req in
     transaction <-
       match transactionId with
       | Some id => getTransaction id
       | None => ret None
       end ;;
     match transaction with
     | None => ret (mkResponse 404 (Message "Transaction not found" None))
     | Some transaction =>
         items <-
           match transactionId with
           | Some id => getTransactionItemsByTransactionId id
           | None => ret []
           end ;;
         totals <- lift (calculateTotals items) ;;
         ret (mkResponse 200 (TransactionWithItems transaction items totals))
     end)
    (fun error =>
       ret (mkResponse 400 (Message "Failed to fetch transaction" (Some error)))).

End TransactionControllerReads.

(** ** [TransactionDetailView]: the figures of the items table *)


(** A tax rate that reads as a number. *)
Definition isNumber (n : num) : bool :=
  match n with
  | NaN => false
  | Finite _ => true
  end.

(** ** [MemStorage]: the ageing analysis over all transactions of a user *)

(** [Math.abs] and [Math.ceil] *)
Definition Math_abs (a : num) : num :=
  match a with
  | NaN => NaN
  | Finite x => Finite (if Qc_ltb x 0%Qc then (- x)%Qc else x)
  end.

Definition Math_ceil (a : num) : num :=
  match a with
  | NaN => NaN
  | Finite x => ofZ (Qceiling x)
  end.

Module AgingAnalysis.
Record t : Type := mk {
  days1to30 : num;
  days31to60 : num;
  days60plus : num
}.
End AgingAnalysis.

(** The body of the [forEach] callback of [getAgingAnalysis]. *)
Definition agingStep (today : Date) (result : AgingAnalysis.t)
    (transaction : Transaction.t) : AgingAnalysis.t :=
  match Transaction.dueDate transaction with
  | None => result
  | Some due =>
      if negb (truthy (Transaction.balanceDue transaction)) then result
      else
        let dueDate := due in
        let diffTime := Math_abs (Num.sub (getTime today) (getTime dueDate)) in
        let diffDays := Math_ceil (Num.div diffTime msPerDay) in
        let balance := Number (or_zero (Transaction.balanceDue transaction)) in
        if Num.le diffDays (ofZ 30) then
          AgingAnalysis.mk
            (Num.add (AgingAnalysis.days1to30 result) balance)
            (AgingAnalysis.days31to60 result)
            (AgingAnalysis.days60plus result)
        else if Num.le diffDays (ofZ 60) then
          AgingAnalysis.mk
            (AgingAnalysis.days1to30 result)
            (Num.add (AgingAnalysis.days31to60 result) balance)
            (AgingAnalysis.days60plus result)
        else
          AgingAnalysis.mk
            (AgingAnalysis.days1to30 result)
            (AgingAnalysis.days31to60 result)
            (Num.add (AgingAnalysis.days60plus result) balance)
  end.

Definition getAgingAnalysis (userId : Z) : M AgingAnalysis.t :=
  let result := AgingAnalysis.mk (ofZ 0) (ofZ 0) (ofZ 0) in
  transactions <- getTransactionsByUserId userId ;;
  today <- newDate ;;
  ret (fold_left (agingStep today) transactions result).

(** The three buckets of [getAgingAnalysis], by the time between now and the
    due date, whichever comes first. *)
Inductive AgingBucket : Type := Within30 | Within60 | Beyond60.

Definition aging_bucket (now : Z) (transaction : Transaction.t)
  : option AgingBucket :=
  match Transaction.dueDate transaction with
  | None => None
  | Some due =>
      if truthy (Transaction.balanceDue transaction) then
        Some match due with
             | ValidDate due =>
                 if Z.abs (now - due) <=? 30 * day_ms then Within30
                 else if Z.abs (now - due) <=? 60 * day_ms then Within60
                 else Beyond60
             | InvalidDate => Beyond60
             end
      else None
  end.

Definition in_aging_bucket (now : Z) (b : AgingBucket)
    (transaction : Transaction.t) : bool :=
  match aging_bucket now transaction, b with
  | Some Within30, Within30 => true
  | Some Within60, Within60 => true
  | Some Beyond60, Beyond60 => true
  | _, _ => false
  end.

Definition aging_field (b : AgingBucket) (result : AgingAnalysis.t) : num :=
  match b with
  | Within30 => AgingAnalysis.days1to30 result
  | Within60 => AgingAnalysis.days31to60 result
  | Beyond60 => AgingAnalysis.days60plus result
  end.

Definition aging_credit (b : AgingBucket) (balance : num)
    (result : AgingAnalysis.t) : AgingAnalysis.t :=
  match b with
  | Within30 =>
      AgingAnalysis.mk (Num.add (AgingAnalysis.days1to30 result) balance)
        (AgingAnalysis.days31to60 result) (AgingAnalysis.days60plus result)
  | Within60 =>
      AgingAnalysis.mk (AgingAnalysis.days1to30 result)
        (Num.add (AgingAnalysis.days31to60 result) balance)
        (AgingAnalysis.days60plus result)
  | Beyond60 =>
      AgingAnalysis.mk (AgingAnalysis.days1to30 result)
        (AgingAnalysis.days31to60 result)
        (Num.add (AgingAnalysis.days60plus result) balance)
  end.

(** ** [MemStorage]: the most recent transactions *)

(** The comparator
    [(a, b) => new Date(b.transactionDate).getTime() - new Date(a.transactionDate).getTime()] *)
Definition byDateDescending (a b : Transaction.t) : num :=
  Num.sub (getTime (Transaction.transactionDate b))
          (getTime (Transaction.transactionDate a)).

(** [Array.prototype.sort(comparefn)].  The sort is stable, so for a
    comparator that orders the elements consistently the result is fixed by
    the comparator and the order of the input; an insertion from the right
    that puts an element before the first one it does not have to follow
    computes it.  A comparator value that is [NaN] counts as 0. *)
Fixpoint sort_insert {A} (comparefn : A -> A -> num) (x : A) (l : list A)
  : list A :=
  match l with
  | [] => [x]
  | y :: r =>
      if Num.gt (comparefn x y) (ofZ 0) then y :: sort_insert comparefn x r
      else x :: l
  end.

Definition array_sort {A} (comparefn : A -> A -> num) (l : list A) : list A :=
  fold_right (sort_insert comparefn) [] l.

(** [array.slice(0, limit)] for an integer [limit]: a negative one is
    counted from the end. *)
Definition slice_from_start {A} (limit : Z) (l : list A) : list A :=
  if limit <? 0 then firstn (Z.to_nat (Z.of_nat (List.length l) + limit)) l
  else firstn (Z.to_nat limit) l.

Definition getRecentTransactions (userId limit : Z) : M (list Transaction.t) :=
  s <- getStorage ;;
  ret (slice_from_start limit
         (array_sort byDateDescending
            (filter (fun transaction => Z.eqb (Transaction.userId transaction) userId)
               (JsMap.values (transactions s))))).

(** The time value of a transaction date that is a valid date. *)
Definition hasValidDate (transaction : Transaction.t) : bool :=
  match Transaction.transactionDate transaction with
  | ValidDate _ => true
  | InvalidDate => false
  end.

Definition dateOf (transaction : Transaction.t) : Z :=
  match Transaction.transactionDate transaction with
  | ValidDate ms => ms
  | InvalidDate => 0
  end.

(** Newer or of the same date. *)
Definition notOlder (a b : Transaction.t) : Prop := dateOf b <= dateOf a.

(** ** [MemStorage]: the listing of an item *)

From Stdlib Require Import DecimalString.

(** An item of the inventory with its listing.  Texts and decimals are
    [value]s, arrays of strings are [None] when [null], flags and the review
    count are [None] when [null]. *)
Module Item.
Record t : Type := mk {
  id : Z;
  name : value;
  hsnCode : value;
  unit : value;
  category : value;
  description : value;
  sellingPrice : value;
  purchasePrice : value;
  openingStock : value;
  minStockLevel : value;
  userId : Z;
  createdAt : Date;
  imageUrl : value;
  imageUrls : option (list string);
  isListed : option bool;
  listingDescription : value;
  listingCategory : value;
  listingTags : option (list string);
  listingStatus : value;
  mrp : value;
  discountPercentage : value;
  featuredProduct : option bool;
  brandName : value;
  specifications : value;
  ratings : value;
  reviewCount : option Z
}.
End Item.

(** [Partial<InsertItem>]: a field that is absent reads as [undefined], that
    is [VUndefined] or [None]. *)
Module PartialItem.
Record t : Type := mk {
  name : value;
  hsnCode : value;
  unit : value;
  category : value;
  description : value;
  sellingPrice : value;
  purchasePrice : value;
  openingStock : value;
  minStockLevel : value;
  userId : option Z;
  imageUrl : value;
  imageUrls : option (list string);
  isListed : option bool;
  listingDescription : value;
  listingCategory : value;
  listingTags : option (list string);
  listingStatus : value;
  mrp : value;
  discountPercentage : value;
  featuredProduct : option bool;
  brandName : value;
  specifications : value;
  ratings : value;
  reviewCount : option Z
}.

Definition empty : t :=
  mk VUndefined VUndefined VUndefined VUndefined VUndefined VUndefined
     VUndefined VUndefined VUndefined None
     VUndefined None None VUndefined VUndefined None VUndefined VUndefined
     VUndefined None VUndefined VUndefined VUndefined None.
End PartialItem.

(** [a || b] on texts and decimals *)
Definition value_or (a b : value) : value := if truthy a then a else b.

(** [a || b] on arrays: an array is truthy, also when empty. *)
Definition array_or (a b : option (list string)) : option (list string) :=
  match a with
  | Some l => Some l
  | None => b
  end.

(** [a ?? b] *)
Definition nullish {A} (a b : option A) : option A :=
  match a with
  | Some x => Some x
  | None => b
  end.

(** The object that [updateItemListing] builds: [{ ...item, imageUrl:
    listingData.imageUrl || item.imageUrl, ... }]. *)
Definition listingUpdate (item : Item.t) (listingData : PartialItem.t)
  : Item.t :=
  Item.mk
    (Item.id item) (Item.name item) (Item.hsnCode item) (Item.unit item)
    (Item.category item) (Item.description item) (Item.sellingPrice item)
    (Item.purchasePrice item) (Item.openingStock item)
    (Item.minStockLevel item) (Item.userId item) (Item.createdAt item)
    (value_or (PartialItem.imageUrl listingData) (Item.imageUrl item))
    (array_or (PartialItem.imageUrls listingData) (Item.imageUrls item))
    (nullish (PartialItem.isListed listingData) (Item.isListed item))
    (value_or (PartialItem.listingDescription listingData)
       (Item.listingDescription item))
    (value_or (PartialItem.listingCategory listingData)
       (Item.listingCategory item))
    (array_or (PartialItem.listingTags listingData) (Item.listingTags item))
    (value_or (PartialItem.listingStatus listingData) (Item.listingStatus item))
    (value_or (PartialItem.mrp listingData) (Item.mrp item))
    (value_or (PartialItem.discountPercentage listingData)
       (Item.discountPercentage item))
    (nullish (PartialItem.featuredProduct listingData)
       (Item.featuredProduct item))
    (value_or (PartialItem.brandName listingData) (Item.brandName item))
    (value_or (PartialItem.specifications listingData)
       (Item.specifications item))
    (value_or (PartialItem.ratings listingData) (Item.ratings item))
    (nullish (PartialItem.reviewCount listingData) (Item.reviewCount item)).

(** [`Item with id ${id} not found`] *)
Definition item_not_found (id : Z) : string :=
  ("Item with id " ++ NilZero.string_of_int (Z.to_int id) ++ " not found")%string.

(** [updateItemListing] reads and writes the map of items and nothing else;
    it is given that map and returns it. *)
Definition updateItemListing (id : Z) (listingData : PartialItem.t)
    (items : JsMap.t Item.t) : result Item.t * JsMap.t Item.t :=
  match JsMap.get id items with
  | None => (Throw (item_not_found id), items)
  | Some item =>
      let updatedItem := listingUpdate item listingData in
      (Ok updatedItem, JsMap.set id updatedItem items)
  end.

(** The laptop of the demonstration data. *)
Definition laptop_stock : Item.t :=
  Item.mk 1 (VStr "Laptop") (VStr "8471") (VStr "Nos") (VStr "Electronics")
    (VStr "High-performance business laptop") (VStr "45000") (VStr "38000")
    (VStr "10") (VStr "2") 1 (ValidDate 0)
    (VStr "https://images.unsplash.com/photo-1496181133206-80ce9b88a853")
    (Some ["https://images.unsplash.com/photo-1496181133206-80ce9b88a853"%string])
    (Some true)
    (VStr "Ultra-fast business laptop with high performance and extended battery life.")
    (VStr "Electronics")
    (Some ["laptop"; "business"; "high-performance"]%string)
    (VStr "active") (VStr "48000") (VStr "6.25") (Some true) (VStr "TechPro")
    (VStr "Intel Core i7, 16GB RAM, 512GB SSD, 15.6 inch FHD display")
    (VStr "4.5") (Some 24).

(** What [updateItemListing] means to leave alone: the fields of an item
    that its object literal does not name. *)
Definition inventoryData (item : Item.t)
  : Z * value * value * value * value * value * value * value * value * value
    * Z * Date :=
  (Item.id item, Item.name item, Item.hsnCode item, Item.unit item,
   Item.category item, Item.description item, Item.sellingPrice item,
   Item.purchasePrice item, Item.openingStock item, Item.minStockLevel item,
   Item.userId item, Item.createdAt item).

(** A payload none of whose listing fields can replace a stored one: texts
    and decimals falsy, arrays, flags and the count absent or [null]. *)
Definition carriesNoListing (d : PartialItem.t) : Prop :=
  truthy (PartialItem.imageUrl d) = false
  /\ PartialItem.imageUrls d = None
  /\ PartialItem.isListed d = None
  /\ truthy (PartialItem.listingDescription d) = false
  /\ truthy (PartialItem.listingCategory d) = false
  /\ PartialItem.listingTags d = None
  /\ truthy (PartialItem.listingStatus d) = false
  /\ truthy (PartialItem.mrp d) = false
  /\ truthy (PartialItem.discountPercentage d) = false
  /\ PartialItem.featuredProduct d = None
  /\ truthy (PartialItem.brandName d) = false
  /\ truthy (PartialItem.specifications d) = false
  /\ truthy (PartialItem.ratings d) = false
  /\ PartialItem.reviewCount d = None.

(** A payload that renames the item, reprices it and blanks its listing
    description. *)
Definition rename_and_blank : PartialItem.t :=
  PartialItem.mk (VStr "Notebook") VUndefined VUndefined VUndefined VUndefined
    (VStr "1") VUndefined VUndefined VUndefined (Some 2)
    VUndefined None None (VStr EmptyString) VNull None VUndefined VUndefined
    VUndefined None VUndefined VUndefined VUndefined None.

(** ** More sample data *)

(** Three open invoices with paise, seen on day 20000: the first falls due
    in ten days, the other two are ten and five days overdue. *)
Definition invoice (id : Z) (balanceDue : string) (dueDate : Z)
  : Transaction.t :=
  Transaction.mk id "INV-2023-050" "sales_invoice" (ValidDate 0) 1
    (VStr balanceDue) (VStr balanceDue) (Some (ValidDate dueDate))
    "pending" VNull VNull false true 1 (ValidDate 0).

Definition fractional_world : World :=
  mkWorld
    (mkMemStorage
       [(1, invoice 1 "47250.35" (20010 * day_ms));
        (2, invoice 2 "18750.40" (19990 * day_ms));
        (3, invoice 3 "28600.20" (19995 * day_ms))] [] 4 1)
    (20000 * day_ms).


(** A customer in the state of the user. *)
Definition LocalTraders : Party.t :=
  Party.mk 2 "Local Traders" "customer" (VStr "Same State as User")
    (VStr "100000") 15 1.

(** A header as the schema hands it to the store. *)
Definition sample_insert : InsertTransaction.t :=
  InsertTransaction.mk "BILL-2023-129" "purchase_bill" (ValidDate 0) 2
    (VStr "18750") (VStr "18750") (Some (ValidDate (20010 * day_ms)))
    "pending" VNull VNull false false 1.

(** A part payment: the balance and the status change, nothing else. *)
Definition sample_payment : PartialTransaction.t :=
  PartialTransaction.mk None None None None None (Some (VStr "20000")) None
    (Some "partially_paid"%string) None None None None None.

(** * Properties *)

(** ** Numbers *)

Module NumFacts.

Lemma Qc_eqb_eq (x y : Qc) : Qc_eqb x y = true <-> x = y.
Proof.
  unfold Qc_eqb. rewrite Qeq_bool_iff. split.
  - apply Qc_is_canon.
  - intros ->. reflexivity.
Qed.

Lemma Qc_eqb_refl (x : Qc) : Qc_eqb x x = true.
Proof. apply Qc_eqb_eq. reflexivity. Qed.

Lemma Qc_leb_le (x y : Qc) : Qc_leb x y = true <-> (x <= y)%Qc.
Proof. unfold Qc_leb, Qcle. apply Qle_bool_iff. Qed.

Lemma Qc_ltb_lt (x y : Qc) : Qc_ltb x y = true <-> (x < y)%Qc.
Proof.
  unfold Qc_ltb, Qclt. rewrite negb_true_iff.
  rewrite <- not_true_iff_false, Qle_bool_iff. split.
  - apply Qnot_le_lt.
  - apply Qlt_not_le.
Qed.

Lemma add_ofZ (a b : Z) : add (ofZ a) (ofZ b) = ofZ (a + b).
Proof.
  unfold add, ofZ. f_equal. apply Qc_is_canon.
  unfold Qcplus, Q2Qc, this. rewrite !Qred_correct.
  rewrite inject_Z_plus. reflexivity.
Qed.



Lemma halves (x : Qc) :
  add (div (Finite x) (ofZ 2)) (div (Finite x) (ofZ 2)) = Finite x.
Proof.
  unfold div, ofZ.
  replace (Qc_eqb (Q2Qc (inject_Z 2)) 0%Qc) with false by reflexivity.
  simpl. f_equal. apply Qc_is_canon.
  unfold Qcdiv, Qcmult, Qcplus, Qcinv, Q2Qc, this.
  rewrite !Qred_correct. destruct x as [q Hq]. simpl. field.
Qed.

(** [Number(x) || 0] is never [NaN]. *)
Lemma or_else_zero_finite (a : num) : exists q, or_else a (ofZ 0) = Finite q.
Proof.
  unfold or_else. destruct a as [|q]; simpl.
  - eexists. reflexivity.
  - destruct (negb (Qc_eqb q 0%Qc)); eexists; reflexivity.
Qed.

Lemma strict_eq_eq (a b : num) : strict_eq a b = true -> a = b.
Proof.
  destruct a, b; simpl; try discriminate.
  intros H. apply Qc_eqb_eq in H. congruence.
Qed.


Lemma strict_eq_sym (a b : num) : strict_eq a b = strict_eq b a.
Proof.
  destruct a as [|x], b as [|y]; simpl; try reflexivity.
  destruct (Qc_eqb x y) eqn:E.
  - apply Qc_eqb_eq in E. subst. symmetry. apply Qc_eqb_refl.
  - destruct (Qc_eqb y x) eqn:E'; [|reflexivity].
    apply Qc_eqb_eq in E'. subst. rewrite Qc_eqb_refl in E. discriminate.
Qed.

(** Comparing two integers as numbers. *)
Lemma le_ofZ (a b : Z) : le (ofZ a) (ofZ b) = (a <=? b).
Proof.
  unfold le, ofZ, Qc_leb.
  destruct (a <=? b) eqn:E.
  - apply Qle_bool_iff. unfold Q2Qc, this. rewrite !Qred_correct.
    rewrite <- Zle_Qle. apply Z.leb_le. exact E.
  - apply not_true_iff_false. rewrite Qle_bool_iff.
    unfold Q2Qc, this. rewrite !Qred_correct. rewrite <- Zle_Qle.
    apply Z.leb_gt in E. lia.
Qed.

Lemma gt_ofZ (a b : Z) : gt (ofZ a) (ofZ b) = (b <? a).
Proof.
  unfold gt, Qc_ltb. fold (Qc_leb (Q2Qc (inject_Z a)) (Q2Qc (inject_Z b))).
  change (negb (le (ofZ a) (ofZ b)) = (b <? a)).
  rewrite le_ofZ. rewrite Z.ltb_antisym. reflexivity.
Qed.

(** The floor of a quotient of integers is the integer quotient. *)
Lemma floor_div_ofZ (a b c : Z) :
  0 < c ->
  floor (div (sub (ofZ a) (ofZ b)) (ofZ c)) = ofZ ((a - b) / c).
Proof.
  intros Hc. unfold floor, div, sub, ofZ.
  assert (Hne : ~ inject_Z c == 0).
  { unfold Qeq. simpl. lia. }
  assert (Hc0 : Qc_eqb (Q2Qc (inject_Z c)) 0%Qc = false).
  { apply not_true_iff_false. intros H. apply Qc_eqb_eq in H.
    apply (f_equal this) in H. apply Hne.
    rewrite <- (Qred_correct (inject_Z c)). unfold Q2Qc, this in H.
    rewrite H. reflexivity. }
  rewrite Hc0. f_equal. f_equal. f_equal.
  assert (E : this ((Q2Qc (inject_Z a) - Q2Qc (inject_Z b)) / Q2Qc (inject_Z c))%Qc
              == (a - b) # (Z.to_pos c)).
  { unfold Qcdiv, Qcmult, Qcminus, Qcplus, Qcopp, Qcinv, Q2Qc, this.
    rewrite !Qred_correct.
    unfold Qeq, Qmult, Qplus, Qopp, Qinv, inject_Z. simpl.
    destruct c as [|p|p]; try lia. simpl. lia. }
  rewrite (Qfloor_comp _ _ E). unfold Qfloor.
  rewrite Z2Pos.id by exact Hc. reflexivity.
Qed.

End NumFacts.

(** ** Rounding to a double *)

Module DoubleFacts.
Import NumFacts Double.

Section Rationals.
Local Open Scope Q_scope.

Lemma two_neq_0 : ~ 2 == 0.
Proof. intros H. discriminate H. Qed.

Lemma pow2_pos (k : Z) : 0 < pow2 k.
Proof. apply Qpower_0_lt. reflexivity. Qed.

Lemma pow2_add (a b : Z) : pow2 (a + b) == pow2 a * pow2 b.
Proof. apply Qpower_plus, two_neq_0. Qed.

Lemma pow2_Z (k : Z) : (0 <= k)%Z -> pow2 k == inject_Z (2 ^ k).
Proof. intros H. symmetry. apply (Zpower_Qpower 2 k H). Qed.

Lemma pow2_0 : pow2 0 == 1.
Proof. reflexivity. Qed.

Lemma pow2_opp_r (k : Z) : pow2 k * pow2 (- k) == 1.
Proof. rewrite <- pow2_add, Z.add_opp_diag_r. reflexivity. Qed.

Lemma pow2_le (a b : Z) : (a <= b)%Z -> pow2 a <= pow2 b.
Proof. intros H. apply Qpower_le_compat_l; [exact H | discriminate]. Qed.

Lemma pow2_lt (a b : Z) : (a < b)%Z -> pow2 a < pow2 b.
Proof. intros H. apply Qpower_lt_compat_l; [exact H | reflexivity]. Qed.

Lemma pow2_lt_inv (a b : Z) : pow2 a < pow2 b -> (a < b)%Z.
Proof. intros H. apply (Qpower_lt_compat_l_inv 2); [exact H | reflexivity]. Qed.

(** The exponent of a positive number is unique. *)
Lemma exponent_unique (x : Q) (e e' : Z) :
  pow2 e <= x < pow2 (e + 1) -> pow2 e' <= x < pow2 (e' + 1) -> e = e'.
Proof.
  intros [H1 H2] [H3 H4].
  assert (e < e' + 1)%Z by (apply pow2_lt_inv; eapply Qle_lt_trans; eassumption).
  assert (e' < e + 1)%Z by (apply pow2_lt_inv; eapply Qle_lt_trans; eassumption).
  lia.
Qed.

Lemma Q_as_quotient (x : Q) : x * inject_Z (Zpos (Qden x)) == inject_Z (Qnum x).
Proof.
  destruct x as [n d]. unfold Qeq, inject_Z, Qmult. cbn. lia.
Qed.

Lemma ilog2_bounds (x : Q) :
  0 < x ->
  let e := (Z.log2 (Qnum x) - Z.log2 (Zpos (Qden x)))%Z in
  pow2 (e - 1) < x < pow2 (e + 1).
Proof.
  intros Hx e.
  assert (Hn : (0 < Qnum x)%Z).
  { destruct x as [n d]. unfold Qlt in Hx. cbn in Hx. cbn. lia. }
  set (n := Qnum x) in *. set (d := Zpos (Qden x)) in *.
  assert (Hd : (0 < d)%Z) by reflexivity.
  pose proof (Z.log2_spec n Hn) as [Ha1 Ha2].
  pose proof (Z.log2_spec d Hd) as [Hb1 Hb2].
  pose proof (Z.log2_nonneg n) as Ha0.
  pose proof (Z.log2_nonneg d) as Hb0.
  set (a := Z.log2 n) in *. set (b := Z.log2 d) in *.
  assert (HK : 0 < inject_Z (2 ^ (b + 1)) * inject_Z d).
  { rewrite <- inject_Z_mult. change 0 with (inject_Z 0). rewrite <- Zlt_Qlt.
    apply Z.mul_pos_pos; [apply Z.pow_pos_nonneg; lia | exact Hd]. }
  assert (Ex : x * (inject_Z (2 ^ (b + 1)) * inject_Z d)
               == inject_Z (n * 2 ^ (b + 1))).
  { rewrite (Qmult_comm (inject_Z (2 ^ (b + 1)))), Qmult_assoc.
    unfold d. rewrite Q_as_quotient. fold n. rewrite <- inject_Z_mult.
    reflexivity. }
  assert (El : pow2 (e - 1) * (inject_Z (2 ^ (b + 1)) * inject_Z d)
               == inject_Z (2 ^ a * d)).
  { rewrite Qmult_assoc, <- (pow2_Z (b + 1)) by lia. rewrite <- pow2_add.
    replace (e - 1 + (b + 1))%Z with a by (unfold e; lia).
    rewrite (pow2_Z a) by lia. rewrite <- inject_Z_mult. reflexivity. }
  assert (Eu : pow2 (e + 1) * (inject_Z (2 ^ (b + 1)) * inject_Z d)
               == inject_Z (2 ^ (a + 2) * d)).
  { rewrite Qmult_assoc, <- (pow2_Z (b + 1)) by lia. rewrite <- pow2_add.
    replace (e + 1 + (b + 1))%Z with (a + 2)%Z by (unfold e; lia).
    rewrite (pow2_Z (a + 2)) by lia. rewrite <- inject_Z_mult. reflexivity. }
  assert (P1 : (2 ^ (b + 1) = 2 * 2 ^ b)%Z) by (rewrite Z.pow_add_r by lia; lia).
  assert (P2 : (2 ^ (a + 2) = 4 * 2 ^ a)%Z) by (rewrite Z.pow_add_r by lia; lia).
  assert (P3 : (2 ^ Z.succ a = 2 * 2 ^ a)%Z) by (rewrite Z.pow_succ_r by lia; lia).
  assert (P4 : (2 ^ Z.succ b = 2 * 2 ^ b)%Z) by (rewrite Z.pow_succ_r by lia; lia).
  assert (P5 : (0 < 2 ^ a)%Z) by (apply Z.pow_pos_nonneg; lia).
  assert (P6 : (0 < 2 ^ b)%Z) by (apply Z.pow_pos_nonneg; lia).
  rewrite P3 in Ha2. rewrite P4 in Hb2.
  split.
  - apply (Qmult_lt_r _ _ _ HK). rewrite El, Ex. rewrite <- Zlt_Qlt.
    rewrite P1. set (A := (2 ^ a)%Z) in *. set (B := (2 ^ b)%Z) in *.
    apply Z.lt_le_trans with (A * (2 * B))%Z.
    + apply Z.mul_lt_mono_pos_l; assumption.
    + apply Z.mul_le_mono_nonneg_r; lia.
  - apply (Qmult_lt_r _ _ _ HK). rewrite Eu, Ex. rewrite <- Zlt_Qlt.
    rewrite P1, P2. set (A := (2 ^ a)%Z) in *. set (B := (2 ^ b)%Z) in *.
    apply Z.lt_le_trans with (2 * A * (2 * B))%Z.
    + apply Z.mul_lt_mono_pos_r; lia.
    + replace (4 * A * d)%Z with (2 * A * (2 * d))%Z by lia.
      apply Z.mul_le_mono_nonneg_l; lia.
Qed.

Lemma ilog2_spec (x : Q) :
  0 < x -> pow2 (ilog2 x) <= x < pow2 (ilog2 x + 1).
Proof.
  intros Hx. pose proof (ilog2_bounds x Hx) as [Hl Hu]. cbv zeta in Hl, Hu.
  unfold ilog2. set (e := (Z.log2 (Qnum x) - Z.log2 (Zpos (Qden x)))%Z) in *.
  destruct (Qle_bool (pow2 e) x) eqn:E.
  - apply Qle_bool_iff in E. split; assumption.
  - split.
    + apply Qlt_le_weak. exact Hl.
    + replace (e - 1 + 1)%Z with e by lia.
      apply Qnot_le_lt. intros H. apply Qle_bool_iff in H. congruence.
Qed.

Lemma ilog2_unique (x : Q) (e : Z) :
  pow2 e <= x < pow2 (e + 1) -> ilog2 x = e.
Proof.
  intros H.
  assert (Hx : 0 < x) by (eapply Qlt_le_trans; [apply (pow2_pos e) | apply H]).
  exact (exponent_unique x _ _ (ilog2_spec x Hx) H).
Qed.



#[global] Instance rne_comp : Proper (Qeq ==> eq) rne.
Proof.
  intros x y E. unfold rne. cbv zeta. rewrite (Qfloor_comp x y E).
  assert (E2 : x - inject_Z (Qfloor y) == y - inject_Z (Qfloor y))
    by (rewrite E; reflexivity).
  rewrite (Qcompare_comp _ _ E2 _ _ (Qeq_refl (1 # 2))). reflexivity.
Qed.

Lemma rne_Z (z : Z) : rne (inject_Z z) = z.
Proof.
  unfold rne. rewrite Qfloor_Z.
  assert (E : inject_Z z - inject_Z z == 0) by ring.
  rewrite E. reflexivity.
Qed.

Lemma rne_floor (x : Q) : (Qfloor x <= rne x <= Qfloor x + 1)%Z.
Proof.
  unfold rne. destruct (_ ?= _); [destruct (Z.even _)| |]; lia.
Qed.

Lemma rne_ge (x : Q) (a : Z) : inject_Z a <= x -> (a <= rne x)%Z.
Proof.
  intros H. pose proof (rne_floor x) as [H1 _].
  apply Qfloor_resp_le in H. rewrite Qfloor_Z in H. lia.
Qed.

Lemma rne_le (x : Q) (b : Z) : x <= inject_Z b -> (rne x <= b)%Z.
Proof.
  intros H.
  assert (Hf : (Qfloor x <= b)%Z).
  { apply Qfloor_resp_le in H. rewrite Qfloor_Z in H. exact H. }
  destruct (Qlt_le_dec (inject_Z (Qfloor x)) x) as [Hlt|Hge].
  - assert (Qfloor x < b)%Z.
    { rewrite Zlt_Qlt. eapply Qlt_le_trans; eassumption. }
    pose proof (rne_floor x). lia.
  - assert (E : x == inject_Z (Qfloor x)).
    { apply Qle_antisym; [exact Hge | apply Qfloor_le]. }
    rewrite E, rne_Z. exact Hf.
Qed.

(** *** Rounding a positive number *)

Lemma scaled_bounds (x : Q) (e : Z) :
  pow2 e <= x < pow2 (e + 1) ->
  inject_Z (2 ^ 52) <= x * pow2 (52 - e) < inject_Z (2 ^ 53).
Proof.
  intros [H1 H2]. pose proof (pow2_pos (52 - e)) as Hp.
  rewrite <- !pow2_Z by lia. split.
  - replace 52%Z with (e + (52 - e))%Z at 1 by lia. rewrite pow2_add.
    apply Qmult_le_compat_r; [exact H1 | apply Qlt_le_weak, Hp].
  - replace 53%Z with (e + 1 + (52 - e))%Z at 1 by lia. rewrite pow2_add.
    apply Qmult_lt_compat_r; assumption.
Qed.

Lemma round_pos_eq (x : Q) :
  round_pos x
  = inject_Z (rne (x * pow2 (52 - ilog2 x))) * pow2 (- (52 - ilog2 x)).
Proof. reflexivity. Qed.

Lemma round_pos_comp (x y : Q) : 0 < x -> x == y -> round_pos x == round_pos y.
Proof.
  intros Hx E. rewrite !round_pos_eq.
  assert (El : ilog2 y = ilog2 x).
  { apply ilog2_unique. rewrite <- E. apply ilog2_spec, Hx. }
  rewrite El. generalize (ilog2 x). intros e. rewrite E. reflexivity.
Qed.

Lemma round_pos_exact (x : Q) (e m : Z) :
  pow2 e <= x < pow2 (e + 1) ->
  x * pow2 (52 - e) == inject_Z m ->
  round_pos x == x.
Proof.
  intros He Hm. rewrite round_pos_eq. rewrite (ilog2_unique x e He).
  rewrite Hm, rne_Z, <- Hm, <- Qmult_assoc, pow2_opp_r. ring.
Qed.

Lemma round_pos_value (x : Q) :
  0 < x ->
  exists m : Z,
    (2 ^ 52 <= m <= 2 ^ 53)%Z /\
    round_pos x == inject_Z m * pow2 (ilog2 x - 52).
Proof.
  intros Hx. pose proof (scaled_bounds x _ (ilog2_spec x Hx)) as [H1 H2].
  exists (rne (x * pow2 (52 - ilog2 x))). split.
  - split; [apply rne_ge, H1 | apply rne_le, Qlt_le_weak, H2].
  - rewrite round_pos_eq. replace (- (52 - ilog2 x))%Z with (ilog2 x - 52)%Z by lia.
    reflexivity.
Qed.

Lemma round_pos_pos (x : Q) : 0 < x -> 0 < round_pos x.
Proof.
  intros Hx. destruct (round_pos_value x Hx) as (m & [Hm _] & ->).
  apply Qmult_lt_0_compat; [|apply pow2_pos].
  change 0 with (inject_Z 0). rewrite <- Zlt_Qlt.
  assert (0 < 2 ^ 52)%Z by reflexivity. lia.
Qed.

Lemma round_pos_idem (x : Q) : 0 < x -> round_pos (round_pos x) == round_pos x.
Proof.
  intros Hx. destruct (round_pos_value x Hx) as (m & [Hm1 Hm2] & E).
  set (e := ilog2 x) in *.
  assert (Hr : 0 < round_pos x) by (apply round_pos_pos, Hx).
  rewrite (round_pos_comp _ _ Hr E). rewrite E.
  destruct (Z.eq_dec m (2 ^ 53)) as [->|Hne].
  - (* the mantissa overflows into the next binade *)
    apply (round_pos_exact _ (e + 1) (2 ^ 52)).
    + rewrite <- (pow2_Z 53) by lia. rewrite <- pow2_add.
      replace (53 + (e - 52))%Z with (e + 1)%Z by lia.
      split; [apply Qle_refl | apply pow2_lt; lia].
    + rewrite <- (pow2_Z 53), <- (pow2_Z 52) by lia. rewrite <- !pow2_add.
      replace (53 + (e - 52) + (52 - (e + 1)))%Z with 52%Z by lia. reflexivity.
  - apply (round_pos_exact _ e m).
    + pose proof (pow2_pos (e - 52)) as Hp. split.
      * replace e with (52 + (e - 52))%Z at 1 by lia. rewrite pow2_add.
        rewrite (pow2_Z 52) by lia.
        apply Qmult_le_compat_r; [rewrite <- Zle_Qle; exact Hm1 | apply Qlt_le_weak, Hp].
      * replace (e + 1)%Z with (53 + (e - 52))%Z by lia. rewrite pow2_add.
        rewrite (pow2_Z 53) by lia.
        apply Qmult_lt_compat_r; [exact Hp | rewrite <- Zlt_Qlt; lia].
    + rewrite <- Qmult_assoc, <- pow2_add.
      replace (e - 52 + (52 - e))%Z with 0%Z by lia. rewrite pow2_0. ring.
Qed.

(** Multiplying by a power of two moves the exponent and nothing else. *)
Lemma round_pos_scale (x : Q) (k : Z) :
  0 < x -> round_pos (x * pow2 k) == round_pos x * pow2 k.
Proof.
  intros Hx. pose proof (ilog2_spec x Hx) as [H1 H2].
  pose proof (pow2_pos k) as Hk.
  assert (El : ilog2 (x * pow2 k) = (ilog2 x + k)%Z).
  { apply ilog2_unique. split.
    - rewrite pow2_add. apply Qmult_le_compat_r; [exact H1 | apply Qlt_le_weak, Hk].
    - replace (ilog2 x + k + 1)%Z with (ilog2 x + 1 + k)%Z by lia.
      rewrite pow2_add. apply Qmult_lt_compat_r; assumption. }
  rewrite !round_pos_eq. rewrite El.
  assert (Es : x * pow2 k * pow2 (52 - (ilog2 x + k)) == x * pow2 (52 - ilog2 x)).
  { rewrite <- Qmult_assoc, <- pow2_add.
    replace (k + (52 - (ilog2 x + k)))%Z with (52 - ilog2 x)%Z by lia.
    reflexivity. }
  rewrite Es. rewrite <- Qmult_assoc, <- pow2_add.
  replace (- (52 - ilog2 x) + k)%Z with (- (52 - (ilog2 x + k)))%Z by lia.
  reflexivity.
Qed.

Lemma round_pos_Z (z : Z) :
  (0 < z <= 2 ^ 53)%Z -> round_pos (inject_Z z) == inject_Z z.
Proof.
  intros [H0 H1]. destruct (Z.eq_dec z (2 ^ 53)) as [->|Hne].
  - vm_compute. reflexivity.
  - pose proof (Z.log2_spec z H0) as [Ha Hb].
    pose proof (Z.log2_nonneg z) as Hc.
    assert (Hl : (Z.log2 z < 53)%Z).
    { apply Z.log2_lt_pow2; lia. }
    apply (round_pos_exact _ (Z.log2 z) (z * 2 ^ (52 - Z.log2 z))).
    + rewrite !pow2_Z by lia. rewrite <- Zle_Qle, <- Zlt_Qlt.
      replace (Z.log2 z + 1)%Z with (Z.succ (Z.log2 z)) by lia. split; assumption.
    + rewrite pow2_Z by lia. rewrite <- inject_Z_mult. reflexivity.
Qed.

(** *** Rounding *)

Lemma roundQ_pos (x : Q) : 0 < x -> roundQ x = round_pos x.
Proof.
  intros H. unfold roundQ.
  assert (C : (x ?= 0) = Gt) by (apply Qgt_alt; exact H).
  rewrite C. reflexivity.
Qed.

Lemma roundQ_neg (x : Q) : x < 0 -> roundQ x = - round_pos (- x).
Proof.
  intros H. unfold roundQ.
  assert (C : (x ?= 0) = Lt) by (apply Qlt_alt; exact H).
  rewrite C. reflexivity.
Qed.

Lemma roundQ_zero (x : Q) : x == 0 -> roundQ x = 0.
Proof.
  intros H. unfold roundQ.
  assert (C : (x ?= 0) = Eq) by (apply Qeq_alt; exact H).
  rewrite C. reflexivity.
Qed.

Lemma Q_sign (x : Q) : {x < 0} + {x == 0} + {0 < x}.
Proof.
  destruct (Q_dec x 0) as [[H|H]|H]; auto.
Qed.

Lemma opp_pos (x : Q) : x < 0 -> 0 < - x.
Proof. destruct x as [n d]. unfold Qlt. cbn. lia. Qed.

Lemma opp_neg (x : Q) : 0 < x -> - x < 0.
Proof. destruct x as [n d]. unfold Qlt. cbn. lia. Qed.

#[global] Instance roundQ_comp : Proper (Qeq ==> Qeq) roundQ.
Proof.
  intros x y E. destruct (Q_sign x) as [[H|H]|H].
  - rewrite (roundQ_neg x H), (roundQ_neg y) by (rewrite <- E; exact H).
    apply Qopp_comp. apply round_pos_comp; [apply opp_pos, H | rewrite E; reflexivity].
  - rewrite (roundQ_zero x H), (roundQ_zero y) by (rewrite <- E; exact H).
    reflexivity.
  - rewrite (roundQ_pos x H), (roundQ_pos y) by (rewrite <- E; exact H).
    apply round_pos_comp; assumption.
Qed.

Lemma roundQ_opp (x : Q) : roundQ (- x) == - roundQ x.
Proof.
  destruct (Q_sign x) as [[H|H]|H].
  - rewrite (roundQ_neg x H), (roundQ_pos (- x)) by (apply opp_pos, H). ring.
  - rewrite (roundQ_zero x H), (roundQ_zero (- x)) by (rewrite H; reflexivity).
    reflexivity.
  - rewrite (roundQ_pos x H), (roundQ_neg (- x)) by (apply opp_neg, H).
    apply Qopp_comp. apply round_pos_comp; [|ring].
    apply opp_pos, opp_neg, H.
Qed.

Lemma roundQ_idem (x : Q) : roundQ (roundQ x) == roundQ x.
Proof.
  destruct (Q_sign x) as [[H|H]|H].
  - rewrite (roundQ_neg x H), roundQ_opp.
    pose proof (round_pos_pos _ (opp_pos x H)) as Hp.
    rewrite (roundQ_pos _ Hp). apply Qopp_comp, round_pos_idem, opp_pos, H.
  - rewrite (roundQ_zero x H). reflexivity.
  - rewrite (roundQ_pos x H).
    rewrite (roundQ_pos _ (round_pos_pos x H)). apply round_pos_idem, H.
Qed.

Lemma roundQ_scale (x : Q) (k : Z) : roundQ (x * pow2 k) == roundQ x * pow2 k.
Proof.
  pose proof (pow2_pos k) as Hk.
  destruct (Q_sign x) as [[H|H]|H].
  - assert (Hs : x * pow2 k < 0).
    { setoid_replace 0 with (0 * pow2 k) by ring.
      apply Qmult_lt_compat_r; assumption. }
    rewrite (roundQ_neg x H), (roundQ_neg _ Hs).
    assert (E : - (x * pow2 k) == (- x) * pow2 k) by ring.
    rewrite (round_pos_comp _ _ (opp_pos _ Hs) E).
    rewrite (round_pos_scale _ k (opp_pos x H)). ring.
  - rewrite (roundQ_zero x H), (roundQ_zero (x * pow2 k)) by (rewrite H; ring).
    ring.
  - assert (Hs : 0 < x * pow2 k) by (apply Qmult_lt_0_compat; assumption).
    rewrite (roundQ_pos x H), (roundQ_pos _ Hs). apply round_pos_scale, H.
Qed.

Lemma roundQ_Z (z : Z) :
  (Z.abs z <= 2 ^ 53)%Z -> roundQ (inject_Z z) == inject_Z z.
Proof.
  intros Hz. destruct (Z.lt_trichotomy z 0) as [H|[->|H]].
  - assert (Hq : inject_Z z < 0) by (change 0 with (inject_Z 0); rewrite <- Zlt_Qlt; exact H).
    rewrite (roundQ_neg _ Hq).
    assert (E : - inject_Z z == inject_Z (- z)) by (rewrite inject_Z_opp; reflexivity).
    rewrite (round_pos_comp _ _ (opp_pos _ Hq) E).
    rewrite round_pos_Z by lia. rewrite inject_Z_opp. ring.
  - reflexivity.
  - assert (Hq : 0 < inject_Z z) by (change 0 with (inject_Z 0); rewrite <- Zlt_Qlt; exact H).
    rewrite (roundQ_pos _ Hq). apply round_pos_Z. lia.
Qed.


End Rationals.

(** *** Doubles *)

Lemma round_Q2Qc (q : Q) : round (Q2Qc q) = Q2Qc (roundQ q).
Proof.
  unfold round. apply Qc_is_canon. unfold Q2Qc, this.
  rewrite !Qred_correct. reflexivity.
Qed.

Lemma round_idem (x : Qc) : round (round x) = round x.
Proof.
  unfold round. apply Qc_is_canon.
  unfold Q2Qc, this. rewrite !Qred_correct. apply roundQ_idem.
Qed.

Lemma ofNum_idem (a : num) : ofNum (ofNum a) = ofNum a.
Proof. destruct a as [|x]; [reflexivity|]. cbn [ofNum]. f_equal. apply round_idem. Qed.

(** A whole number of at most 53 bits is a double. *)
Lemma ofNum_ofZ (z : Z) : Z.abs z <= 2 ^ 53 -> ofNum (ofZ z) = ofZ z.
Proof.
  intros Hz. unfold ofNum, ofZ. f_equal. rewrite round_Q2Qc.
  apply Qc_is_canon. unfold Q2Qc, this. rewrite !Qred_correct.
  apply roundQ_Z. exact Hz.
Qed.

Lemma representable_zero : representable (ofZ 0).
Proof. apply ofNum_ofZ. cbn. lia. Qed.


Lemma representable_add (a b : num) : representable (add a b).
Proof. apply ofNum_idem. Qed.

Lemma representable_Number (v : value) : representable (Double.Number v).
Proof. apply ofNum_idem. Qed.

Lemma representable_or_else (a : num) :
  representable a -> representable (Num.or_else a (ofZ 0)).
Proof.
  intros H. unfold Num.or_else. destruct (Num.truthy a);
    [exact H | apply representable_zero].
Qed.

Lemma representable_fold (l : list num) (a : num) :
  representable a -> representable (fold_left add l a).
Proof.
  revert a. induction l as [|x l IH]; intros a Ha; cbn [fold_left];
    [exact Ha | apply IH, representable_add].
Qed.

Lemma representable_sum (l : list num) : representable (Double.sum l).
Proof. apply representable_fold, representable_zero. Qed.



(** Whole numbers add exactly while the sum has at most 53 bits. *)
Lemma double_add_ofZ (a b : Z) :
  Z.abs (a + b) <= 2 ^ 53 -> add (ofZ a) (ofZ b) = ofZ (a + b).
Proof.
  intros H. unfold add. rewrite NumFacts.add_ofZ. apply ofNum_ofZ, H.
Qed.

(** Halving a double does not round: only the exponent changes. *)
Lemma round_half (x : Qc) :
  round x = x -> round (x / Q2Qc (inject_Z 2))%Qc = (x / Q2Qc (inject_Z 2))%Qc.
Proof.
  intros Hx. unfold round. apply Qc_is_canon.
  assert (E : this (x / Q2Qc (inject_Z 2))%Qc == (this x * pow2 (-1))%Q).
  { unfold Qcdiv, Qcmult, Qcinv, Q2Qc, this. rewrite !Qred_correct.
    destruct x as [q Hq]. cbn [this]. unfold pow2. cbn [Qpower Qpower_positive Z.opp].
    reflexivity. }
  unfold Q2Qc at 1. cbn [this]. rewrite !Qred_correct.
  rewrite (roundQ_comp _ _ E), roundQ_scale, E.
  apply (f_equal this) in Hx. unfold round, Q2Qc in Hx. cbn [this] in Hx.
  rewrite <- Hx at 2. rewrite !Qred_correct. reflexivity.
Qed.

Lemma div_two (a : num) :
  representable a -> Double.div a (ofZ 2) = Num.div a (ofZ 2).
Proof.
  destruct a as [|x]; [reflexivity|]. unfold representable. cbn [ofNum].
  intros H. injection H as H. unfold Double.div, Num.div, ofZ.
  replace (Qc_eqb (Q2Qc (inject_Z 2)) 0%Qc) with false by reflexivity.
  cbn [ofNum]. f_equal. apply round_half, H.
Qed.

(** The two halves of a double add up to it. *)
Lemma double_halves (a : num) :
  representable a ->
  isNumber a = true ->
  add (Double.div a (ofZ 2)) (Double.div a (ofZ 2)) = a.
Proof.
  intros Ha Hn. rewrite (div_two a Ha).
  destruct a as [|x]; [discriminate Hn|].
  unfold add. rewrite NumFacts.halves. exact Ha.
Qed.

(** *** Sums of whole numbers *)

Lemma magnitude_nonneg (zs : list Z) : 0 <= magnitude zs.
Proof.
  unfold magnitude, sumZ. induction zs as [|z zs IH]; cbn [map fold_right]; lia.
Qed.

Lemma total_le_magnitude (zs : list Z) : Z.abs (sumZ zs) <= magnitude zs.
Proof.
  unfold magnitude, sumZ. induction zs as [|z zs IH]; cbn [map fold_right]; lia.
Qed.

Lemma fold_add_exact (zs : list Z) :
  forall acc : Z,
    Z.abs acc + magnitude zs <= 2 ^ 53 ->
    fold_left add (map ofZ zs) (ofZ acc) = ofZ (acc + sumZ zs).
Proof.
  induction zs as [|z zs IH]; intros acc H; cbn [map fold_left].
  - unfold sumZ. cbn [fold_right]. f_equal. lia.
  - unfold magnitude, sumZ in H. cbn [map fold_right] in H.
    fold (sumZ (map Z.abs zs)) in H. fold (magnitude zs) in H.
    pose proof (magnitude_nonneg zs).
    rewrite double_add_ofZ by lia. rewrite IH by lia.
    unfold sumZ. cbn [fold_right]. f_equal. lia.
Qed.

(** A sum of doubles over whole amounts is the whole sum. *)
Lemma sum_exact {A} (f : A -> num) (amount : A -> Z) (l : list A) :
  (forall x, In x l -> f x = ofZ (amount x)) ->
  magnitude (map amount l) <= 2 ^ 53 ->
  Double.sum (map f l) = ofZ (sumZ (map amount l)).
Proof.
  intros Hf Hm. unfold Double.sum.
  assert (E : map f l = map ofZ (map amount l)).
  { rewrite map_map. apply map_ext_in. exact Hf. }
  rewrite E. rewrite (fold_add_exact _ 0) by (cbn; lia). reflexivity.
Qed.

Lemma double_fold_add_map {A} (f : A -> num) (l : list A) (a : num) :
  fold_left (fun sum item => add sum (f item)) l a
  = fold_left add (map f l) a.
Proof.
  revert a. induction l as [|x l IH]; intros a; cbn [fold_left map];
    [reflexivity | apply IH].
Qed.

Lemma isNumber_add (a b : num) :
  isNumber a = true -> isNumber b = true -> isNumber (add a b) = true.
Proof. destruct a, b; try discriminate. reflexivity. Qed.

Lemma isNumber_fold (l : list num) (a : num) :
  isNumber a = true -> (forall x, In x l -> isNumber x = true) ->
  isNumber (fold_left add l a) = true.
Proof.
  revert a. induction l as [|x l IH]; intros a Ha Hl; cbn [fold_left];
    [exact Ha|].
  apply IH.
  - apply isNumber_add; [exact Ha | apply Hl; left; reflexivity].
  - intros y Hy. apply Hl. right. exact Hy.
Qed.

Lemma isNumber_sum (l : list num) :
  (forall x, In x l -> isNumber x = true) -> isNumber (Double.sum l) = true.
Proof. apply isNumber_fold. reflexivity. Qed.

(** *** The rounding at work *)

Example sum_of_tenths :
  add (Double.Number (VStr "0.1")) (Double.Number (VStr "0.2"))
  = Double.Number (VStr "0.30000000000000004")
  /\ Num.strict_eq (Double.Number (VStr "0.30000000000000004"))
       (Double.Number (VStr "0.3")) = false.
Proof. split; vm_compute; reflexivity. Qed.

Example ties_to_even :
  add (ofZ (2 ^ 53)) (ofZ 1) = ofZ (2 ^ 53)
  /\ add (ofZ (2 ^ 53 + 2)) (ofZ 1) = ofZ (2 ^ 53 + 4).
Proof. split; vm_compute; reflexivity. Qed.

End DoubleFacts.

(** ** Ageing analysis *)

Module AgeingFacts.
Import NumFacts DoubleFacts.

Lemma diffDays_valid (now due : Z) :
  diffDays (ValidDate now) (ValidDate due) = ofZ ((now - due) / day_ms).
Proof.
  unfold diffDays, getTime, msPerDay, day_ms.
  apply floor_div_ofZ. reflexivity.
Qed.

(** The callback credits the bucket that the thresholds name, and nothing
    else. *)
Lemma ageingStep_credit (now : Z) (r : Ageing) (t : Transaction.t) :
  ageingStep (ValidDate now) r t =
  match bucket_at now t with
  | None => r
  | Some b => credit b (balanceDueOf t) r
  end.
Proof.
  unfold ageingStep, bucket_at, balanceDueOf.
  destruct (Transaction.dueDate t) as [[due|]|]; [| reflexivity | reflexivity].
  rewrite diffDays_valid, !le_ofZ. unfold bucket_of_days.
  destruct (_ <=? 0); [reflexivity|].
  destruct (_ <=? 30); [reflexivity|].
  destruct (_ <=? 60); reflexivity.
Qed.

Lemma bucket_credit_same (b : Bucket) (x : num) (r : Ageing) :
  bucket b (credit b x r) = Double.add (bucket b r) x.
Proof. destruct b; reflexivity. Qed.

Lemma bucket_credit_other (b b' : Bucket) (x : num) (r : Ageing) :
  b' <> b -> bucket b' (credit b x r) = bucket b' r.
Proof. destruct b, b'; intros H; try reflexivity; contradiction H; reflexivity. Qed.

Lemma Bucket_eq_dec (b b' : Bucket) : {b = b'} + {b <> b'}.
Proof. decide equality. Qed.

Lemma in_bucket_iff (now : Z) (b : Bucket) (t : Transaction.t) :
  in_bucket now b t = true <-> bucket_at now t = Some b.
Proof.
  unfold in_bucket. destruct (bucket_at now t) as [[]|], b; split; intros H;
    try reflexivity; discriminate H.
Qed.

(** Each bucket runs through the balances of the transactions placed in it,
    in the order of the list, starting from what it held. *)
Lemma bucket_fold (now : Z) (b : Bucket) (l : list Transaction.t) :
  forall r : Ageing,
    bucket b (fold_left (ageingStep (ValidDate now)) l r)
    = fold_left Double.add (map balanceDueOf (filter (in_bucket now b) l))
        (bucket b r).
Proof.
  induction l as [|t l IH]; intros r; cbn [fold_left filter]; [reflexivity|].
  rewrite IH, ageingStep_credit.
  destruct (in_bucket now b t) eqn:E.
  - apply in_bucket_iff in E. rewrite E. cbn [map fold_left].
    rewrite bucket_credit_same. reflexivity.
  - destruct (bucket_at now t) as [b'|] eqn:E'; [|reflexivity].
    rewrite bucket_credit_other; [reflexivity|].
    intros ->. apply in_bucket_iff in E'. rewrite E' in E. discriminate E.
Qed.

Lemma values_app {V} (m1 m2 : list (Z * V)) :
  JsMap.values (m1 ++ m2) = JsMap.values m1 ++ JsMap.values m2.
Proof. apply map_app. Qed.

Lemma ageingOf_run (type : string) (userId : Z) (w : World) :
  ageingOf type userId w =
  (Ok (fold_left (ageingStep (ValidDate (clock w)))
         (filter (isOpen userId type) (JsMap.values (transactions (storage w))))
         emptyAgeing), w).
Proof. destruct w as [s c]. reflexivity. Qed.

(** A report, bucket by bucket. *)
Lemma ageingOf_buckets (type : string) (userId : Z) (w : World) :
  exists result : Ageing,
    ageingOf type userId w = (Ok result, w) /\
    forall b,
      bucket b result
      = Double.sum
          (map balanceDueOf
             (filter (in_bucket (clock w) b)
                (filter (isOpen userId type)
                   (JsMap.values (transactions (storage w)))))).
Proof.
  eexists. split; [apply ageingOf_run|].
  intros b. rewrite bucket_fold. destruct b; reflexivity.
Qed.

Lemma isOpen_eligible (userId : Z) (type : string) (t : Transaction.t) :
  isOpen userId type t = true <-> eligible userId type t.
Proof.
  unfold isOpen, eligible, isOpenStatus.
  rewrite !andb_true_iff, Z.eqb_eq, String.eqb_eq, existsb_exists. split.
  - intros [[H1 H2] [s [Hs E]]]. apply String.eqb_eq in E. subst s. auto.
  - intros [H1 [H2 H3]]. split; [auto|].
    exists (Transaction.status t). split; [exact H3 | apply String.eqb_refl].
Qed.

Lemma placement (now : Z) (t : Transaction.t) :
  bucket_at now t
  = match Transaction.dueDate t with
    | None => None
    | Some (ValidDate due) => Some (bucket_of_days ((now - due) / day_ms))
    | Some InvalidDate => Some Days60plus
    end.
Proof. reflexivity. Qed.

(** A transaction with a due date is placed in one bucket, one without in
    none. *)
Lemma placed_once (now : Z) (t : Transaction.t) :
  match Transaction.dueDate t with
  | None => forall b, in_bucket now b t = false
  | Some _ => exists b, forall b', in_bucket now b' t = true <-> b' = b
  end.
Proof.
  destruct (Transaction.dueDate t) as [d|] eqn:E.
  - assert (H : exists b, bucket_at now t = Some b).
    { unfold bucket_at. rewrite E. destruct d; eexists; reflexivity. }
    destruct H as [b Hb]. exists b. intros b'. rewrite in_bucket_iff, Hb.
    split; [intros H; injection H as <-; reflexivity | intros ->; reflexivity].
  - intros b. unfold in_bucket, bucket_at. rewrite E. reflexivity.
Qed.

Lemma bucket_of_days_thresholds (d : Z) :
  (d <= 0 -> bucket_of_days d = Current) /\
  (1 <= d <= 30 -> bucket_of_days d = Days1to30) /\
  (31 <= d <= 60 -> bucket_of_days d = Days31to60) /\
  (60 < d -> bucket_of_days d = Days60plus).
Proof.
  unfold bucket_of_days.
  destruct (Z.leb_spec d 0), (Z.leb_spec d 30), (Z.leb_spec d 60);
    repeat split; intros; try reflexivity; lia.
Qed.

Lemma placed_count (now : Z) (t : Transaction.t) (x : Z) :
  (if in_bucket now Current t then x else 0)
  + (if in_bucket now Days1to30 t then x else 0)
  + (if in_bucket now Days31to60 t then x else 0)
  + (if in_bucket now Days60plus t then x else 0)
  = if hasDueDate t then x else 0.
Proof.
  unfold in_bucket, hasDueDate, bucket_at.
  destruct (Transaction.dueDate t) as [[due|]|];
    [destruct (bucket_of_days ((now - due) / day_ms))| |]; lia.
Qed.

Lemma sumZ_filter_cons {A} (g : A -> Z) (p : A -> bool) (x : A) (l : list A) :
  sumZ (map g (filter p (x :: l)))
  = (if p x then g x else 0) + sumZ (map g (filter p l)).
Proof. cbn [filter]. destruct (p x); reflexivity. Qed.

(** The four buckets split any whole measure of the dated transactions. *)
Lemma total_by_bucket (now : Z) (g : Transaction.t -> Z)
    (l : list Transaction.t) :
  sumZ (map g (filter (in_bucket now Current) l))
  + sumZ (map g (filter (in_bucket now Days1to30) l))
  + sumZ (map g (filter (in_bucket now Days31to60) l))
  + sumZ (map g (filter (in_bucket now Days60plus) l))
  = sumZ (map g (filter hasDueDate l)).
Proof.
  induction l as [|t l IH]; [reflexivity|].
  rewrite !sumZ_filter_cons. pose proof (placed_count now t (g t)). lia.
Qed.

Lemma placed_has_due_date (now : Z) (b : Bucket) (t : Transaction.t) :
  in_bucket now b t = true -> hasDueDate t = true.
Proof.
  unfold in_bucket, bucket_at, hasDueDate.
  destruct (Transaction.dueDate t); [reflexivity | destruct b; discriminate].
Qed.

(** With whole balances within 53 bits the four buckets add up exactly. *)
Lemma total_of_exact (now : Z) (amount : Transaction.t -> Z)
    (l : list Transaction.t) (r : Ageing) :
  (forall b, bucket b r
             = Double.sum (map balanceDueOf (filter (in_bucket now b) l))) ->
  (forall t, In t (filter hasDueDate l) -> balanceDueOf t = ofZ (amount t)) ->
  magnitude (map amount (filter hasDueDate l)) <= 2 ^ 53 ->
  total_of r = Double.sum (map balanceDueOf (filter hasDueDate l)).
Proof.
  intros Hb Hamount Hm.
  pose proof (total_by_bucket now amount l) as Ht.
  pose proof (total_by_bucket now (fun t => Z.abs (amount t)) l) as Ha.
  assert (Emag : forall p,
             sumZ (map (fun t => Z.abs (amount t)) (filter p l))
             = magnitude (map amount (filter p l))).
  { intros p. unfold magnitude. rewrite map_map. reflexivity. }
  rewrite !Emag in Ha.
  pose proof (magnitude_nonneg (map amount (filter (in_bucket now Current) l))).
  pose proof (magnitude_nonneg (map amount (filter (in_bucket now Days1to30) l))).
  pose proof (magnitude_nonneg (map amount (filter (in_bucket now Days31to60) l))).
  pose proof (magnitude_nonneg (map amount (filter (in_bucket now Days60plus) l))).
  pose proof (total_le_magnitude (map amount (filter (in_bucket now Current) l))).
  pose proof (total_le_magnitude (map amount (filter (in_bucket now Days1to30) l))).
  pose proof (total_le_magnitude (map amount (filter (in_bucket now Days31to60) l))).
  pose proof (total_le_magnitude (map amount (filter (in_bucket now Days60plus) l))).
  assert (Hbucket : forall b,
             bucket b r = ofZ (sumZ (map amount (filter (in_bucket now b) l)))).
  { intros b. rewrite Hb. apply sum_exact.
    - intros t Ht'. apply filter_In in Ht'. destruct Ht' as [Hin Hp].
      apply Hamount. apply filter_In. split; [exact Hin|].
      exact (placed_has_due_date now b t Hp).
    - destruct b; lia. }
  pose proof (Hbucket Current) as B0. pose proof (Hbucket Days1to30) as B1.
  pose proof (Hbucket Days31to60) as B2. pose proof (Hbucket Days60plus) as B3.
  cbn [bucket] in B0, B1, B2, B3.
  unfold total_of. rewrite B0, B1, B2, B3.
  rewrite !double_add_ofZ by lia.
  rewrite (sum_exact balanceDueOf amount _ Hamount Hm).
  f_equal. exact Ht.
Qed.

End AgeingFacts.

Section AgeingClaims.
Import NumFacts DoubleFacts AgeingFacts.

(** C3. The receivables report leaves the world as it is and runs over the
    transactions of the user that are sales invoices with status pending,
    overdue or partially paid.  Its callback adds the balance
    [Number(balanceDue || 0)] of a transaction with a due date to one bucket
    and leaves the other three as they were, and skips a transaction without
    a due date; so every bucket of the report is the sum, in store order, of
    the balances of the transactions placed in it, and a transaction is
    placed in exactly one bucket if it has a due date and in none if it has
    not.  When the due date has the time value [due], the day difference is
    [floor((now - due) / 86400000)], which is not positive for a due date in
    the future, and the bucket is [current] for a difference of at most 0,
    [days1to30] from 1 to 30, [days31to60] from 31 to 60 and [days60plus]
    above 60. *)
Theorem C3_ageing_bucket_of_transaction (userId : Z) (w : World) :
  let now := clock w in
  exists result : Ageing,
    getReceivablesAgeing userId w = (Ok result, w) /\
    (forall t, isOpen userId "sales_invoice" t = true
               <-> eligible userId "sales_invoice" t) /\
    (forall b,
       bucket b result
       = Double.sum
           (map balanceDueOf
              (filter (in_bucket now b)
                 (filter (isOpen userId "sales_invoice")
                    (JsMap.values (transactions (storage w))))))) /\
    (forall (running : Ageing) (t : Transaction.t),
       match Transaction.dueDate t with
       | None =>
           ageingStep (ValidDate now) running t = running /\
           forall b, in_bucket now b t = false
       | Some dueDate =>
           exists b : Bucket,
             bucket b (ageingStep (ValidDate now) running t)
             = Double.add (bucket b running) (balanceDueOf t) /\
             (forall b', b' <> b ->
                bucket b' (ageingStep (ValidDate now) running t)
                = bucket b' running) /\
             (forall b', in_bucket now b' t = true <-> b' = b) /\
             forall due : Z, dueDate = ValidDate due ->
               let d := (now - due) / day_ms in
               diffDays (ValidDate now) dueDate = ofZ d /\
               (now < due -> d <= 0) /\
               (d <= 0 -> b = Current) /\
               (1 <= d <= 30 -> b = Days1to30) /\
               (31 <= d <= 60 -> b = Days31to60) /\
               (60 < d -> b = Days60plus)
       end).
Proof.
  intros now.
  destruct (ageingOf_buckets "sales_invoice" userId w) as [result [Hrun Hb]].
  exists result. split; [exact Hrun|].
  split; [intros t; apply isOpen_eligible|].
  split; [exact Hb|].
  intros running t. rewrite ageingStep_credit.
  pose proof (placement now t) as Hp.
  destruct (Transaction.dueDate t) as [dueDate|] eqn:Edue.
  - rewrite Hp.
    set (b := match dueDate with
              | ValidDate due => bucket_of_days ((now - due) / day_ms)
              | InvalidDate => Days60plus
              end).
    assert (Hb' : bucket_at now t = Some b) by (rewrite Hp; destruct dueDate; reflexivity).
    exists b.
    split; [destruct dueDate; apply bucket_credit_same|].
    split; [intros b' Hne; destruct dueDate; apply bucket_credit_other; exact Hne|].
    split.
    { intros b'. rewrite in_bucket_iff, Hb'. split.
      - intros H. injection H as <-. reflexivity.
      - intros ->. reflexivity. }
    intros due E d. subst dueDate d. cbn in b. subst b.
    split; [apply diffDays_valid|].
    split.
    + intros Hlt. apply Z.lt_le_incl. apply Z.div_lt_upper_bound.
      * reflexivity.
      * unfold day_ms. lia.
    + apply bucket_of_days_thresholds.
  - rewrite Hp. split; [reflexivity|].
    intros b. destruct (in_bucket now b t) eqn:E; [|reflexivity].
    apply in_bucket_iff in E. congruence.
Qed.

(** C6, as stated, fails for balances with paise, because a sum of doubles
    depends on the order of the additions.  Of the three open invoices of
    [fractional_world] the first is not yet due and the other two are less
    than thirty days overdue: [current] is 47250.35, [days1to30] is
    18750.40 + 28600.20 = 47350.600000000006, and the four buckets add up
    to 94600.95000000001, while the three balances, added in store order,
    give 94600.95. *)
Lemma C6_counterexample_fractional_balances :
  exists receivables : Ageing,
    getReceivablesAgeing 1 fractional_world = (Ok receivables, fractional_world) /\
    map balanceDueOf
      (filter hasDueDate
         (filter (isOpen 1 "sales_invoice")
            (JsMap.values (transactions (storage fractional_world)))))
    = [Double.Number (VStr "47250.35"); Double.Number (VStr "18750.40");
       Double.Number (VStr "28600.20")] /\
    current receivables = Double.Number (VStr "47250.35") /\
    days1to30 receivables = Double.Number (VStr "47350.600000000006") /\
    days31to60 receivables = ofZ 0 /\
    days60plus receivables = ofZ 0 /\
    total_of receivables = Double.Number (VStr "94600.95000000001") /\
    Double.sum
      (map balanceDueOf
         (filter hasDueDate
            (filter (isOpen 1 "sales_invoice")
               (JsMap.values (transactions (storage fractional_world))))))
    = Double.Number (VStr "94600.95") /\
    Num.strict_eq (Double.Number (VStr "94600.95000000001"))
      (Double.Number (VStr "94600.95")) = false.
Proof.
  eexists. split; [apply ageingOf_run|].
  repeat split; vm_compute; reflexivity.
Qed.

(** C6, amended.  Both reports leave the world as it is and run over the
    transactions of the user and type with status pending, overdue or
    partially paid.  The four buckets partition those of them that have a
    due date: each is placed in exactly one bucket, and each bucket is the
    sum, in store order, of the balances [Number(balanceDue || 0)] of the
    transactions placed in it.  When those balances are whole numbers whose
    absolute values add up to at most [2^53], no addition rounds, and the
    four buckets add up to the sum of the balances. *)
Theorem C6_ageing_buckets_partition (userId : Z) (w : World) :
  let now := clock w in
  let open type :=
    filter (isOpen userId type) (JsMap.values (transactions (storage w))) in
  exists receivables payables : Ageing,
    getReceivablesAgeing userId w = (Ok receivables, w) /\
    getPayablesAgeing userId w = (Ok payables, w) /\
    (forall type t, isOpen userId type t = true <-> eligible userId type t) /\
    (forall b, bucket b receivables
               = Double.sum
                   (map balanceDueOf
                      (filter (in_bucket now b) (open "sales_invoice"%string)))) /\
    (forall b, bucket b payables
               = Double.sum
                   (map balanceDueOf
                      (filter (in_bucket now b) (open "purchase_bill"%string)))) /\
    (forall t, if hasDueDate t
               then exists b, forall b', in_bucket now b' t = true <-> b' = b
               else forall b', in_bucket now b' t = false) /\
    (forall amount : Transaction.t -> Z,
       (forall t, In t (filter hasDueDate (open "sales_invoice"%string)) ->
                  balanceDueOf t = ofZ (amount t)) ->
       magnitude (map amount (filter hasDueDate (open "sales_invoice"%string)))
       <= 2 ^ 53 ->
       total_of receivables
       = Double.sum
           (map balanceDueOf (filter hasDueDate (open "sales_invoice"%string)))) /\
    (forall amount : Transaction.t -> Z,
       (forall t, In t (filter hasDueDate (open "purchase_bill"%string)) ->
                  balanceDueOf t = ofZ (amount t)) ->
       magnitude (map amount (filter hasDueDate (open "purchase_bill"%string)))
       <= 2 ^ 53 ->
       total_of payables
       = Double.sum
           (map balanceDueOf (filter hasDueDate (open "purchase_bill"%string)))).
Proof.
  intros now open.
  destruct (ageingOf_buckets "sales_invoice" userId w) as [receivables [Hr Hrb]].
  destruct (ageingOf_buckets "purchase_bill" userId w) as [payables [Hp Hpb]].
  exists receivables, payables.
  split; [exact Hr|]. split; [exact Hp|].
  split; [intros type t; apply isOpen_eligible|].
  split; [exact Hrb|]. split; [exact Hpb|].
  split; [|split].
  - intros t. pose proof (placed_once now t) as H. unfold hasDueDate.
    destruct (Transaction.dueDate t); exact H.
  - intros amount Hamount Hm.
    exact (total_of_exact now amount _ receivables Hrb Hamount Hm).
  - intros amount Hamount Hm.
    exact (total_of_exact now amount _ payables Hpb Hamount Hm).
Qed.

(** The invoice of the sample store carries the whole amount 47250: seen 45
    days after its due date, the buckets add up to it. *)
Example whole_balances_add_up :
  exists receivables : Ageing,
    getReceivablesAgeing 1
      (mkWorld (mkMemStorage [(1, sample_invoice)] [] 2 1) (20045 * day_ms))
    = (Ok receivables,
       mkWorld (mkMemStorage [(1, sample_invoice)] [] 2 1) (20045 * day_ms)) /\
    bucket Days31to60 receivables = ofZ 47250 /\
    total_of receivables = ofZ 47250.
Proof.
  eexists. split; [apply ageingOf_run|].
  split; vm_compute; reflexivity.
Qed.

End AgeingClaims.

(** ** GST breakup *)

Module GstFacts.
Import NumFacts DoubleFacts.




Lemma filter_all {A} (f : A -> bool) (l : list A) :
  (forall x, In x l -> f x = true) -> filter f l = l.
Proof.
  induction l as [|x l IH]; intros H; cbn [filter]; [reflexivity|].
  rewrite (H x (or_introl eq_refl)). f_equal. apply IH.
  intros y Hy. apply H. right. exact Hy.
Qed.





Lemma calculateGstBreakup_groups (party : option Party.t)
    (items : list TransactionItem.t) :
  calculateGstBreakup party (Some items)
  = Some (map (group_of party items) (dedupe (map rateOf items))).
Proof.
  unfold calculateGstBreakup. f_equal. apply map_ext. intros r.
  unfold group_of, Double.sum.
  rewrite <- (double_fold_add_map amountOf), <- !(double_fold_add_map taxOf).
  reflexivity.
Qed.

Lemma is_string_iff (v : value) (s : string) :
  is_string v s = true <-> v = VStr s.
Proof.
  destruct v as [| |s'|n]; cbn [is_string];
    try (split; intros H; discriminate H).
  rewrite String.eqb_eq. split; [intros -> | intros H; injection H as ->];
    reflexivity.
Qed.

Lemma isNumber_or_else (a : num) : isNumber (Num.or_else a (ofZ 0)) = true.
Proof. destruct (or_else_zero_finite a) as [q ->]. reflexivity. Qed.

(** The tax of a group is a double and not [NaN]. *)
Lemma group_tax (l : list TransactionItem.t) :
  Double.representable (Double.sum (map taxOf l))
  /\ isNumber (Double.sum (map taxOf l)) = true.
Proof.
  split; [apply representable_sum|]. apply isNumber_sum.
  intros x Hx. apply in_map_iff in Hx. destruct Hx as [i [<- _]].
  apply isNumber_or_else.
Qed.

(** What a group holds, by the state of the party. *)
Lemma group_jurisdiction (party : option Party.t)
    (items : list TransactionItem.t) (r : num) :
  let g := group_of party items r in
  let groupTax :=
    Double.sum (map taxOf (filter (fun i => Num.strict_eq (rateOf i) r) items)) in
  rate g = r /\
  total g = groupTax /\
  if is_string (party_state party) "Same State as User"
  then igst g = ofZ 0 /\ cgst g = Double.div groupTax (ofZ 2)
       /\ sgst g = Double.div groupTax (ofZ 2)
       /\ Double.add (cgst g) (sgst g) = groupTax
  else igst g = groupTax /\ cgst g = ofZ 0 /\ sgst g = ofZ 0.
Proof.
  intros g groupTax. unfold g, group_of. cbn [rate total igst cgst sgst].
  fold groupTax.
  split; [reflexivity|]. split; [reflexivity|].
  destruct (is_string (party_state party) "Same State as User");
    cbn [negb]; repeat split; try reflexivity.
  destruct (group_tax (filter (fun i => Num.strict_eq (rateOf i) r) items))
    as [Hrep Hnum].
  apply double_halves; assumption.
Qed.

End GstFacts.

Section GstClaims.
Import NumFacts DoubleFacts GstFacts.

(** C2. Every group of the breakup carries the tax of the items of its rate
    as [total].  If no party is found, or if the state of the party is not
    the string "Same State as User", the whole of it is IGST and CGST and
    SGST are 0; if the state of the party is that string, IGST is 0 and CGST
    and SGST are each half of it, and the two halves add up to it.  For one
    item with amount 45000, tax rate 5 and tax amount 2250 and a party in
    "Maharashtra" the breakup is the single group
    (5, 45000, 2250, 0, 0, 2250); so it is for the laptop of the
    demonstration data, whose columns hold the strings "45000", "5" and
    "2250", sold to the customer in Maharashtra. *)
Theorem C2_gst_jurisdiction (party : option Party.t)
    (items : list TransactionItem.t) :
  exists groups : list GstGroup,
    calculateGstBreakup party (Some items) = Some groups /\
    (forall g, In g groups ->
       let groupTax :=
         Double.sum
           (map taxOf
              (filter (fun i => Num.strict_eq (rateOf i) (rate g)) items)) in
       total g = groupTax /\
       match party with
       | None => igst g = groupTax /\ cgst g = ofZ 0 /\ sgst g = ofZ 0
       | Some p =>
           (Party.state p <> VStr "Same State as User" ->
            igst g = groupTax /\ cgst g = ofZ 0 /\ sgst g = ofZ 0) /\
           (Party.state p = VStr "Same State as User" ->
            igst g = ofZ 0 /\
            cgst g = Double.div groupTax (ofZ 2) /\
            sgst g = Double.div groupTax (ofZ 2) /\
            Double.add (cgst g) (sgst g) = groupTax)
       end) /\
    (forall (p : Party.t) (item : TransactionItem.t),
       party = Some p -> Party.state p = VStr "Maharashtra" ->
       items = [item] ->
       Double.Number (TransactionItem.amount item) = ofZ 45000 ->
       Double.Number (or_zero (TransactionItem.taxRate item)) = ofZ 5 ->
       Double.Number (TransactionItem.taxAmount item) = ofZ 2250 ->
       groups = [mkGstGroup (ofZ 5) (ofZ 45000) (ofZ 2250) (ofZ 0) (ofZ 0)
                   (ofZ 2250)]) /\
    calculateGstBreakup (Some GlobalTech) (Some [laptop_item])
    = Some [mkGstGroup (ofZ 5) (ofZ 45000) (ofZ 2250) (ofZ 0) (ofZ 0)
              (ofZ 2250)].
Proof.
  eexists. split; [apply calculateGstBreakup_groups|].
  split; [|split; [|vm_compute; reflexivity]].
  - intros g Hg. apply in_map_iff in Hg. destruct Hg as [r [<- _]].
    destruct (group_jurisdiction party items r) as [Hr [Ht Hj]].
    cbv zeta in Hr, Ht, Hj |- *. rewrite Hr. split; [exact Ht|].
    destruct party as [p|]; cbn [party_state] in Hj.
    + destruct (is_string (Party.state p) "Same State as User") eqn:E.
      * apply is_string_iff in E. split; [intros H; contradiction | intros _; exact Hj].
      * split; [intros _; exact Hj|].
        intros H. apply is_string_iff in H. congruence.
    + exact Hj.
  - intros p item -> Hstate -> Hamount Hrate Htax.
    cbn [map]. unfold dedupe. cbn [fold_left existsb app map].
    unfold group_of. cbn [filter]. unfold rateOf. rewrite Hrate.
    replace (Num.strict_eq (ofZ 5) (ofZ 5)) with true by reflexivity.
    cbn [map party_state]. unfold amountOf, taxOf. rewrite Hamount, Htax, Hstate.
    replace (Num.or_else (ofZ 45000) (ofZ 0)) with (ofZ 45000) by reflexivity.
    replace (Num.or_else (ofZ 2250) (ofZ 0)) with (ofZ 2250) by reflexivity.
    unfold Double.sum. cbn [fold_left is_string String.eqb Ascii.eqb negb].
    rewrite !double_add_ofZ by (cbn; lia). reflexivity.
Qed.

(** A tax rate that does not read as a number makes a group of its own, of
    rate [NaN], and that group is empty: no rate is [===] to [NaN]. *)
Remark nan_rate_group_is_empty (party : option Party.t)
    (items : list TransactionItem.t) :
  taxableAmount (group_of party items NaN) = ofZ 0 /\
  total (group_of party items NaN) = ofZ 0.
Proof.
  unfold group_of. cbn [taxableAmount total].
  assert (E : filter (fun i => Num.strict_eq (rateOf i) NaN) items = []).
  { induction items as [|i rest IH]; cbn [filter]; [reflexivity|].
    destruct (rateOf i); exact IH. }
  rewrite E. split; reflexivity.
Qed.

(** The laptop of the demonstration data, sold to the customer in
    Maharashtra and to a customer in the state of the user: the decimal
    columns hold strings. *)
Example gst_breakup_laptop :
  calculateGstBreakup (findParty (Some [GlobalTech; LocalTraders]) 1)
    (Some [laptop_item])
  = Some [mkGstGroup (ofZ 5) (ofZ 45000) (ofZ 2250) (ofZ 0) (ofZ 0) (ofZ 2250)]
  /\ calculateGstBreakup (findParty (Some [GlobalTech; LocalTraders]) 2)
       (Some [laptop_item])
     = Some [mkGstGroup (ofZ 5) (ofZ 45000) (ofZ 0) (ofZ 1125) (ofZ 1125)
               (ofZ 2250)].
Proof.
  split; vm_compute; reflexivity.
Qed.




End GstClaims.

(** ** Status badge *)

Section StatusClaims.
Import NumFacts.

Lemma number_zero_not_truthy (n : num) :
  Num.truthy n && Num.strict_eq n (ofZ 0) = false.
Proof.
  destruct n as [|x]; [reflexivity|].
  unfold Num.truthy, Num.strict_eq, ofZ.
  change (Q2Qc (inject_Z 0)) with 0%Qc.
  destruct (Qc_eqb x 0%Qc); reflexivity.
Qed.

Lemma positive_truthy (v : value) :
  Num.gt (Number v) (ofZ 0) = true -> truthy v = true.
Proof.
  destruct v as [| |s|[|x]]; cbn [Number truthy]; try discriminate.
  - destruct s; [discriminate | reflexivity].
  - unfold Num.gt, Num.truthy, ofZ, Qc_ltb. intros H.
    apply negb_true_iff. apply negb_true_iff in H.
    apply not_true_iff_false. intros E. apply Qc_eqb_eq in E. subst x.
    discriminate H.
Qed.

(** What the badge displays, and that rendering it leaves the world alone. *)
Lemma StatusBadge_run (status : string) (dueDate : option Date)
    (balanceDue : value) (w : World) :
  StatusBadge status dueDate balanceDue w
  = (Ok (code_displayStatus (clock w) status dueDate balanceDue), w).
Proof.
  unfold StatusBadge, code_displayStatus.
  assert (E1 : truthy balanceDue && Num.strict_eq (Number balanceDue) (ofZ 0)
               = nonempty_string balanceDue
                 && Num.strict_eq (Number balanceDue) (ofZ 0)).
  { destruct balanceDue as [| |s|n]; try reflexivity.
    cbn [truthy nonempty_string Number andb]. apply number_zero_not_truthy. }
  rewrite E1.
  destruct (nonempty_string balanceDue
            && Num.strict_eq (Number balanceDue) (ofZ 0)); [reflexivity|].
  destruct (Num.gt (Number balanceDue) (ofZ 0)) eqn:Hpos.
  - rewrite (positive_truthy _ Hpos). cbn [andb].
    destruct dueDate as [[due|]|]; cbn [past_by_instant]; try reflexivity.
    unfold bind, newDate. cbn [getTime]. rewrite gt_ofZ.
    destruct (due <? clock w); reflexivity.
  - rewrite andb_false_r. reflexivity.
Qed.

(** C7, as stated, fails twice.  A balance that is the number 0 is displayed
    with its stored status, not as paid.  And a balance of 18750 that was due
    at the start of the day is displayed as overdue at noon of the same day,
    although the calendar date of the due date is not in the past. *)
Lemma C7_counterexample_number_zero_and_same_day :
  (spec_displayStatus (clock sample_world) "pending" None (VNum (ofZ 0))
   = "paid"%string /\
   StatusBadge "pending" None (VNum (ofZ 0)) sample_world
   = (Ok "pending"%string, sample_world)) /\
  (calendarDay (20000 * day_ms) = calendarDay (clock sample_world) /\
   spec_displayStatus (clock sample_world) "pending"
     (Some (ValidDate (20000 * day_ms))) (VStr "18750")
   = "pending"%string /\
   StatusBadge "pending" (Some (ValidDate (20000 * day_ms))) (VStr "18750")
     sample_world
   = (Ok "overdue"%string, sample_world)).
Proof.
  repeat split; vm_compute; reflexivity.
Qed.

(** C7, amended. The badge displays "paid" whenever [balanceDue] is a
    non-empty string that reads as the number 0, whatever the stored status;
    otherwise "overdue" whenever [balanceDue] is greater than 0 and the due
    date is an instant strictly before now; otherwise the stored status. *)
Theorem C7_status_display (status : string) (dueDate : option Date)
    (balanceDue : value) (w : World) :
  exists display : string,
    StatusBadge status dueDate balanceDue w = (Ok display, w) /\
    display = code_displayStatus (clock w) status dueDate balanceDue /\
    (nonempty_string balanceDue = true ->
     Num.strict_eq (Number balanceDue) (ofZ 0) = true ->
     display = "paid"%string) /\
    (nonempty_string balanceDue && Num.strict_eq (Number balanceDue) (ofZ 0)
     = false ->
     Num.gt (Number balanceDue) (ofZ 0) = true ->
     forall due, dueDate = Some (ValidDate due) -> due < clock w ->
     display = "overdue"%string) /\
    (nonempty_string balanceDue && Num.strict_eq (Number balanceDue) (ofZ 0)
     = false ->
     Num.gt (Number balanceDue) (ofZ 0) && past_by_instant (clock w) dueDate
     = false ->
     display = status).
Proof.
  eexists. split; [apply StatusBadge_run|]. split; [reflexivity|].
  unfold code_displayStatus. split; [|split].
  - intros -> ->. reflexivity.
  - intros -> -> due -> Hlt. cbn [andb past_by_instant].
    apply Z.ltb_lt in Hlt. rewrite Hlt. reflexivity.
  - intros -> ->. reflexivity.
Qed.

(** C9. Rendering the badge returns the world it was given, so neither the
    store nor the clock is written, and the display status is a function of
    the three props and the clock alone: two worlds with the same clock give
    the same display status. *)
Theorem C9_status_display_is_pure (status : string) (dueDate : option Date)
    (balanceDue : value) (w w' : World) :
  snd (StatusBadge status dueDate balanceDue w) = w /\
  (clock w = clock w' ->
   fst (StatusBadge status dueDate balanceDue w)
   = fst (StatusBadge status dueDate balanceDue w')).
Proof.
  rewrite !StatusBadge_run. cbn [fst snd]. split; [reflexivity|].
  intros ->. reflexivity.
Qed.

End StatusClaims.

(** ** The record store *)

Module JsMapFacts.
Section WithValue.
Context {V : Type}.
Implicit Types (m : list (Z * V)) (k : Z) (v : V).

Lemma get_set_same m k v : JsMap.get k (JsMap.set k v m) = Some v.
Proof.
  induction m as [|[k' v'] m IH]; cbn [JsMap.set JsMap.get].
  - rewrite Z.eqb_refl. reflexivity.
  - destruct (Z.eqb k k') eqn:E; cbn [JsMap.get].
    + rewrite Z.eqb_refl. reflexivity.
    + rewrite E. exact IH.
Qed.

Lemma get_set_other m k k' v :
  k <> k' -> JsMap.get k (JsMap.set k' v m) = JsMap.get k m.
Proof.
  intros Hne. induction m as [|[k0 v0] m IH]; cbn [JsMap.set JsMap.get].
  - apply Z.eqb_neq in Hne. rewrite Hne. reflexivity.
  - destruct (Z.eqb k' k0) eqn:E; cbn [JsMap.get].
    + apply Z.eqb_eq in E. subst k0.
      apply Z.eqb_neq in Hne. rewrite Hne. reflexivity.
    + destruct (Z.eqb k k0); [reflexivity | exact IH].
Qed.

(** Writing a run of records under the keys [c], [c + 1], ... *)
Lemma get_fold_set (key : V -> Z) (new : list V) :
  forall m c,
    (forall j x, nth_error new j = Some x -> key x = c + Z.of_nat j) ->
    (forall k, k < c ->
       JsMap.get k (fold_left (fun m x => JsMap.set (key x) x m) new m)
       = JsMap.get k m) /\
    (forall j x, nth_error new j = Some x ->
       JsMap.get (c + Z.of_nat j)
         (fold_left (fun m x => JsMap.set (key x) x m) new m) = Some x).
Proof.
  induction new as [|x0 new IH]; intros m c Hkeys; cbn [fold_left].
  - split; [reflexivity|]. intros [|j] x H; discriminate H.
  - assert (H0 : key x0 = c).
    { rewrite (Hkeys 0%nat x0 eq_refl). cbn. lia. }
    destruct (IH (JsMap.set (key x0) x0 m) (c + 1)) as [Hlow Hnew].
    { intros j x Hj. rewrite (Hkeys (S j) x Hj). lia. }
    split.
    + intros k Hk. rewrite Hlow by lia. apply get_set_other. lia.
    + intros [|j] x Hj.
      * injection Hj as <-. cbn [Z.of_nat]. rewrite Z.add_0_r.
        rewrite Hlow by lia. rewrite H0. apply get_set_same.
      * replace (c + Z.of_nat (S j)) with (c + 1 + Z.of_nat j) by lia.
        apply Hnew. exact Hj.
Qed.

End WithValue.
End JsMapFacts.

(** ** The transaction controller *)

Module ControllerFacts.
Import JsMapFacts.

Lemma bind_ok {A B} (m : M A) (k : A -> M B) (w w1 : World) (a : A) :
  m w = (Ok a, w1) -> bind m k w = k a w1.
Proof. unfold bind. intros ->. reflexivity. Qed.

Lemma bind_throw {A B} (m : M A) (k : A -> M B) (w w1 : World) (e : string) :
  m w = (Throw e, w1) -> bind m k w = (Throw e, w1).
Proof. unfold bind. intros ->. reflexivity. Qed.

Lemma getTransaction_run (id : Z) (w : World) :
  getTransaction id w = (Ok (JsMap.get id (transactions (storage w))), w).
Proof. destruct w as [s now]. reflexivity. Qed.

Lemma storage_createTransaction_run (d : InsertTransaction.t) (w : World) :
  let c := transactionIdCounter (storage w) in
  let header := newTransaction c d (ValidDate (clock w)) in
  storage_createTransaction d w
  = (Ok header,
     mkWorld (mkMemStorage (JsMap.set c header (transactions (storage w)))
                (transactionItems (storage w)) (c + 1)
                (transactionItemIdCounter (storage w)))
       (clock w)).
Proof. destruct w as [[t i c1 c2] now]. reflexivity. Qed.

Lemma storage_createTransactionItem_run (d : InsertTransactionItem.t)
    (w : World) :
  let c := transactionItemIdCounter (storage w) in
  let item := newTransactionItem c d (ValidDate (clock w)) in
  storage_createTransactionItem d w
  = (Ok item,
     mkWorld (mkMemStorage (transactions (storage w))
                (JsMap.set c item (transactionItems (storage w)))
                (transactionIdCounter (storage w)) (c + 1))
       (clock w)).
Proof. destruct w as [[t i c1 c2] now]. reflexivity. Qed.

Lemma storage_updateTransaction_found (key : Z) (u : PartialTransaction.t)
    (w : World) (existing : Transaction.t) :
  JsMap.get key (transactions (storage w)) = Some existing ->
  storage_updateTransaction (Some key) u w
  = (Ok (spread existing u),
     mkWorld (mkMemStorage
                (JsMap.set key (spread existing u) (transactions (storage w)))
                (transactionItems (storage w))
                (transactionIdCounter (storage w))
                (transactionItemIdCounter (storage w)))
       (clock w)).
Proof.
  destruct w as [[t i c1 c2] now]. cbn [storage transactions]. intros H.
  unfold storage_updateTransaction, bind, getStorage. cbn [storage transactions].
  rewrite H. reflexivity.
Qed.

(** An id that the store does not hold: the store throws and writes
    nothing. *)
Lemma storage_updateTransaction_absent (id : option Z)
    (u : PartialTransaction.t) (w : World) :
  match id with
  | Some key => JsMap.get key (transactions (storage w)) = None
  | None => True
  end ->
  storage_updateTransaction id u w = (Throw "Transaction not found", w).
Proof.
  destruct w as [[t i c1 c2] now]. cbn [storage transactions].
  unfold storage_updateTransaction, bind, getStorage. cbn [storage transactions].
  destruct id as [key|]; [|reflexivity]. intros ->. reflexivity.
Qed.

End ControllerFacts.

Section ControllerRuns.
Import JsMapFacts ControllerFacts.

Variable insertTransactionSchema_parse :
  option json -> result InsertTransaction.t.
Variable insertTransactionSchema_partial_parse :
  option json -> result PartialTransaction.t.
Variable insertTransactionItemSchema_parse :
  json -> Z -> result InsertTransactionItem.t.
Variable validateTransaction : InsertTransaction.t -> World -> result unit.
Variable calculateTotals : list TransactionItem.t -> result Totals.

Local Abbreviation itemsLoop := (createItems insertTransactionItemSchema_parse).
Local Abbreviation create :=
  (createTransaction insertTransactionSchema_parse
     insertTransactionItemSchema_parse validateTransaction calculateTotals).
Local Abbreviation update :=
  (updateTransaction insertTransactionSchema_partial_parse).

(** The loop over the items: it writes the items it could parse, in order
    and under consecutive ids, and stops at the first that it cannot. *)
Lemma createItems_run (transactionId : Z) :
  forall (els : list json) (acc : list TransactionItem.t) (w : World),
  exists new : list TransactionItem.t,
    (forall j x, nth_error new j = Some x ->
       exists item d,
         nth_error els j = Some item /\
         insertTransactionItemSchema_parse item transactionId = Ok d /\
         x = newTransactionItem
               (transactionItemIdCounter (storage w) + Z.of_nat j) d
               (ValidDate (clock w))) /\
    ((itemsLoop els transactionId acc w = (Ok (acc ++ new), with_items new w)
      /\ List.length new = List.length els)
     \/
     (exists item e,
        nth_error els (List.length new) = Some item /\
        insertTransactionItemSchema_parse item transactionId = Throw e /\
        itemsLoop els transactionId acc w = (Throw e, with_items new w))).
Proof.
  induction els as [|item rest IH]; intros acc w.
  - exists []. split; [intros [|j] x H; discriminate H|].
    left. split; [|reflexivity].
    rewrite app_nil_r. destruct w as [[t i c1 c2] now].
    unfold with_items. cbn. rewrite Z.add_0_r. reflexivity.
  - cbn [createItems].
    destruct (insertTransactionItemSchema_parse item transactionId)
      as [d|e] eqn:Hparse.
    + set (x0 := newTransactionItem (transactionItemIdCounter (storage w)) d
                   (ValidDate (clock w))).
      set (w1 := mkWorld
                   (mkMemStorage (transactions (storage w))
                      (JsMap.set (transactionItemIdCounter (storage w)) x0
                         (transactionItems (storage w)))
                      (transactionIdCounter (storage w))
                      (transactionItemIdCounter (storage w) + 1))
                   (clock w)).
      destruct (IH (acc ++ [x0]) w1) as [new [Hnew Hrun]].
      exists (x0 :: new).
      assert (Hw : with_items (x0 :: new) w = with_items new w1).
      { unfold with_items, w1. cbn [storage transactions transactionItems
          transactionIdCounter transactionItemIdCounter clock fold_left List.length].
        replace (TransactionItem.id x0)
          with (transactionItemIdCounter (storage w)) by reflexivity.
        f_equal. f_equal. lia. }
      assert (Hstep : forall k : list TransactionItem.t -> M (list TransactionItem.t),
                bind (lift (Ok d))
                  (fun itemData =>
                     bind (storage_createTransactionItem itemData)
                       (fun createdItem => k (acc ++ [createdItem]))) w
                = k (acc ++ [x0]) w1).
      { intros k. unfold bind at 1, lift.
        apply (bind_ok (storage_createTransactionItem d)
                 (fun createdItem => k (acc ++ [createdItem])) w w1 x0).
        apply storage_createTransactionItem_run. }
      split.
      * intros [|j] x Hj.
        -- injection Hj as <-. exists item, d.
           split; [reflexivity|]. split; [exact Hparse|].
           cbn [Z.of_nat]. rewrite Z.add_0_r. reflexivity.
        -- destruct (Hnew j x Hj) as [it [d' [H1 [H2 H3]]]].
           exists it, d'. split; [exact H1|]. split; [exact H2|].
           rewrite H3. unfold w1.
           cbn [storage transactionItemIdCounter clock]. f_equal. lia.
      * rewrite Hw. rewrite (Hstep (itemsLoop rest transactionId)).
        destruct Hrun as [[Hok Hlen] | [it [e [H1 [H2 H3]]]]].
        -- left. rewrite <- app_assoc in Hok. split; [exact Hok|].
           cbn [List.length]. f_equal. exact Hlen.
        -- right. exists it, e. split; [exact H1|]. split; [exact H2|exact H3].
    + exists []. split; [intros [|j] x H; discriminate H|].
      right. exists item, e. split; [reflexivity|]. split; [exact Hparse|].
      destruct w as [[t i c1 c2] now]. unfold with_items. cbn.
      rewrite Z.add_0_r. reflexivity.
Qed.

(** A request whose header passes the schema and the service: the header
    is written, then the items, and the response depends on the first item
    that fails, if any, and on the totals. *)
Lemma createTransaction_accepted (req : CreateRequest) (w : World)
    (transaction items : option json) (d : InsertTransaction.t) :
  property "transaction" (create_body req) = Ok transaction ->
  property "items" (create_body req) = Ok items ->
  falsy transaction || falsy items = false ->
  insertTransactionSchema_parse transaction = Ok d ->
  validateTransaction d w = Ok tt ->
  let c := transactionIdCounter (storage w) in
  let header := newTransaction c d (ValidDate (clock w)) in
  let w1 := after_header d w in
  exists new : list TransactionItem.t,
    (forall j x, nth_error new j = Some x ->
       exists item d',
         nth_error (elements_of items) j = Some item /\
         insertTransactionItemSchema_parse item c = Ok d' /\
         x = newTransactionItem
               (transactionItemIdCounter (storage w) + Z.of_nat j) d'
               (ValidDate (clock w))) /\
    ((List.length new = List.length (elements_of items) /\
      match calculateTotals new with
      | Ok totals =>
          create req w
          = (Ok (mkResponse 201 (TransactionWithItems header new totals)),
             finalized header totals (with_items new w1))
      | Throw e =>
          create req w = (Ok (failed_to_create e), with_items new w1)
      end)
     \/
     (exists item e,
        nth_error (elements_of items) (List.length new) = Some item /\
        insertTransactionItemSchema_parse item c = Throw e /\
        create req w = (Ok (failed_to_create e), with_items new w1))).
Proof.
  intros Ht Hi Hfalsy Hparse Hvalid c header w1.
  assert (Hhead : storage_createTransaction d w = (Ok header, w1)).
  { apply storage_createTransaction_run. }
  assert (Hloop :
            (match items with
             | Some (JArr elements) => itemsLoop elements c []
             | _ => ret []
             end) w1
            = itemsLoop (elements_of items) c [] w1).
  { destruct items as [[| | | |els|]|]; reflexivity. }
  destruct (createItems_run c (elements_of items) [] w1) as [new [Hnew Hrun]].
  exists new. split.
  { intros j x Hj. destruct (Hnew j x Hj) as [item [d' [H1 [H2 H3]]]].
    exists item, d'. split; [exact H1|]. split; [exact H2|]. exact H3. }
  assert (Hget : JsMap.get c (transactions (storage (with_items new w1)))
                 = Some header).
  { unfold with_items, w1, after_header. cbn [storage transactions].
    apply get_set_same. }
  assert (Hprefix : forall r,
            itemsLoop (elements_of items) c [] w1 = (r, with_items new w1) ->
            create req w
            = match r with
              | Ok createdItems =>
                  match calculateTotals createdItems with
                  | Ok totals =>
                      (Ok (mkResponse 201
                             (TransactionWithItems header createdItems totals)),
                       finalized header totals (with_items new w1))
                  | Throw e => (Ok (failed_to_create e), with_items new w1)
                  end
              | Throw e => (Ok (failed_to_create e), with_items new w1)
              end).
  { intros r Hr.
    unfold createTransaction, try_catch.
    rewrite Ht, Hi.
    cbv beta iota delta [bind lift].
    rewrite Hfalsy, Hparse, Hvalid, Hhead.
    cbv beta iota.
    change (Transaction.id header) with c.
    rewrite Hloop, Hr.
    destruct r as [createdItems|e]; [|reflexivity].
    destruct (calculateTotals createdItems) as [totals|e]; [|reflexivity].
    rewrite (storage_updateTransaction_found c (finalization totals)
               (with_items new w1) header Hget).
    reflexivity. }
  destruct Hrun as [[Hok Hlen] | [item [e [H1 [H2 H3]]]]].
  - left. split; [exact Hlen|].
    rewrite (Hprefix _ Hok). cbn [app].
    destruct (calculateTotals new); reflexivity.
  - right. exists item, e. split; [exact H1|]. split; [exact H2|].
    rewrite (Hprefix _ H3). reflexivity.
Qed.

(** A request that is turned away before anything is written. *)
Lemma createTransaction_turned_away (req : CreateRequest) (w : World) :
  (forall e, property "transaction" (create_body req) = Throw e ->
             create req w = (Ok (failed_to_create e), w)) /\
  (forall transaction e,
     property "transaction" (create_body req) = Ok transaction ->
     property "items" (create_body req) = Throw e ->
     create req w = (Ok (failed_to_create e), w)) /\
  (forall transaction items,
     property "transaction" (create_body req) = Ok transaction ->
     property "items" (create_body req) = Ok items ->
     falsy transaction || falsy items = true ->
     create req w
     = (Ok (mkResponse 400 (Message "Transaction and items are required" None)),
        w)) /\
  (forall transaction items e,
     property "transaction" (create_body req) = Ok transaction ->
     property "items" (create_body req) = Ok items ->
     falsy transaction || falsy items = false ->
     insertTransactionSchema_parse transaction = Throw e ->
     create req w = (Ok (failed_to_create e), w)) /\
  (forall transaction items d e,
     property "transaction" (create_body req) = Ok transaction ->
     property "items" (create_body req) = Ok items ->
     falsy transaction || falsy items = false ->
     insertTransactionSchema_parse transaction = Ok d ->
     validateTransaction d w = Throw e ->
     create req w = (Ok (failed_to_create e), w)).
Proof.
  unfold createTransaction, try_catch.
  repeat split.
  - intros e ->. reflexivity.
  - intros t e -> ->. reflexivity.
  - intros t i -> -> H. cbv beta iota delta [bind lift ret]. rewrite H.
    reflexivity.
  - intros t i e -> -> H1 H2. cbv beta iota delta [bind lift ret].
    rewrite H1, H2. reflexivity.
  - intros t i d e -> -> H1 H2 H3. cbv beta iota delta [bind lift ret].
    rewrite H1, H2, H3. reflexivity.
Qed.

(** The items that the loop wrote are in the store under their ids. *)
Lemma created_items_persisted (w1 : World) (new : list TransactionItem.t) :
  (forall j x, nth_error new j = Some x ->
     TransactionItem.id x = transactionItemIdCounter (storage w1) + Z.of_nat j) ->
  forall j x, nth_error new j = Some x ->
    JsMap.get (transactionItemIdCounter (storage w1) + Z.of_nat j)
      (transactionItems (storage (with_items new w1))) = Some x.
Proof.
  intros Hids. unfold with_items. cbn [storage transactionItems].
  apply (get_fold_set TransactionItem.id new (transactionItems (storage w1))
           (transactionItemIdCounter (storage w1)) Hids).
Qed.

(** What a 201 response says about the run that produced it. *)
Lemma createTransaction_201 (req : CreateRequest) (w w' : World)
    (resp : Response) :
  create req w = (Ok resp, w') ->
  statusCode resp = 201 ->
  exists (transaction items : option json) (d : InsertTransaction.t)
         (new : list TransactionItem.t) (totals : Totals),
    let c := transactionIdCounter (storage w) in
    let header := newTransaction c d (ValidDate (clock w)) in
    property "transaction" (create_body req) = Ok transaction /\
    insertTransactionSchema_parse transaction = Ok d /\
    calculateTotals new = Ok totals /\
    resp = mkResponse 201 (TransactionWithItems header new totals) /\
    w' = finalized header totals (with_items new (after_header d w)) /\
    (forall j x, nth_error new j = Some x ->
       TransactionItem.id x = transactionItemIdCounter (storage w) + Z.of_nat j).
Proof.
  intros Hrun H201.
  destruct (createTransaction_turned_away req w) as [T1 [T2 [T3 [T4 T5]]]].
  assert (Hno : forall r, create req w = (Ok r, w) -> statusCode r = 400 -> False).
  { intros r Hr H400. rewrite Hrun in Hr. injection Hr as -> _.
    rewrite H201 in H400. discriminate H400. }
  destruct (property "transaction" (create_body req)) as [transaction|e] eqn:Ht.
  2:{ exfalso. apply (Hno _ (T1 e eq_refl)). reflexivity. }
  destruct (property "items" (create_body req)) as [items|e] eqn:Hi.
  2:{ exfalso. apply (Hno _ (T2 transaction e eq_refl eq_refl)). reflexivity. }
  destruct (falsy transaction || falsy items) eqn:Hfalsy.
  1:{ exfalso. apply (Hno _ (T3 transaction items eq_refl eq_refl Hfalsy)).
      reflexivity. }
  destruct (insertTransactionSchema_parse transaction) as [d|e] eqn:Hparse.
  2:{ exfalso.
      apply (Hno _ (T4 transaction items e eq_refl eq_refl Hfalsy Hparse)).
      reflexivity. }
  destruct (validateTransaction d w) as [[]|e] eqn:Hvalid.
  2:{ exfalso.
      apply (Hno _ (T5 transaction items d e eq_refl eq_refl Hfalsy Hparse Hvalid)).
      reflexivity. }
  destruct (createTransaction_accepted req w transaction items d Ht Hi Hfalsy
              Hparse Hvalid) as [new [Hnew Hcases]].
  assert (Hids : forall j x, nth_error new j = Some x ->
            TransactionItem.id x
            = transactionItemIdCounter (storage w) + Z.of_nat j).
  { intros j x Hj. destruct (Hnew j x Hj) as [item [d' [_ [_ ->]]]].
    reflexivity. }
  destruct Hcases as [[Hlen Hok] | [item [e [_ [_ Hfail]]]]].
  - destruct (calculateTotals new) as [totals|e] eqn:Htotals.
    + rewrite Hrun in Hok. injection Hok as -> ->.
      exists transaction, items, d, new, totals. cbv zeta.
      repeat split; try reflexivity; assumption.
    + rewrite Hrun in Hok. injection Hok as -> _. discriminate H201.
  - rewrite Hrun in Hfail. injection Hfail as -> _. discriminate H201.
Qed.


(** C10. The body of a 201 response carries the header as it was first
    written: its [amount] and [balanceDue] are those of the parsed request,
    while the header in the store carries the [grandTotal] of the totals in
    the response.  So where the request's [amount] differs from the
    [grandTotal] the response and the store differ in [amount], and likewise
    for [balanceDue]. *)
Theorem C10_response_header_is_provisional (req : CreateRequest)
    (w w' : World) (resp : Response) :
  create req w = (Ok resp, w') ->
  statusCode resp = 201 ->
  exists (transaction : option json) (d : InsertTransaction.t)
         (header : Transaction.t) (items : list TransactionItem.t)
         (totals : Totals) (stored : Transaction.t),
    property "transaction" (create_body req) = Ok transaction /\
    insertTransactionSchema_parse transaction = Ok d /\
    body resp = TransactionWithItems header items totals /\
    Transaction.amount header = InsertTransaction.amount d /\
    Transaction.balanceDue header = InsertTransaction.balanceDue d /\
    getTransaction (Transaction.id header) w' = (Ok (Some stored), w') /\
    Transaction.amount stored = grandTotal totals /\
    Transaction.balanceDue stored = grandTotal totals /\
    (InsertTransaction.amount d <> grandTotal totals ->
     Transaction.amount header <> Transaction.amount stored) /\
    (InsertTransaction.balanceDue d <> grandTotal totals ->
     Transaction.balanceDue header <> Transaction.balanceDue stored) /\
    (InsertTransaction.amount d <> grandTotal totals \/
     InsertTransaction.balanceDue d <> grandTotal totals ->
     (Transaction.amount header, Transaction.balanceDue header)
     <> (Transaction.amount stored, Transaction.balanceDue stored)).
Proof.
  intros Hrun H201.
  destruct (createTransaction_201 req w w' resp Hrun H201)
    as [transaction [items [d [new [totals H]]]]].
  cbv zeta in H. destruct H as [Ht [Hparse [_ [-> [-> _]]]]].
  exists transaction, d. eexists. exists new, totals. eexists.
  split; [exact Ht|]. split; [exact Hparse|]. split; [reflexivity|].
  split; [reflexivity|]. split; [reflexivity|].
  split.
  { rewrite getTransaction_run. f_equal. f_equal.
    unfold finalized. cbn [storage transactions Transaction.id newTransaction].
    apply get_set_same. }
  split; [reflexivity|]. split; [reflexivity|].
  split; [intros Hne; exact Hne|]. split; [intros Hne; exact Hne|].
  cbn [spread finalization override Transaction.amount Transaction.balanceDue
       PartialTransaction.amount PartialTransaction.balanceDue newTransaction].
  intros [Hne | Hne] E; injection E as E1 E2; contradiction.
Qed.

(** C4, amended. A request whose header fails the schema or the service is
    answered with 400 and the world is as before: nothing is written.  A
    request whose header passes and whose item at position [k] is the first
    to fail the schema is answered with 400 as well, but by then the header
    is in the store as the request supplied it and so are the [k] items
    before the failing one; they stay. *)
Theorem C4_rejection_and_what_is_written (req : CreateRequest) (w : World)
    (transaction items : option json) :
  property "transaction" (create_body req) = Ok transaction ->
  property "items" (create_body req) = Ok items ->
  falsy transaction || falsy items = false ->
  let c := transactionIdCounter (storage w) in
  let ci := transactionItemIdCounter (storage w) in
  (forall e,
     insertTransactionSchema_parse transaction = Throw e \/
     (exists d, insertTransactionSchema_parse transaction = Ok d /\
                validateTransaction d w = Throw e) ->
     create req w = (Ok (failed_to_create e), w)) /\
  (forall d k item e,
     insertTransactionSchema_parse transaction = Ok d ->
     validateTransaction d w = Ok tt ->
     nth_error (elements_of items) k = Some item ->
     insertTransactionItemSchema_parse item c = Throw e ->
     (forall j it, (j < k)%nat -> nth_error (elements_of items) j = Some it ->
        exists d', insertTransactionItemSchema_parse it c = Ok d') ->
     exists w',
       create req w = (Ok (failed_to_create e), w') /\
       JsMap.get c (transactions (storage w'))
       = Some (newTransaction c d (ValidDate (clock w))) /\
       transactionIdCounter (storage w') = c + 1 /\
       transactionItemIdCounter (storage w') = ci + Z.of_nat k /\
       (forall j it, (j < k)%nat -> nth_error (elements_of items) j = Some it ->
          exists d',
            insertTransactionItemSchema_parse it c = Ok d' /\
            JsMap.get (ci + Z.of_nat j) (transactionItems (storage w'))
            = Some (newTransactionItem (ci + Z.of_nat j) d'
                      (ValidDate (clock w))))).
Proof.
  intros Ht Hi Hfalsy c ci.
  destruct (createTransaction_turned_away req w) as [_ [_ [_ [T4 T5]]]].
  split.
  - intros e [Hparse | [d [Hparse Hvalid]]].
    + apply (T4 transaction items e Ht Hi Hfalsy Hparse).
    + apply (T5 transaction items d e Ht Hi Hfalsy Hparse Hvalid).
  - intros d k item e Hparse Hvalid Hk Hfail Hfirst.
    destruct (createTransaction_accepted req w transaction items d Ht Hi Hfalsy
                Hparse Hvalid) as [new [Hnew Hcases]].
    fold c in Hnew, Hcases. fold ci in Hnew.
    assert (Hids : forall j x, nth_error new j = Some x ->
              TransactionItem.id x
              = transactionItemIdCounter (storage (after_header d w))
                + Z.of_nat j).
    { intros j x Hj. destruct (Hnew j x Hj) as [it [d' [_ [_ ->]]]].
      reflexivity. }
    assert (Hparsed : forall j, (j < List.length new)%nat ->
              exists it d', nth_error (elements_of items) j = Some it /\
                            insertTransactionItemSchema_parse it c = Ok d').
    { intros j Hj. destruct (nth_error new j) as [x|] eqn:Hx.
      - destruct (Hnew j x Hx) as [it [d' [H1 [H2 _]]]].
        exists it, d'. split; assumption.
      - apply nth_error_None in Hx. lia. }
    assert (Hlen : List.length new = k /\
                   create req w
                   = (Ok (failed_to_create e), with_items new (after_header d w))).
    { destruct Hcases as [[Hlen _] | [item' [e' [H1 [H2 H3]]]]].
      - exfalso.
        assert (Hlt : (k < List.length new)%nat).
        { rewrite Hlen. apply nth_error_Some. rewrite Hk. discriminate. }
        destruct (Hparsed k Hlt) as [it [d' [H1 H2]]].
        rewrite Hk in H1. injection H1 as <-. rewrite Hfail in H2.
        discriminate H2.
      - destruct (Nat.lt_trichotomy (List.length new) k) as [Hlt | [Heq | Hgt]].
        + exfalso. destruct (Hfirst _ item' Hlt H1) as [d' Hd'].
          rewrite H2 in Hd'. discriminate Hd'.
        + split; [exact Heq|]. rewrite Heq in H1. rewrite Hk in H1.
          injection H1 as <-. rewrite Hfail in H2. injection H2 as <-.
          exact H3.
        + exfalso. destruct (Hparsed k Hgt) as [it [d' [H4 H5]]].
          rewrite Hk in H4. injection H4 as <-. rewrite Hfail in H5.
          discriminate H5. }
    destruct Hlen as [Hlen Hresult].
    exists (with_items new (after_header d w)).
    split; [exact Hresult|]. split; [|split; [|split]].
    + unfold with_items, after_header. cbn [storage transactions].
      apply get_set_same.
    + reflexivity.
    + unfold with_items, after_header.
      cbn [storage transactionItemIdCounter]. rewrite Hlen. reflexivity.
    + intros j it Hj Hit.
      destruct (nth_error new j) as [x|] eqn:Hx.
      * destruct (Hnew j x Hx) as [it' [d' [H1 [H2 H3]]]].
        rewrite Hit in H1. injection H1 as <-.
        exists d'. split; [exact H2|].
        rewrite <- H3.
        apply (created_items_persisted (after_header d w) new Hids j x Hx).
      * apply nth_error_None in Hx. lia.
Qed.

(** C8. For an id that the store does not hold, [MemStorage.updateTransaction]
    throws "Transaction not found" and writes nothing; the controller catches
    it and answers 400, so the branch that would answer 404 is never taken. *)
Theorem C8_update_of_absent_id_answers_400 (req : UpdateRequest) (w : World) :
  match params_id req with
  | Some key => JsMap.get key (transactions (storage w)) = None
  | None => True
  end ->
  (forall u, storage_updateTransaction (params_id req) u w
             = (Throw "Transaction not found", w)) /\
  exists e,
    update req w
    = (Ok (mkResponse 400 (Message "Failed to update transaction" (Some e))), w).
Proof.
  intros Habsent.
  split; [intros u; apply storage_updateTransaction_absent; exact Habsent|].
  unfold updateTransaction, try_catch, bind, lift.
  destruct (insertTransactionSchema_partial_parse (update_body req)) as [u|e].
  - rewrite (storage_updateTransaction_absent _ u w Habsent).
    eexists. reflexivity.
  - eexists. reflexivity.
Qed.

(** The controller of the update route answers 200 or 400, whatever the
    request and the store. *)
Lemma updateTransaction_never_404 (req : UpdateRequest) (w : World) :
  exists resp w',
    update req w = (Ok resp, w') /\
    (statusCode resp = 200 \/ statusCode resp = 400).
Proof.
  unfold updateTransaction, try_catch, bind, lift.
  destruct (insertTransactionSchema_partial_parse (update_body req)) as [u|e].
  - destruct (storage_updateTransaction (params_id req) u w) as [[t|e] w1].
    + eexists. eexists. split; [reflexivity|]. left. reflexivity.
    + eexists. eexists. split; [reflexivity|]. right. reflexivity.
  - eexists. eexists. split; [reflexivity|]. right. reflexivity.
Qed.

End ControllerRuns.

(** ** The controller on the sample store *)

Section ControllerSamples.

Local Abbreviation sample_create :=
  (createTransaction spec_insertTransactionSchema_parse
     spec_insertTransactionItemSchema_parse spec_validateTransaction
     spec_calculateTotals).

Local Abbreviation sample_update :=
  (updateTransaction spec_insertTransactionSchema_partial_parse).

(** The header of the sample request as the stand-in schema reads it. *)
Lemma sample_header_parsed :
  exists d,
    spec_insertTransactionSchema_parse (Some sample_header) = Ok d /\
    InsertTransaction.amount d = VStr "1" /\
    InsertTransaction.balanceDue d = VStr "0".
Proof. eexists. split; [reflexivity|]. split; reflexivity. Qed.

(** A request with the laptop and the desktop is answered with 201. *)
Lemma sample_created :
  exists resp w',
    sample_create (sample_request [laptop; desktop]) sample_world
    = (Ok resp, w') /\ statusCode resp = 201.
Proof.
  eexists. eexists. split; [vm_compute; reflexivity | reflexivity].
Defined.


(** The same request: the response still says 1 and 0. *)
Lemma C10_response_header_is_provisional_witness :
  exists resp w',
    sample_create (sample_request [laptop; desktop]) sample_world
    = (Ok resp, w') /\
    statusCode resp = 201 /\
    exists (transaction : option json) (d : InsertTransaction.t)
           (header : Transaction.t) (items : list TransactionItem.t)
           (totals : Totals) (stored : Transaction.t),
      property "transaction" (create_body (sample_request [laptop; desktop]))
      = Ok transaction /\
      spec_insertTransactionSchema_parse transaction = Ok d /\
      body resp = TransactionWithItems header items totals /\
      Transaction.amount header = InsertTransaction.amount d /\
      Transaction.balanceDue header = InsertTransaction.balanceDue d /\
      getTransaction (Transaction.id header) w' = (Ok (Some stored), w') /\
      Transaction.amount stored = grandTotal totals /\
      Transaction.balanceDue stored = grandTotal totals /\
      (InsertTransaction.amount d <> grandTotal totals ->
       Transaction.amount header <> Transaction.amount stored) /\
      (InsertTransaction.balanceDue d <> grandTotal totals ->
       Transaction.balanceDue header <> Transaction.balanceDue stored) /\
      (InsertTransaction.amount d <> grandTotal totals \/
       InsertTransaction.balanceDue d <> grandTotal totals ->
       (Transaction.amount header, Transaction.balanceDue header)
       <> (Transaction.amount stored, Transaction.balanceDue stored)).
Proof.
  destruct sample_created as [resp [w' [H1 H2]]].
  exists resp, w'. split; [exact H1|]. split; [exact H2|].
  exact (C10_response_header_is_provisional
           spec_insertTransactionSchema_parse
           spec_insertTransactionItemSchema_parse spec_validateTransaction
           spec_calculateTotals
           (sample_request [laptop; desktop]) sample_world w' resp H1 H2).
Defined.

(** On the sample store the response of the same request carries the
    amount "1" and the balance "0" of the request, and the store 84000. *)
Example response_and_store_differ :
  exists header items totals w' stored,
    sample_create (sample_request [laptop; desktop]) sample_world
    = (Ok (mkResponse 201 (TransactionWithItems header items totals)), w') /\
    Transaction.amount header = VStr "1" /\
    Transaction.balanceDue header = VStr "0" /\
    grandTotal totals = VNum (ofZ 84000) /\
    getTransaction (Transaction.id header) w' = (Ok (Some stored), w') /\
    Transaction.amount stored = VNum (ofZ 84000) /\
    Transaction.balanceDue stored = VNum (ofZ 84000).
Proof.
  do 5 eexists. split; [vm_compute; reflexivity|].
  repeat split; vm_compute; reflexivity.
Qed.

(** After the same request the store answers with both items when asked for
    the items of the new transaction. *)
Example created_items_fetched :
  exists header items totals w' fetched,
    sample_create (sample_request [laptop; desktop]) sample_world
    = (Ok (mkResponse 201 (TransactionWithItems header items totals)), w') /\
    getTransactionItemsByTransactionId (Transaction.id header) w'
    = (Ok fetched, w') /\
    fetched = items /\ List.length fetched = 2%nat.
Proof.
  do 5 eexists. split; [vm_compute; reflexivity|].
  split; [vm_compute; reflexivity|]. split; reflexivity.
Qed.

(** C4, as stated, fails when it is an item that does not validate.  The
    second item of this request is [null]; the response is 400, and yet the
    store, which had no transaction 2 and no item, now holds the header
    under id 2, with the amount the request supplied, and the first item. *)
Lemma C4_counterexample_item_rejected_after_writes :
  spec_insertTransactionItemSchema_parse JNull 2 = Throw "Expected object" /\
  fst (sample_create (sample_request [laptop; JNull]) sample_world)
  = Ok (failed_to_create "Expected object") /\
  JsMap.get 2 (transactions (storage sample_world)) = None /\
  transactionItems (storage sample_world) = [] /\
  (exists header,
     JsMap.get 2
       (transactions
          (storage (snd (sample_create (sample_request [laptop; JNull])
                           sample_world))))
     = Some header /\
     Transaction.amount header = VStr "1") /\
  (exists item,
     JsMap.get 1
       (transactionItems
          (storage (snd (sample_create (sample_request [laptop; JNull])
                           sample_world))))
     = Some item /\
     TransactionItem.transactionId item = 2).
Proof.
  split; [reflexivity|]. split; [vm_compute; reflexivity|].
  split; [reflexivity|]. split; [reflexivity|].
  split; eexists; split; vm_compute; reflexivity.
Qed.

(** The same request, with the second item the first to fail. *)
Lemma C4_rejection_and_what_is_written_witness :
  property "transaction" (create_body (sample_request [laptop; JNull]))
  = Ok (Some sample_header) /\
  property "items" (create_body (sample_request [laptop; JNull]))
  = Ok (Some (JArr [laptop; JNull])) /\
  falsy (Some sample_header) || falsy (Some (JArr [laptop; JNull])) = false /\
  (forall e,
     spec_insertTransactionSchema_parse (Some sample_header) = Throw e \/
     (exists d, spec_insertTransactionSchema_parse (Some sample_header) = Ok d /\
                spec_validateTransaction d sample_world = Throw e) ->
     sample_create (sample_request [laptop; JNull]) sample_world
     = (Ok (failed_to_create e), sample_world)) /\
  (forall d k item e,
     spec_insertTransactionSchema_parse (Some sample_header) = Ok d ->
     spec_validateTransaction d sample_world = Ok tt ->
     nth_error (elements_of (Some (JArr [laptop; JNull]))) k = Some item ->
     spec_insertTransactionItemSchema_parse item 2 = Throw e ->
     (forall j it, (j < k)%nat ->
        nth_error (elements_of (Some (JArr [laptop; JNull]))) j = Some it ->
        exists d', spec_insertTransactionItemSchema_parse it 2 = Ok d') ->
     exists w',
       sample_create (sample_request [laptop; JNull]) sample_world
       = (Ok (failed_to_create e), w') /\
       JsMap.get 2 (transactions (storage w'))
       = Some (newTransaction 2 d (ValidDate (clock sample_world))) /\
       transactionIdCounter (storage w') = 2 + 1 /\
       transactionItemIdCounter (storage w') = 1 + Z.of_nat k /\
       (forall j it, (j < k)%nat ->
          nth_error (elements_of (Some (JArr [laptop; JNull]))) j = Some it ->
          exists d',
            spec_insertTransactionItemSchema_parse it 2 = Ok d' /\
            JsMap.get (1 + Z.of_nat j) (transactionItems (storage w'))
            = Some (newTransactionItem (1 + Z.of_nat j) d'
                      (ValidDate (clock sample_world))))).
Proof.
  split; [reflexivity|]. split; [reflexivity|]. split; [reflexivity|].
  exact (C4_rejection_and_what_is_written
           spec_insertTransactionSchema_parse
           spec_insertTransactionItemSchema_parse spec_validateTransaction
           spec_calculateTotals
           (sample_request [laptop; JNull]) sample_world
           (Some sample_header) (Some (JArr [laptop; JNull]))
           eq_refl eq_refl eq_refl).
Defined.

(** On the sample store: the item part of C4 at its second item. *)
Example second_item_rejected :
  exists w',
    sample_create (sample_request [laptop; JNull]) sample_world
    = (Ok (failed_to_create "Expected object"), w') /\
    transactionIdCounter (storage w') = 3 /\
    transactionItemIdCounter (storage w') = 2.
Proof.
  eexists. split; [vm_compute; reflexivity|]. split; reflexivity.
Qed.

(** A PUT for transaction 999, which the sample store does not hold. *)
Lemma C8_update_of_absent_id_answers_400_witness :
  JsMap.get 999 (transactions (storage sample_world)) = None /\
  (forall u, storage_updateTransaction (Some 999) u sample_world
             = (Throw "Transaction not found", sample_world)) /\
  exists e,
    sample_update (mkUpdateRequest (Some 999) (Some (JObj []))) sample_world
    = (Ok (mkResponse 400 (Message "Failed to update transaction" (Some e))),
       sample_world).
Proof.
  split; [reflexivity|].
  exact (C8_update_of_absent_id_answers_400
           spec_insertTransactionSchema_partial_parse
           (mkUpdateRequest (Some 999) (Some (JObj []))) sample_world eq_refl).
Defined.

(** The failing input of C8, evaluated. *)
Example put_absent_transaction :
  sample_update (mkUpdateRequest (Some 999) (Some (JObj []))) sample_world
  = (Ok (mkResponse 400
           (Message "Failed to update transaction"
              (Some "Transaction not found"%string))),
     sample_world).
Proof. reflexivity. Qed.

End ControllerSamples.

(** ** Reading decimal strings *)

Section StringToNumberExamples.

Example StringToNumber_integer : StringToNumber "45000" = ofZ 45000.
Proof. vm_compute. reflexivity. Qed.

Example StringToNumber_zero :
  Num.strict_eq (StringToNumber "0") (ofZ 0) = true /\
  Num.strict_eq (StringToNumber "0.00") (ofZ 0) = true /\
  Num.strict_eq (StringToNumber " ") (ofZ 0) = true.
Proof. repeat split; vm_compute; reflexivity. Qed.

Example StringToNumber_fraction :
  Num.add (StringToNumber "2250.50") (StringToNumber "2250.50")
  = StringToNumber "4501".
Proof. apply NumFacts.strict_eq_eq. vm_compute. reflexivity. Qed.

Example StringToNumber_not_a_number :
  StringToNumber "abc" = NaN /\ StringToNumber "1.2.3" = NaN
  /\ StringToNumber "." = NaN.
Proof. repeat split; vm_compute; reflexivity. Qed.

End StringToNumberExamples.

(** * More of the code: the record store *)

Module StoreFacts.
Import NumFacts AgeingFacts JsMapFacts ControllerFacts.

Section Maps.
Context {V : Type}.
Implicit Types (m : list (Z * V)) (k : Z) (v : V).

Lemma get_None_iff m k : JsMap.get k m = None <-> ~ In k (keys m).
Proof.
  induction m as [|[k' v'] m IH]; cbn [JsMap.get keys map fst In].
  - split; [intros _ []| reflexivity].
  - destruct (Z.eqb_spec k k') as [->|Hne].
    + split; [discriminate|]. intros H. contradiction H. left. reflexivity.
    + rewrite IH. unfold keys. split.
      * intros H [E|E]; [apply Hne; symmetry; exact E | exact (H E)].
      * intros H E. apply H. right. exact E.
Qed.

Lemma get_fresh m c k : keys_below c m -> c <= k -> JsMap.get k m = None.
Proof.
  intros Hb Hk. apply get_None_iff. intros Hin.
  unfold keys_below in Hb. rewrite Forall_forall in Hb.
  specialize (Hb k Hin). lia.
Qed.

(** A new key goes to the end. *)
Lemma set_absent m k v : JsMap.get k m = None -> JsMap.set k v m = m ++ [(k, v)].
Proof.
  induction m as [|[k' v'] m IH]; cbn [JsMap.get JsMap.set app]; [reflexivity|].
  destruct (Z.eqb k k'); [discriminate|]. intros H. rewrite (IH H). reflexivity.
Qed.

(** A key that is there keeps its place, and the keys stay as they are. *)
Lemma keys_set_present m k v v0 :
  JsMap.get k m = Some v0 -> keys (JsMap.set k v m) = keys m.
Proof.
  induction m as [|[k' v'] m IH]; cbn [JsMap.get JsMap.set]; [discriminate|].
  destruct (Z.eqb_spec k k') as [->|Hne]; [reflexivity|].
  intros H. unfold keys in *. cbn [map fst]. rewrite (IH H). reflexivity.
Qed.

Lemma set_same m k v : JsMap.get k m = Some v -> JsMap.set k v m = m.
Proof.
  induction m as [|[k' v'] m IH]; cbn [JsMap.get JsMap.set]; [discriminate|].
  destruct (Z.eqb_spec k k') as [->|Hne].
  - intros H. injection H as ->. reflexivity.
  - intros H. rewrite (IH H). reflexivity.
Qed.

Lemma set_set m k v v' : JsMap.set k v (JsMap.set k v' m) = JsMap.set k v m.
Proof.
  induction m as [|[k0 v0] m IH]; cbn [JsMap.set].
  - rewrite Z.eqb_refl. reflexivity.
  - destruct (Z.eqb k k0) eqn:E; cbn [JsMap.set].
    + rewrite Z.eqb_refl. reflexivity.
    + rewrite E, IH. reflexivity.
Qed.

Lemma In_set m k v kv :
  In kv (JsMap.set k v m) -> kv = (k, v) \/ In kv m.
Proof.
  induction m as [|[k' v'] m IH]; cbn [JsMap.set In].
  - intros [<-|[]]. left. reflexivity.
  - destruct (Z.eqb k k'); cbn [In].
    + intros [<-|H]; [left; reflexivity | right; right; exact H].
    + intros [<-|H]; [right; left; reflexivity|].
      destruct (IH H) as [->|H']; [left; reflexivity | right; right; exact H'].
Qed.

Lemma keys_set m k v :
  keys (JsMap.set k v m)
  = match JsMap.get k m with
    | Some _ => keys m
    | None => keys m ++ [k]
    end.
Proof.
  destruct (JsMap.get k m) as [v0|] eqn:E.
  - apply (keys_set_present m k v v0 E).
  - rewrite (set_absent m k v E). unfold keys. rewrite map_app. reflexivity.
Qed.

Lemma NoDup_keys_set m k v : NoDup (keys m) -> NoDup (keys (JsMap.set k v m)).
Proof.
  intros Hnd. rewrite keys_set.
  destruct (JsMap.get k m) as [v0|] eqn:E; [exact Hnd|].
  apply get_None_iff in E.
  apply NoDup_rev in Hnd.
  assert (H : NoDup (rev (keys m ++ [k]))).
  { rewrite rev_app_distr. cbn [rev app]. constructor; [|exact Hnd].
    intros Hin. apply E. apply in_rev. exact Hin. }
  apply NoDup_rev in H. rewrite rev_involutive in H. exact H.
Qed.

Lemma keys_below_set m c k v :
  keys_below c m -> k < c -> keys_below c (JsMap.set k v m).
Proof.
  unfold keys_below. intros Hb Hk. rewrite keys_set.
  destruct (JsMap.get k m); [exact Hb|].
  apply Forall_app. split; [exact Hb|]. constructor; [exact Hk | constructor].
Qed.

Lemma keys_below_mono m c c' : keys_below c m -> c <= c' -> keys_below c' m.
Proof.
  unfold keys_below. intros Hb Hc. eapply Forall_impl; [|exact Hb].
  cbn. intros k Hk. lia.
Qed.

Lemma Forall_set (P : Z * V -> Prop) m k v :
  Forall P m -> P (k, v) -> Forall P (JsMap.set k v m).
Proof.
  intros Hm Hkv. apply Forall_forall. intros kv Hin.
  destruct (In_set m k v kv Hin) as [->|H]; [exact Hkv|].
  rewrite Forall_forall in Hm. exact (Hm kv H).
Qed.

End Maps.

Lemma spread_empty (t : Transaction.t) : spread t PartialTransaction.empty = t.
Proof. destruct t. reflexivity. Qed.

Lemma spread_twice (t : Transaction.t) (u : PartialTransaction.t) :
  spread (spread t u) u = spread t u.
Proof.
  destruct t, u. unfold spread.
  cbn [Transaction.id Transaction.transactionNumber Transaction.transactionType
       Transaction.transactionDate Transaction.partyId Transaction.amount
       Transaction.balanceDue Transaction.dueDate Transaction.status
       Transaction.notes Transaction.reference Transaction.isBnpl
       Transaction.isSync Transaction.userId Transaction.createdAt
       PartialTransaction.transactionNumber PartialTransaction.transactionType
       PartialTransaction.transactionDate PartialTransaction.partyId
       PartialTransaction.amount PartialTransaction.balanceDue
       PartialTransaction.dueDate PartialTransaction.status
       PartialTransaction.notes PartialTransaction.reference
       PartialTransaction.isBnpl PartialTransaction.isSync
       PartialTransaction.userId].
  repeat match goal with
         | |- context [override _ ?o] => destruct o; cbn [override]
         end.
  all: reflexivity.
Qed.

End StoreFacts.

Section StoreProperties.
Import NumFacts AgeingFacts GstFacts JsMapFacts ControllerFacts StoreFacts.

Lemma getTransactionsByUserId_run (userId : Z) (w : World) :
  getTransactionsByUserId userId w
  = (Ok (filter (fun t => Z.eqb (Transaction.userId t) userId)
           (JsMap.values (transactions (storage w)))), w).
Proof. destruct w as [s now]. reflexivity. Qed.

Lemma sample_world_wellFormed : wellFormed (storage sample_world).
Proof.
  unfold wellFormed, keys_below, keys, sample_world.
  cbn [storage transactions transactionItems transactionIdCounter
       transactionItemIdCounter map fst].
  repeat split; repeat constructor; try lia; intros [].
Defined.

(** X1. Creating a transaction hands out the counter as its id, stores the
    record under that id, where [getTransaction] finds it, leaves every other
    id as it was, does not touch the items, and advances the counter by
    one. *)
Theorem store_create_then_get (d : InsertTransaction.t) (w : World) :
  exists (t : Transaction.t) (w' : World),
    storage_createTransaction d w = (Ok t, w') /\
    t = newTransaction (transactionIdCounter (storage w)) d (ValidDate (clock w)) /\
    getTransaction (Transaction.id t) w' = (Ok (Some t), w') /\
    (forall k, k <> Transaction.id t ->
       fst (getTransaction k w') = fst (getTransaction k w)) /\
    transactionItems (storage w') = transactionItems (storage w) /\
    transactionIdCounter (storage w') = transactionIdCounter (storage w) + 1 /\
    transactionItemIdCounter (storage w') = transactionItemIdCounter (storage w).
Proof.
  eexists. eexists. split; [apply storage_createTransaction_run|].
  split; [reflexivity|]. rewrite !getTransaction_run.
  cbn [storage transactions transactionItems transactionIdCounter
       transactionItemIdCounter Transaction.id newTransaction].
  split; [rewrite get_set_same; reflexivity|].
  split; [|repeat split].
  intros k Hk. rewrite !getTransaction_run. cbn [fst storage transactions].
  rewrite (get_set_other _ _ _ _ Hk). reflexivity.
Qed.

(** X2. In a well-formed store a created transaction comes last in the
    listing of its user, after those that were there, and the listing of
    every other user is as before. *)
Theorem store_create_appends_to_listing (d : InsertTransaction.t) (w : World)
    (userId : Z) :
  wellFormed (storage w) ->
  exists (t : Transaction.t) (w' : World) (before : list Transaction.t),
    storage_createTransaction d w = (Ok t, w') /\
    getTransactionsByUserId userId w = (Ok before, w) /\
    getTransactionsByUserId userId w'
    = (Ok (before ++ if Z.eqb (InsertTransaction.userId d) userId
                     then [t] else []), w').
Proof.
  intros [_ [_ [Hbelow _]]].
  eexists. eexists. eexists.
  split; [apply storage_createTransaction_run|].
  split; [apply getTransactionsByUserId_run|].
  rewrite getTransactionsByUserId_run. cbn [storage transactions]. f_equal. f_equal.
  rewrite set_absent by (apply (get_fresh _ _ _ Hbelow); lia).
  rewrite values_app, filter_app. f_equal.
Qed.

Lemma store_create_appends_to_listing_witness :
  wellFormed (storage sample_world) /\
  exists (t : Transaction.t) (w' : World) (before : list Transaction.t),
    storage_createTransaction sample_insert sample_world = (Ok t, w') /\
    getTransactionsByUserId 1 sample_world = (Ok before, sample_world) /\
    getTransactionsByUserId 1 w'
    = (Ok (before ++ if Z.eqb (InsertTransaction.userId sample_insert) 1
                     then [t] else []), w').
Proof.
  split; [exact sample_world_wellFormed|].
  exact (store_create_appends_to_listing sample_insert sample_world 1
           sample_world_wellFormed).
Defined.

(** X3. Updating a transaction that the store holds returns the old record
    overlaid with the given fields and stores it under the same id; the id
    and the creation time cannot be changed; no entry is added or moved, no
    other id is affected, and the counters and the items stay. *)
Theorem store_update_then_get (key : Z) (u : PartialTransaction.t) (w : World)
    (existing : Transaction.t) :
  JsMap.get key (transactions (storage w)) = Some existing ->
  exists (t : Transaction.t) (w' : World),
    storage_updateTransaction (Some key) u w = (Ok t, w') /\
    t = spread existing u /\
    getTransaction key w' = (Ok (Some t), w') /\
    Transaction.id t = Transaction.id existing /\
    Transaction.createdAt t = Transaction.createdAt existing /\
    (forall k, k <> key ->
       fst (getTransaction k w') = fst (getTransaction k w)) /\
    keys (transactions (storage w')) = keys (transactions (storage w)) /\
    transactionItems (storage w') = transactionItems (storage w) /\
    transactionIdCounter (storage w') = transactionIdCounter (storage w) /\
    transactionItemIdCounter (storage w') = transactionItemIdCounter (storage w) /\
    clock w' = clock w.
Proof.
  intros Hget. eexists. eexists.
  split; [apply (storage_updateTransaction_found key u w existing Hget)|].
  split; [reflexivity|]. rewrite getTransaction_run.
  cbn [storage transactions transactionItems transactionIdCounter
       transactionItemIdCounter clock].
  split; [rewrite get_set_same; reflexivity|].
  split; [reflexivity|]. split; [reflexivity|].
  split; [|split; [apply (keys_set_present _ _ _ _ Hget)|repeat split]].
  intros k Hk. rewrite !getTransaction_run. cbn [fst storage transactions].
  rewrite (get_set_other _ _ _ _ Hk). reflexivity.
Qed.

Lemma store_update_then_get_witness :
  JsMap.get 1 (transactions (storage sample_world)) = Some sample_invoice /\
  exists (t : Transaction.t) (w' : World),
    storage_updateTransaction (Some 1) sample_payment sample_world = (Ok t, w') /\
    t = spread sample_invoice sample_payment /\
    getTransaction 1 w' = (Ok (Some t), w') /\
    Transaction.id t = Transaction.id sample_invoice /\
    Transaction.createdAt t = Transaction.createdAt sample_invoice /\
    (forall k, k <> 1 ->
       fst (getTransaction k w') = fst (getTransaction k sample_world)) /\
    keys (transactions (storage w')) = keys (transactions (storage sample_world)) /\
    transactionItems (storage w') = transactionItems (storage sample_world) /\
    transactionIdCounter (storage w') = transactionIdCounter (storage sample_world) /\
    transactionItemIdCounter (storage w')
    = transactionItemIdCounter (storage sample_world) /\
    clock w' = clock sample_world.
Proof.
  split; [reflexivity|].
  exact (store_update_then_get 1 sample_payment sample_world sample_invoice
           eq_refl).
Defined.

(** X4. An update without fields changes nothing in the world, and applying
    the same update a second time changes nothing more. *)
Theorem store_update_is_idempotent (key : Z) (u : PartialTransaction.t)
    (w : World) (existing : Transaction.t) :
  JsMap.get key (transactions (storage w)) = Some existing ->
  storage_updateTransaction (Some key) PartialTransaction.empty w
  = (Ok existing, w) /\
  exists (t : Transaction.t) (w' : World),
    storage_updateTransaction (Some key) u w = (Ok t, w') /\
    storage_updateTransaction (Some key) u w' = (Ok t, w').
Proof.
  intros Hget. split.
  - rewrite (storage_updateTransaction_found key _ w existing Hget).
    rewrite spread_empty, (set_same _ _ _ Hget).
    destruct w as [[t i c1 c2] now]. reflexivity.
  - eexists. eexists.
    split; [apply (storage_updateTransaction_found key u w existing Hget)|].
    rewrite (storage_updateTransaction_found key u _ (spread existing u)).
    + cbn [storage transactions transactionItems transactionIdCounter
           transactionItemIdCounter clock].
      rewrite spread_twice, set_set. reflexivity.
    + cbn [storage transactions]. apply get_set_same.
Qed.

Lemma store_update_is_idempotent_witness :
  JsMap.get 1 (transactions (storage sample_world)) = Some sample_invoice /\
  storage_updateTransaction (Some 1) PartialTransaction.empty sample_world
  = (Ok sample_invoice, sample_world) /\
  exists (t : Transaction.t) (w' : World),
    storage_updateTransaction (Some 1) sample_payment sample_world = (Ok t, w') /\
    storage_updateTransaction (Some 1) sample_payment w' = (Ok t, w').
Proof.
  split; [reflexivity|].
  exact (store_update_is_idempotent 1 sample_payment sample_world
           sample_invoice eq_refl).
Defined.

End StoreProperties.

Section StoreInvariant.
Import NumFacts AgeingFacts GstFacts JsMapFacts ControllerFacts StoreFacts.

Variable insertTransactionSchema_parse :
  option json -> result InsertTransaction.t.
Variable insertTransactionSchema_partial_parse :
  option json -> result PartialTransaction.t.
Variable insertTransactionItemSchema_parse :
  json -> Z -> result InsertTransactionItem.t.
Variable validateTransaction : InsertTransaction.t -> World -> result unit.
Variable calculateTotals : list TransactionItem.t -> result Totals.

Local Abbreviation create :=
  (createTransaction insertTransactionSchema_parse
     insertTransactionItemSchema_parse validateTransaction calculateTotals).
Local Abbreviation update :=
  (updateTransaction insertTransactionSchema_partial_parse).

Lemma get_In {V} (m : list (Z * V)) (k : Z) (v : V) :
  JsMap.get k m = Some v -> In (k, v) m.
Proof.
  induction m as [|[k' v'] m IH]; cbn [JsMap.get In]; [discriminate|].
  destruct (Z.eqb_spec k k') as [->|Hne].
  - intros H. injection H as ->. left. reflexivity.
  - intros H. right. exact (IH H).
Qed.

Lemma wellFormed_after_header (d : InsertTransaction.t) (w : World) :
  wellFormed (storage w) -> wellFormed (storage (after_header d w)).
Proof.
  intros [N1 [N2 [B1 [B2 [I1 I2]]]]]. unfold wellFormed, after_header.
  cbn [storage transactions transactionItems transactionIdCounter
       transactionItemIdCounter].
  split; [apply NoDup_keys_set; exact N1|]. split; [exact N2|].
  split.
  { apply keys_below_set; [|lia]. apply (keys_below_mono _ _ _ B1). lia. }
  split; [exact B2|]. split; [|exact I2].
  apply Forall_set; [exact I1 | reflexivity].
Qed.

Lemma wellFormed_with_items (new : list TransactionItem.t) :
  forall w,
    (forall j x, nth_error new j = Some x ->
       TransactionItem.id x = transactionItemIdCounter (storage w) + Z.of_nat j) ->
    wellFormed (storage w) -> wellFormed (storage (with_items new w)).
Proof.
  induction new as [|x0 new IH]; intros w Hids Hwf.
  - destruct w as [[t i c1 c2] now]. unfold with_items.
    cbn [storage transactions transactionItems transactionIdCounter
         transactionItemIdCounter clock fold_left List.length Z.of_nat].
    rewrite Z.add_0_r. exact Hwf.
  - pose (w1 := mkWorld
                  (mkMemStorage (transactions (storage w))
                     (JsMap.set (TransactionItem.id x0) x0
                        (transactionItems (storage w)))
                     (transactionIdCounter (storage w))
                     (transactionItemIdCounter (storage w) + 1))
                  (clock w)).
    assert (H0 : TransactionItem.id x0 = transactionItemIdCounter (storage w)).
    { rewrite (Hids 0%nat x0 eq_refl). cbn. lia. }
    assert (E : with_items (x0 :: new) w = with_items new w1).
    { unfold with_items, w1.
      cbn [storage transactions transactionItems transactionIdCounter
           transactionItemIdCounter clock fold_left List.length].
      f_equal. f_equal. lia. }
    rewrite E. apply IH.
    + intros j x Hj. rewrite (Hids (S j) x Hj). unfold w1.
      cbn [storage transactionItemIdCounter]. lia.
    + destruct Hwf as [N1 [N2 [B1 [B2 [I1 I2]]]]]. unfold wellFormed, w1.
      cbn [storage transactions transactionItems transactionIdCounter
           transactionItemIdCounter].
      split; [exact N1|]. split; [apply NoDup_keys_set; exact N2|].
      split; [exact B1|]. split.
      { apply keys_below_set; [|lia]. apply (keys_below_mono _ _ _ B2). lia. }
      split; [exact I1|]. apply Forall_set; [exact I2 | reflexivity].
Qed.

Lemma wellFormed_updated (key : Z) (u : PartialTransaction.t) (w : World)
    (existing : Transaction.t) :
  JsMap.get key (transactions (storage w)) = Some existing ->
  wellFormed (storage w) ->
  wellFormed
    (mkMemStorage (JsMap.set key (spread existing u) (transactions (storage w)))
       (transactionItems (storage w)) (transactionIdCounter (storage w))
       (transactionItemIdCounter (storage w))).
Proof.
  intros Hget [N1 [N2 [B1 [B2 [I1 I2]]]]]. unfold wellFormed.
  cbn [transactions transactionItems transactionIdCounter
       transactionItemIdCounter].
  assert (Hid : Transaction.id existing = key).
  { rewrite Forall_forall in I1. exact (I1 _ (get_In _ _ _ Hget)). }
  split; [apply NoDup_keys_set; exact N1|]. split; [exact N2|].
  split.
  { unfold keys_below. rewrite (keys_set_present _ _ _ _ Hget). exact B1. }
  split; [exact B2|]. split; [|exact I2].
  apply Forall_set; [exact I1 | exact Hid].
Qed.

Lemma created_ids (w : World) (new : list TransactionItem.t) :
  (forall j x, nth_error new j = Some x ->
     exists (item : json) d',
       insertTransactionItemSchema_parse item
         (transactionIdCounter (storage w)) = Ok d' /\
       x = newTransactionItem
             (transactionItemIdCounter (storage w) + Z.of_nat j) d'
             (ValidDate (clock w))) ->
  forall j x, nth_error new j = Some x ->
    TransactionItem.id x
    = transactionItemIdCounter (storage w) + Z.of_nat j.
Proof.
  intros Hnew j x Hj. destruct (Hnew j x Hj) as [item [d' [_ ->]]].
  reflexivity.
Qed.

(** Where a run of [createTransaction] can leave the world: as it was, with
    the header and some items written, or with the header patched as well. *)
Lemma createTransaction_cases (req : CreateRequest) (w : World) :
  (exists resp, create req w = (Ok resp, w) /\ statusCode resp = 400) \/
  (exists d new,
     (forall j x, nth_error new j = Some x ->
        exists item d',
          insertTransactionItemSchema_parse item
            (transactionIdCounter (storage w)) = Ok d' /\
          x = newTransactionItem
                (transactionItemIdCounter (storage w) + Z.of_nat j) d'
                (ValidDate (clock w))) /\
     ((exists e,
         create req w
         = (Ok (failed_to_create e), with_items new (after_header d w))) \/
      (exists totals,
         calculateTotals new = Ok totals /\
         create req w
         = (Ok (mkResponse 201
                  (TransactionWithItems
                     (newTransaction (transactionIdCounter (storage w)) d
                        (ValidDate (clock w))) new totals)),
            finalized
              (newTransaction (transactionIdCounter (storage w)) d
                 (ValidDate (clock w))) totals
              (with_items new (after_header d w)))))).
Proof.
  destruct (createTransaction_turned_away insertTransactionSchema_parse
              insertTransactionItemSchema_parse validateTransaction
              calculateTotals req w) as [T1 [T2 [T3 [T4 T5]]]].
  destruct (property "transaction" (create_body req)) as [transaction|e] eqn:Ht.
  2:{ left. eexists. split; [apply (T1 e eq_refl) | reflexivity]. }
  destruct (property "items" (create_body req)) as [items|e] eqn:Hi.
  2:{ left. eexists. split; [apply (T2 transaction e eq_refl eq_refl) | reflexivity]. }
  destruct (falsy transaction || falsy items) eqn:Hfalsy.
  1:{ left. eexists.
      split; [apply (T3 transaction items eq_refl eq_refl Hfalsy) | reflexivity]. }
  destruct (insertTransactionSchema_parse transaction) as [d|e] eqn:Hparse.
  2:{ left. eexists.
      split; [apply (T4 transaction items e eq_refl eq_refl Hfalsy Hparse)
             | reflexivity]. }
  destruct (validateTransaction d w) as [[]|e] eqn:Hvalid.
  2:{ left. eexists.
      split; [apply (T5 transaction items d e eq_refl eq_refl Hfalsy Hparse Hvalid)
             | reflexivity]. }
  right.
  destruct (createTransaction_accepted insertTransactionSchema_parse
              insertTransactionItemSchema_parse validateTransaction
              calculateTotals req w transaction items d Ht Hi Hfalsy
              Hparse Hvalid) as [new [Hnew Hcases]].
  exists d, new. split.
  { intros j x Hj. destruct (Hnew j x Hj) as [item [d' [_ [H1 H2]]]].
    exists item, d'. split; assumption. }
  destruct Hcases as [[_ Hok] | [item [e [_ [_ Hfail]]]]].
  - destruct (calculateTotals new) as [totals|e] eqn:Htotals.
    + right. exists totals. split; [reflexivity | exact Hok].
    + left. exists e. exact Hok.
  - left. exists e. exact Hfail.
Qed.

(** X5. The store keeps its shape.  If the keys of both maps are distinct and
    below their counters and every record sits under its own id, this is
    still so after the store creates a transaction or an item or updates a
    transaction, and after the controller handles a create or an update
    request, whatever the request and whatever the outcome. *)
Theorem wellFormed_is_kept (w : World) :
  wellFormed (storage w) ->
  (forall d, wellFormed (storage (snd (storage_createTransaction d w)))) /\
  (forall d, wellFormed (storage (snd (storage_createTransactionItem d w)))) /\
  (forall id u, wellFormed (storage (snd (storage_updateTransaction id u w)))) /\
  (forall req, wellFormed (storage (snd (create req w)))) /\
  (forall req, wellFormed (storage (snd (update req w)))).
Proof.
  intros Hwf.
  assert (Hupdate : forall id u,
            wellFormed (storage (snd (storage_updateTransaction id u w)))).
  { intros [key|] u.
    - destruct (JsMap.get key (transactions (storage w))) as [existing|] eqn:Hget.
      + rewrite (storage_updateTransaction_found key u w existing Hget).
        cbn [snd storage]. apply (wellFormed_updated key u w existing Hget Hwf).
      + rewrite (storage_updateTransaction_absent (Some key) u w Hget).
        exact Hwf.
    - rewrite (storage_updateTransaction_absent None u w I). exact Hwf. }
  split; [|split; [|split; [exact Hupdate|split]]].
  - intros d. rewrite storage_createTransaction_run. cbn [snd].
    apply (wellFormed_after_header d w Hwf).
  - intros d. rewrite storage_createTransactionItem_run. cbn [snd].
    apply (wellFormed_with_items
             [newTransactionItem (transactionItemIdCounter (storage w)) d
                (ValidDate (clock w))] w).
    + intros [|[|j]] x Hj; try discriminate Hj. injection Hj as <-.
      cbn. lia.
    + exact Hwf.
  - intros req.
    destruct (createTransaction_cases req w)
      as [[resp [-> _]] | [d [new [Hnew [[e ->] | [totals [_ ->]]]]]]];
      cbn [snd]; [exact Hwf | |];
      assert (Hids := created_ids w new Hnew).
    + apply wellFormed_with_items; [exact Hids|].
      apply wellFormed_after_header. exact Hwf.
    + assert (H1 : wellFormed (storage (with_items new (after_header d w)))).
      { apply wellFormed_with_items; [exact Hids|].
        apply wellFormed_after_header. exact Hwf. }
      unfold finalized. cbn [storage Transaction.id newTransaction].
      apply (wellFormed_updated (transactionIdCounter (storage w))
               (finalization totals) (with_items new (after_header d w))
               (newTransaction (transactionIdCounter (storage w)) d
                  (ValidDate (clock w)))); [|exact H1].
      unfold with_items, after_header. cbn [storage transactions].
      apply get_set_same.
  - intros req. unfold updateTransaction, try_catch, bind, lift.
    destruct (insertTransactionSchema_partial_parse (update_body req)) as [u|e];
      [|exact Hwf].
    specialize (Hupdate (params_id req) u).
    destruct (storage_updateTransaction (params_id req) u w) as [[t|e] w1];
      exact Hupdate.
Qed.


Local Abbreviation fetch := (getTransactionById calculateTotals).

Lemma getTransactionItemsByTransactionId_run (transactionId : Z) (w : World) :
  getTransactionItemsByTransactionId transactionId w
  = (Ok (filter (fun item => Z.eqb (TransactionItem.transactionId item) transactionId)
           (JsMap.values (transactionItems (storage w)))), w).
Proof. destruct w as [s now]. reflexivity. Qed.

(** Items written under fresh ids go to the end of the map, in order. *)
Lemma fold_set_fresh (new : list TransactionItem.t) :
  forall (m : JsMap.t TransactionItem.t) (c : Z),
    keys_below c m ->
    (forall j x, nth_error new j = Some x ->
       TransactionItem.id x = c + Z.of_nat j) ->
    fold_left (fun m x => JsMap.set (TransactionItem.id x) x m) new m
    = m ++ map (fun x => (TransactionItem.id x, x)) new.
Proof.
  induction new as [|x0 new IH]; intros m c Hb Hids; cbn [fold_left map].
  - symmetry. apply app_nil_r.
  - assert (H0 : TransactionItem.id x0 = c).
    { rewrite (Hids 0%nat x0 eq_refl). cbn. lia. }
    rewrite (set_absent m _ x0) by (apply (get_fresh _ _ _ Hb); lia).
    rewrite (IH (m ++ [(TransactionItem.id x0, x0)]) (c + 1)).
    + rewrite <- app_assoc. reflexivity.
    + unfold keys_below, keys. rewrite map_app. apply Forall_app. split.
      * apply (keys_below_mono _ _ _ Hb). lia.
      * cbn [map fst]. constructor; [lia | constructor].
    + intros j x Hj. rewrite (Hids (S j) x Hj). lia.
Qed.

(** X6. Whatever the request and whatever the outcome, a create request
    answers 201 or 400, leaves every transaction under another id than the
    next one and every item under an id below the item counter as it was,
    and hands out at most one transaction id. *)
Theorem create_request_keeps_existing_records (req : CreateRequest)
    (w : World) :
  exists (resp : Response) (w' : World),
    create req w = (Ok resp, w') /\
    (statusCode resp = 201 \/ statusCode resp = 400) /\
    (forall k, k <> transactionIdCounter (storage w) ->
       JsMap.get k (transactions (storage w'))
       = JsMap.get k (transactions (storage w))) /\
    (forall k, k < transactionItemIdCounter (storage w) ->
       JsMap.get k (transactionItems (storage w'))
       = JsMap.get k (transactionItems (storage w))) /\
    transactionIdCounter (storage w) <= transactionIdCounter (storage w')
      <= transactionIdCounter (storage w) + 1 /\
    transactionItemIdCounter (storage w) <= transactionItemIdCounter (storage w') /\
    clock w' = clock w.
Proof.
  assert (Hitems : forall d new k,
            (forall j x, nth_error new j = Some x ->
               TransactionItem.id x
               = transactionItemIdCounter (storage w) + Z.of_nat j) ->
            k < transactionItemIdCounter (storage w) ->
            JsMap.get k
              (transactionItems (storage (with_items new (after_header d w))))
            = JsMap.get k (transactionItems (storage w))).
  { intros d new k Hids Hk. unfold with_items, after_header.
    cbn [storage transactionItems].
    apply (get_fold_set TransactionItem.id new (transactionItems (storage w))
             (transactionItemIdCounter (storage w)) Hids). exact Hk. }
  destruct (createTransaction_cases req w)
    as [[resp [H H400]] | [d [new [Hnew [[e H] | [totals [Htotals H]]]]]]].
  - exists resp, w. split; [exact H|]. split; [right; exact H400|].
    repeat split; try reflexivity; lia.
  - assert (Hids := created_ids w new Hnew).
    eexists. eexists. split; [exact H|]. split; [right; reflexivity|].
    split; [|split; [intros k Hk; apply (Hitems d new k Hids Hk)|]].
    + intros k Hk. unfold with_items, after_header. cbn [storage transactions].
      apply get_set_other. exact Hk.
    + unfold with_items, after_header.
      cbn [storage transactionIdCounter transactionItemIdCounter clock].
      repeat split; lia.
  - assert (Hids := created_ids w new Hnew).
    eexists. eexists. split; [exact H|]. split; [left; reflexivity|].
    split; [|split; [intros k Hk; apply (Hitems d new k Hids Hk)|]].
    + intros k Hk. unfold finalized, with_items, after_header.
      cbn [storage transactions Transaction.id newTransaction].
      rewrite !(get_set_other _ _ _ _ Hk). reflexivity.
    + unfold finalized, with_items, after_header.
      cbn [storage transactionIdCounter transactionItemIdCounter clock].
      repeat split; lia.
Qed.

(** X7. Creating and then fetching.  In a well-formed store whose items all
    belong to transactions already handed out, and with an item schema that
    leaves the stamped [transactionId] in place, a create request answered
    with 201 is followed by this: the store lists exactly the created items
    for the new id, in order, and [getTransactionById] for the new id
    answers 200 with the patched header, whose [amount] and [balanceDue] are
    the [grandTotal], the same items and the same totals. *)
Theorem create_then_fetch (req : CreateRequest) (w w' : World)
    (resp : Response) :
  wellFormed (storage w) ->
  itemsReferBelowCounter (storage w) ->
  (forall item transactionId d,
     insertTransactionItemSchema_parse item transactionId = Ok d ->
     InsertTransactionItem.transactionId d = transactionId) ->
  create req w = (Ok resp, w') ->
  statusCode resp = 201 ->
  exists (header : Transaction.t) (items : list TransactionItem.t)
         (totals : Totals) (stored : Transaction.t),
    body resp = TransactionWithItems header items totals /\
    getTransactionItemsByTransactionId (Transaction.id header) w'
    = (Ok items, w') /\
    fetch (mkGetRequest (Some (Transaction.id header))) w'
    = (Ok (mkResponse 200 (TransactionWithItems stored items totals)), w') /\
    stored = spread header (finalization totals) /\
    Transaction.amount stored = grandTotal totals /\
    Transaction.balanceDue stored = grandTotal totals.
Proof.
  intros Hwf Hrefer Hstamp Hrun H201.
  destruct (createTransaction_cases req w)
    as [[r [H H400]] | [d [new [Hnew [[e H] | [totals [Htotals H]]]]]]].
  - rewrite Hrun in H. injection H as -> _. rewrite H201 in H400.
    discriminate H400.
  - rewrite Hrun in H. injection H as -> _. discriminate H201.
  - rewrite Hrun in H. injection H as -> ->.
    assert (Hids := created_ids w new Hnew).
    set (c := transactionIdCounter (storage w)) in *.
    set (header := newTransaction c d (ValidDate (clock w))).
    assert (Hfetched :
      filter (fun item => Z.eqb (TransactionItem.transactionId item) c)
        (JsMap.values
           (transactionItems
              (storage (finalized header totals
                          (with_items new (after_header d w))))))
      = new).
    { unfold finalized, with_items, after_header.
      cbn [storage transactionItems].
      destruct Hwf as [_ [_ [_ [B2 _]]]].
      rewrite (fold_set_fresh new _ _ B2 Hids).
      rewrite AgeingFacts.values_app, filter_app.
      replace (filter _ (JsMap.values (transactionItems (storage w)))) with
        (@nil TransactionItem.t).
      2:{ symmetry. unfold itemsReferBelowCounter in Hrefer. fold c in Hrefer.
          induction (JsMap.values (transactionItems (storage w))) as [|i l IH];
            [reflexivity|].
          inversion Hrefer as [|? ? Hi Hl]; subst. cbn [filter].
          destruct (Z.eqb_spec (TransactionItem.transactionId i) c) as [E|_];
            [lia | apply IH; exact Hl]. }
      cbn [app]. unfold JsMap.values. rewrite map_map. cbn [snd].
      rewrite map_id. apply filter_all.
      intros x Hx. apply In_nth_error in Hx. destruct Hx as [j Hj].
      destruct (Hnew j x Hj) as [item [d' [Hparse ->]]].
      cbn [TransactionItem.transactionId newTransactionItem].
      rewrite (Hstamp _ _ _ Hparse). apply Z.eqb_refl. }
    exists header, new, totals. eexists.
    split; [reflexivity|].
    split.
    { rewrite getTransactionItemsByTransactionId_run. f_equal. f_equal.
      exact Hfetched. }
    split; [|split; [reflexivity | split; reflexivity]].
    unfold getTransactionById, try_catch, bind. cbn [get_params_id].
    rewrite getTransaction_run.
    replace (JsMap.get (Transaction.id header)
               (transactions
                  (storage (finalized header totals
                              (with_items new (after_header d w))))))
      with (Some (spread header (finalization totals))).
    2:{ symmetry. unfold finalized. cbn [storage transactions].
        apply get_set_same. }
    rewrite getTransactionItemsByTransactionId_run.
    change (Transaction.id header) with c. rewrite Hfetched.
    unfold lift. rewrite Htotals. reflexivity.
Qed.

(** X8. Reading a transaction never writes, whatever the id and the outcome;
    it answers 404 exactly when the store holds nothing under the id, and
    when it answers 200 the body carries the stored record and the items
    that name it. *)
Theorem fetch_is_read_only (req : GetRequest) (w : World) :
  exists resp : Response,
    fetch req w = (Ok resp, w) /\
    (statusCode resp = 404 <->
     match get_params_id req with
     | Some id => JsMap.get id (transactions (storage w)) = None
     | None => True
     end) /\
    (statusCode resp = 200 ->
     exists id transaction totals,
       get_params_id req = Some id /\
       JsMap.get id (transactions (storage w)) = Some transaction /\
       body resp
       = TransactionWithItems transaction
           (filter (fun item => Z.eqb (TransactionItem.transactionId item) id)
              (JsMap.values (transactionItems (storage w))))
           totals).
Proof.
  unfold getTransactionById, try_catch, bind.
  destruct (get_params_id req) as [id|].
  - rewrite getTransaction_run.
    destruct (JsMap.get id (transactions (storage w))) as [t|] eqn:Hget.
    + rewrite getTransactionItemsByTransactionId_run. unfold lift.
      destruct (calculateTotals _) as [totals|e]; eexists;
        (split; [reflexivity|]); cbn [statusCode body].
      * split; [split; discriminate|]. intros _. exists id, t, totals.
        split; [reflexivity|]. split; [exact Hget | reflexivity].
      * split; [split; discriminate|]. discriminate.
    + eexists. split; [reflexivity|]. cbn [statusCode].
      split; [split; reflexivity|]. discriminate.
  - eexists. split; [reflexivity|]. cbn [statusCode].
    split; [split; reflexivity|]. discriminate.
Qed.

(** X9. An update request never adds or removes a transaction and never
    touches the items or the counters.  It answers 200 exactly when the body
    passes the schema and the store holds the id, and then the body of the
    response and the store carry the old record overlaid with the parsed
    fields; otherwise it answers 400 and the world is as it was. *)
Theorem update_request_outcomes (req : UpdateRequest) (w : World) :
  exists (resp : Response) (w' : World),
    update req w = (Ok resp, w') /\
    keys (transactions (storage w')) = keys (transactions (storage w)) /\
    transactionItems (storage w') = transactionItems (storage w) /\
    transactionIdCounter (storage w') = transactionIdCounter (storage w) /\
    transactionItemIdCounter (storage w') = transactionItemIdCounter (storage w) /\
    match insertTransactionSchema_partial_parse (update_body req),
          match params_id req with
          | Some key => JsMap.get key (transactions (storage w))
          | None => None
          end with
    | Ok u, Some existing =>
        resp = mkResponse 200 (TransactionBody (spread existing u)) /\
        (forall key, params_id req = Some key ->
           JsMap.get key (transactions (storage w')) = Some (spread existing u))
    | _, _ => statusCode resp = 400 /\ w' = w
    end.
Proof.
  unfold updateTransaction, try_catch, bind, lift.
  destruct (insertTransactionSchema_partial_parse (update_body req)) as [u|e].
  - destruct (params_id req) as [key|].
    + destruct (JsMap.get key (transactions (storage w))) as [existing|] eqn:Hget.
      * rewrite (storage_updateTransaction_found key u w existing Hget).
        eexists. eexists. split; [reflexivity|].
        cbn [storage transactions transactionItems transactionIdCounter
             transactionItemIdCounter].
        split; [apply (keys_set_present _ _ _ _ Hget)|].
        repeat split. intros key' E. injection E as <-. apply get_set_same.
      * rewrite (storage_updateTransaction_absent (Some key) u w Hget).
        eexists. eexists. split; [reflexivity|]. repeat split.
    + rewrite (storage_updateTransaction_absent None u w I).
      eexists. eexists. split; [reflexivity|]. repeat split.
  - eexists. eexists. split; [reflexivity|]. repeat split.
Qed.

End StoreInvariant.

Section StoreSamples.

Local Abbreviation sample_create :=
  (createTransaction spec_insertTransactionSchema_parse
     spec_insertTransactionItemSchema_parse spec_validateTransaction
     spec_calculateTotals).

Local Abbreviation sample_update :=
  (updateTransaction spec_insertTransactionSchema_partial_parse).

Lemma wellFormed_is_kept_witness :
  wellFormed (storage sample_world) /\
  (forall d, wellFormed (storage (snd (storage_createTransaction d sample_world)))) /\
  (forall d,
     wellFormed (storage (snd (storage_createTransactionItem d sample_world)))) /\
  (forall id u,
     wellFormed (storage (snd (storage_updateTransaction id u sample_world)))) /\
  (forall req, wellFormed (storage (snd (sample_create req sample_world)))) /\
  (forall req, wellFormed (storage (snd (sample_update req sample_world)))).
Proof.
  split; [exact sample_world_wellFormed|].
  exact (wellFormed_is_kept spec_insertTransactionSchema_parse
           spec_insertTransactionSchema_partial_parse
           spec_insertTransactionItemSchema_parse spec_validateTransaction
           spec_calculateTotals sample_world sample_world_wellFormed).
Defined.

Lemma sample_items_stamped :
  forall item transactionId d,
    spec_insertTransactionItemSchema_parse item transactionId = Ok d ->
    InsertTransactionItem.transactionId d = transactionId.
Proof.
  intros item transactionId d. unfold spec_insertTransactionItemSchema_parse.
  destruct item; try discriminate.
  destruct (field_integer "itemId" fields); [|discriminate].
  intros H. injection H as <-. reflexivity.
Defined.

Lemma create_then_fetch_witness :
  wellFormed (storage sample_world) /\
  itemsReferBelowCounter (storage sample_world) /\
  (forall item transactionId d,
     spec_insertTransactionItemSchema_parse item transactionId = Ok d ->
     InsertTransactionItem.transactionId d = transactionId) /\
  exists resp w',
    sample_create (sample_request [laptop; desktop]) sample_world
    = (Ok resp, w') /\
    statusCode resp = 201 /\
    exists (header : Transaction.t) (items : list TransactionItem.t)
           (totals : Totals) (stored : Transaction.t),
      body resp = TransactionWithItems header items totals /\
      getTransactionItemsByTransactionId (Transaction.id header) w'
      = (Ok items, w') /\
      getTransactionById spec_calculateTotals
        (mkGetRequest (Some (Transaction.id header))) w'
      = (Ok (mkResponse 200 (TransactionWithItems stored items totals)), w') /\
      stored = spread header (finalization totals) /\
      Transaction.amount stored = grandTotal totals /\
      Transaction.balanceDue stored = grandTotal totals.
Proof.
  assert (Hrefer : itemsReferBelowCounter (storage sample_world)).
  { constructor. }
  split; [exact sample_world_wellFormed|]. split; [exact Hrefer|].
  split; [exact sample_items_stamped|].
  destruct sample_created as [resp [w' [H1 H2]]].
  exists resp, w'. split; [exact H1|]. split; [exact H2|].
  exact (create_then_fetch spec_insertTransactionSchema_parse
           spec_insertTransactionItemSchema_parse spec_validateTransaction
           spec_calculateTotals
           (sample_request [laptop; desktop]) sample_world w' resp
           sample_world_wellFormed Hrefer sample_items_stamped H1 H2).
Defined.

End StoreSamples.

(** * More of the code: open balances and ageing *)

Section OpenBalances.
Import NumFacts DoubleFacts AgeingFacts GstFacts.

Lemma openOf_run (type : string) (userId : Z) (w : World) :
  openOf type userId w
  = (Ok (mkOpenBalance
           (Double.sum
              (map balanceDueOf
                 (filter (isOpen userId type)
                    (JsMap.values (transactions (storage w))))))
           (List.length
              (filter (isOpen userId type)
                 (JsMap.values (transactions (storage w)))))), w).
Proof.
  destruct w as [s now]. unfold openOf, bind, getStorage, ret.
  cbn [storage]. unfold Double.sum. rewrite <- (double_fold_add_map balanceDueOf).
  reflexivity.
Qed.

Lemma sumZ_filter_split {A} (g : A -> Z) (p : A -> bool) (l : list A) :
  sumZ (map g l)
  = sumZ (map g (filter p l)) + sumZ (map g (filter (fun x => negb (p x)) l)).
Proof.
  induction l as [|x l IH]; [reflexivity|].
  rewrite !sumZ_filter_cons. unfold sumZ in *. cbn [map fold_right].
  destruct (p x); cbn [negb]; lia.
Qed.

Lemma magnitude_map {A} (amount : A -> Z) (l : list A) :
  magnitude (map amount l) = sumZ (map (fun x => Z.abs (amount x)) l).
Proof. unfold magnitude. rewrite map_map. reflexivity. Qed.

Lemma magnitude_filter {A} (amount : A -> Z) (p : A -> bool) (l : list A) :
  magnitude (map amount l)
  = magnitude (map amount (filter p l))
    + magnitude (map amount (filter (fun x => negb (p x)) l)).
Proof. rewrite !magnitude_map. apply sumZ_filter_split. Qed.

(** The open balance and the ageing report of one type, for whole
    balances. *)
Lemma open_and_ageing (type : string) (userId : Z) (w : World)
    (amount : Transaction.t -> Z) :
  let open :=
    filter (isOpen userId type) (JsMap.values (transactions (storage w))) in
  (forall t, In t open -> balanceDueOf t = ofZ (amount t)) ->
  magnitude (map amount open) <= 2 ^ 53 ->
  exists (o : OpenBalance) (a : Ageing),
    openOf type userId w = (Ok o, w) /\
    ageingOf type userId w = (Ok a, w) /\
    open_count o = List.length open /\
    open_total o
    = Double.add (total_of a)
        (Double.sum
           (map balanceDueOf (filter (fun t => negb (hasDueDate t)) open))) /\
    (filter (fun t => negb (hasDueDate t)) open = [] ->
     open_total o = total_of a).
Proof.
  intros open Hamount Hm.
  destruct (ageingOf_buckets type userId w) as [a [Ha Hb]]. fold open in Hb.
  exists (mkOpenBalance (Double.sum (map balanceDueOf open)) (List.length open)), a.
  split; [apply openOf_run|]. split; [exact Ha|]. split; [reflexivity|].
  cbn [open_total].
  pose proof (magnitude_filter amount hasDueDate open) as Hsplit.
  pose proof (magnitude_nonneg (map amount (filter hasDueDate open))).
  pose proof (magnitude_nonneg
                (map amount (filter (fun t => negb (hasDueDate t)) open))).
  pose proof (total_le_magnitude (map amount open)).
  assert (Hdated : forall t, In t (filter hasDueDate open) ->
                             balanceDueOf t = ofZ (amount t)).
  { intros t Ht. apply filter_In in Ht. apply Hamount, Ht. }
  assert (Hundated : forall t, In t (filter (fun t => negb (hasDueDate t)) open) ->
                               balanceDueOf t = ofZ (amount t)).
  { intros t Ht. apply filter_In in Ht. apply Hamount, Ht. }
  assert (Etotal : total_of a
                   = ofZ (sumZ (map amount (filter hasDueDate open)))).
  { rewrite (total_of_exact (clock w) amount open a Hb Hdated) by lia.
    apply sum_exact; [exact Hdated | lia]. }
  assert (Eopen : Double.sum (map balanceDueOf open) = ofZ (sumZ (map amount open))).
  { apply sum_exact; assumption. }
  assert (Eundated :
    Double.sum (map balanceDueOf (filter (fun t => negb (hasDueDate t)) open))
    = ofZ (sumZ (map amount (filter (fun t => negb (hasDueDate t)) open)))).
  { apply sum_exact; [exact Hundated | lia]. }
  pose proof (sumZ_filter_split amount hasDueDate open) as Hsum.
  split.
  - rewrite Etotal, Eopen, Eundated. rewrite double_add_ofZ by lia.
    f_equal. exact Hsum.
  - intros Hnone. rewrite Etotal, Eopen. f_equal.
    rewrite Hsum, Hnone. unfold sumZ at 2. cbn [map fold_right]. lia.
Qed.

(** X10. While the balances of the store are whole numbers whose absolute
    values add up to at most [2^53], the open receivables of a user and the
    receivables ageing report agree: both run over the open sales invoices
    of the user, the count is the number of those invoices, and the total is
    the sum of the four ageing buckets plus the balances of the open
    invoices without a due date, which the ageing report leaves out.  When
    every open invoice has a due date the two totals are equal.  The same
    holds for payables. *)
Theorem open_balance_is_ageing_plus_undated (userId : Z) (w : World)
    (amount : Transaction.t -> Z) :
  (forall t, In t (JsMap.values (transactions (storage w))) ->
             balanceDueOf t = ofZ (amount t)) ->
  magnitude (map amount (JsMap.values (transactions (storage w)))) <= 2 ^ 53 ->
  let undated type :=
    filter (fun t => negb (hasDueDate t))
      (filter (isOpen userId type) (JsMap.values (transactions (storage w)))) in
  exists (receivables payables : OpenBalance) (ar ap : Ageing),
    getOpenReceivables userId w = (Ok receivables, w) /\
    getReceivablesAgeing userId w = (Ok ar, w) /\
    getOpenPayables userId w = (Ok payables, w) /\
    getPayablesAgeing userId w = (Ok ap, w) /\
    open_total receivables
    = Double.add (total_of ar)
        (Double.sum (map balanceDueOf (undated "sales_invoice"%string))) /\
    open_total payables
    = Double.add (total_of ap)
        (Double.sum (map balanceDueOf (undated "purchase_bill"%string))) /\
    (undated "sales_invoice"%string = [] -> open_total receivables = total_of ar) /\
    (undated "purchase_bill"%string = [] -> open_total payables = total_of ap) /\
    open_count receivables
    = List.length
        (filter (isOpen userId "sales_invoice") (JsMap.values (transactions (storage w)))) /\
    open_count payables
    = List.length
        (filter (isOpen userId "purchase_bill") (JsMap.values (transactions (storage w)))).
Proof.
  intros Hamount Hm undated.
  assert (Hsub : forall type,
            (forall t, In t (filter (isOpen userId type)
                               (JsMap.values (transactions (storage w)))) ->
                       balanceDueOf t = ofZ (amount t)) /\
            magnitude (map amount (filter (isOpen userId type)
                                     (JsMap.values (transactions (storage w)))))
            <= 2 ^ 53).
  { intros type. split.
    - intros t Ht. apply filter_In in Ht. apply Hamount, Ht.
    - pose proof (magnitude_filter amount (isOpen userId type)
                    (JsMap.values (transactions (storage w)))) as Hs.
      pose proof (magnitude_nonneg
                    (map amount
                       (filter (fun x => negb (isOpen userId type x))
                          (JsMap.values (transactions (storage w)))))).
      lia. }
  destruct (Hsub "sales_invoice"%string) as [A1 M1].
  destruct (Hsub "purchase_bill"%string) as [A2 M2].
  destruct (open_and_ageing "sales_invoice" userId w amount A1 M1)
    as [o1 [a1 [H1 [H2 [H3 [H4 H5]]]]]].
  destruct (open_and_ageing "purchase_bill" userId w amount A2 M2)
    as [o2 [a2 [G1 [G2 [G3 [G4 G5]]]]]].
  exists o1, o2, a1, a2.
  split; [exact H1|]. split; [exact H2|]. split; [exact G1|]. split; [exact G2|].
  split; [exact H4|]. split; [exact G4|].
  split; [exact H5|]. split; [exact G5|]. split; [exact H3 | exact G3].
Qed.

(** The sample store: one open invoice of 47250 with a due date. *)
Lemma open_balance_is_ageing_plus_undated_witness :
  (forall t, In t (JsMap.values (transactions (storage sample_world))) ->
             balanceDueOf t = ofZ 47250) /\
  magnitude (map (fun _ => 47250) (JsMap.values (transactions (storage sample_world))))
  <= 2 ^ 53 /\
  exists (receivables payables : OpenBalance) (ar ap : Ageing),
    getOpenReceivables 1 sample_world = (Ok receivables, sample_world) /\
    getReceivablesAgeing 1 sample_world = (Ok ar, sample_world) /\
    getOpenPayables 1 sample_world = (Ok payables, sample_world) /\
    getPayablesAgeing 1 sample_world = (Ok ap, sample_world) /\
    open_total receivables = total_of ar /\
    open_count receivables = 1%nat.
Proof.
  assert (H1 : forall t, In t (JsMap.values (transactions (storage sample_world))) ->
                         balanceDueOf t = ofZ 47250).
  { intros t [<-|[]]. vm_compute. reflexivity. }
  assert (H2 : magnitude (map (fun _ => 47250)
                            (JsMap.values (transactions (storage sample_world))))
               <= 2 ^ 53).
  { vm_compute. discriminate. }
  split; [exact H1|]. split; [exact H2|].
  destruct (open_balance_is_ageing_plus_undated 1 sample_world (fun _ => 47250)
              H1 H2)
    as (r & p & ar & ap & R1 & R2 & R3 & R4 & _ & _ & R5 & _ & R6 & _).
  exists r, p, ar, ap.
  split; [exact R1|]. split; [exact R2|]. split; [exact R3|]. split; [exact R4|].
  split; [apply R5; reflexivity | exact R6].
Defined.

End OpenBalances.

(** * More of the code: the GST breakup as a partition *)

Module PartitionFacts.
Import NumFacts GstFacts.

Lemma same_value_zero_sym (a b : num) :
  Num.same_value_zero a b = Num.same_value_zero b a.
Proof.
  destruct a as [|x], b as [|y]; try reflexivity.
  exact (strict_eq_sym (Finite x) (Finite y)).
Qed.

Lemma strict_eq_is_same_value_zero (a b : num) :
  isNumber a = true -> Num.strict_eq a b = Num.same_value_zero a b.
Proof. destruct a, b; try reflexivity; discriminate. Qed.

(** The set built by [dedupe], with what has been seen so far. *)
Lemma dedupe_from (l : list num) :
  forall seen,
    let result :=
      fold_left
        (fun seen x => if existsb (Num.same_value_zero x) seen then seen
                       else seen ++ [x]) l seen in
    (ForallOrdPairs (fun a b => Num.same_value_zero b a = false) seen ->
     ForallOrdPairs (fun a b => Num.same_value_zero b a = false) result) /\
    (forall x, In x seen \/ In x l ->
       existsb (Num.same_value_zero x) result = true) /\
    (forall r, In r result -> In r seen \/ In r l) /\
    (List.length result <= List.length seen + List.length l)%nat.
Proof.
  induction l as [|x l IH]; intros seen; cbn [fold_left].
  - cbv zeta. split; [auto|]. split; [|split; [auto | lia]].
    intros y [Hy|[]]. apply existsb_exists. exists y. split; [exact Hy|].
    destruct y; [reflexivity | apply Qc_eqb_refl].
  - destruct (existsb (Num.same_value_zero x) seen) eqn:E.
    + destruct (IH seen) as [H1 [H2 [H3 H4]]]. cbv zeta in *.
      split; [exact H1|]. split; [|split].
      * intros y [Hy|[<-|Hy]]; [apply H2; left; exact Hy | | apply H2; right; exact Hy].
        apply existsb_exists in E. destruct E as [z [Hz Hxz]].
        assert (Hz' := H2 z (or_introl Hz)).
        apply existsb_exists in Hz'. destruct Hz' as [r [Hr Hzr]].
        apply existsb_exists. exists r. split; [exact Hr|].
        destruct x as [|qx], z as [|qz], r as [|qr]; cbn in *;
          try discriminate; try reflexivity.
        apply Qc_eqb_eq in Hxz, Hzr. subst. apply Qc_eqb_refl.
      * intros r Hr. destruct (H3 r Hr) as [H|H]; [left; exact H | right; right; exact H].
      * cbn [List.length]. lia.
    + destruct (IH (seen ++ [x])) as [H1 [H2 [H3 H4]]]. cbv zeta in *.
      split; [|split; [|split]].
      * intros Hseen. apply H1.
        clear - Hseen E. induction Hseen as [|a seen Ha Hs IHs]; cbn [app].
        -- constructor; constructor.
        -- cbn [existsb] in E. apply orb_false_iff in E. destruct E as [E1 E2].
           constructor; [|apply IHs; exact E2].
           apply Forall_app. split; [exact Ha|]. constructor; [exact E1 | constructor].
      * intros y [Hy|[<-|Hy]]; apply H2.
        -- left. apply in_or_app. left. exact Hy.
        -- left. apply in_or_app. right. left. reflexivity.
        -- right. exact Hy.
      * intros r Hr. destruct (H3 r Hr) as [H|H].
        -- apply in_app_or in H. destruct H as [H|[<-|[]]];
             [left; exact H | right; left; reflexivity].
        -- right. right. exact H.
      * rewrite length_app in H4. cbn [List.length] in *. lia.
Qed.

End PartitionFacts.

Section GstPartition.
Import NumFacts DoubleFacts AgeingFacts GstFacts PartitionFacts.

Lemma group_in (party : option Party.t) (items : list TransactionItem.t)
    (D : list num) (g : GstGroup) :
  In g (map (group_of party items) D) ->
  In (rate g) D /\ g = group_of party items (rate g).
Proof.
  intros Hg. apply in_map_iff in Hg. destruct Hg as [r [<- Hr]].
  split; [exact Hr | reflexivity].
Qed.

(** X11. The GST breakup groups the items by tax rate without loss or
    repetition.  The rates of the groups are pairwise different and each is
    the rate of some item; every item's rate is the rate of a group; there
    are at most as many groups as items.  The [taxableAmount] and the
    [total] of a group are the sums, in the order of the items, of the
    amounts and the tax amounts of the items of its rate.  An item whose tax
    rate reads as a number is counted in exactly one group, an item whose
    rate does not in none. *)
Theorem gst_groups_partition_items (party : option Party.t)
    (items : list TransactionItem.t) :
  exists groups : list GstGroup,
    calculateGstBreakup party (Some items) = Some groups /\
    ForallOrdPairs
      (fun g g' => Num.same_value_zero (rate g') (rate g) = false) groups /\
    (forall g, In g groups -> exists i, In i items /\ rateOf i = rate g) /\
    (forall i, In i items ->
       exists g, In g groups /\
                 Num.same_value_zero (rateOf i) (rate g) = true) /\
    (List.length groups <= List.length items)%nat /\
    (forall g, In g groups ->
       taxableAmount g
       = Double.sum
           (map amountOf
              (filter (fun i => Num.strict_eq (rateOf i) (rate g)) items)) /\
       total g
       = Double.sum
           (map taxOf
              (filter (fun i => Num.strict_eq (rateOf i) (rate g)) items))) /\
    (forall i, In i items ->
       if isNumber (rateOf i)
       then exists g, In g groups /\
                      forall g', In g' groups ->
                        (Num.strict_eq (rateOf i) (rate g') = true <-> g' = g)
       else forall g, In g groups ->
                      Num.strict_eq (rateOf i) (rate g) = false).
Proof.
  destruct (dedupe_from (map rateOf items) []) as [H1 [H2 [H3 H4]]].
  cbv zeta in H1, H2, H3, H4. fold (dedupe (map rateOf items)) in *.
  set (D := dedupe (map rateOf items)) in *.
  assert (HD : ForallOrdPairs (fun a b => Num.same_value_zero b a = false) D).
  { apply H1. constructor. }
  exists (map (group_of party items) D).
  split; [apply calculateGstBreakup_groups|].
  assert (Hcover : forall i, In i items ->
            exists g, In g (map (group_of party items) D) /\
                      Num.same_value_zero (rateOf i) (rate g) = true).
  { intros i Hi.
    specialize (H2 (rateOf i) (or_intror (in_map rateOf items i Hi))).
    apply existsb_exists in H2. destruct H2 as [r [Hr Hir]].
    exists (group_of party items r). split; [apply in_map; exact Hr | exact Hir]. }
  split; [|split; [|split; [|split; [|split]]]].
  - clear - HD. induction HD as [|r D Hr HD' IH]; cbn [map]; constructor.
    + apply Forall_map. exact Hr.
    + exact IH.
  - intros g Hg. apply in_map_iff in Hg. destruct Hg as [r [<- Hr]].
    destruct (H3 r Hr) as [[]|Hin].
    apply in_map_iff in Hin. destruct Hin as [i [Hi Hi']].
    exists i. split; [exact Hi' | exact Hi].
  - exact Hcover.
  - rewrite length_map. rewrite length_map in H4. cbn [List.length] in H4. lia.
  - intros g Hg. apply group_in in Hg. destruct Hg as [_ Hg].
    split; rewrite Hg at 1; reflexivity.
  - intros i Hi. destruct (isNumber (rateOf i)) eqn:En.
    + destruct (Hcover i Hi) as [g [Hg Hig]].
      rewrite <- strict_eq_is_same_value_zero in Hig by exact En.
      exists g. split; [exact Hg|].
      intros g' Hg'. split.
      * intros Hig'. apply strict_eq_eq in Hig, Hig'.
        apply group_in in Hg, Hg'. destruct Hg as [_ Hg], Hg' as [_ Hg'].
        rewrite Hg, Hg'. congruence.
      * intros ->. exact Hig.
    + intros g _. destruct (rateOf i); [reflexivity | discriminate En].
Qed.








End GstPartition.

(** * More of the code: the ageing analysis over all transactions *)

Section AgingAnalysisProperties.
Import NumFacts AgeingFacts GstFacts.

Lemma sub_ofZ (a b : Z) : Num.sub (ofZ a) (ofZ b) = ofZ (a - b).
Proof.
  unfold Num.sub, ofZ. f_equal. apply Qc_is_canon.
  unfold Qcminus, Qcplus, Qcopp, Q2Qc, this. rewrite !Qred_correct.
  unfold Z.sub. rewrite inject_Z_plus, inject_Z_opp. reflexivity.
Qed.

Lemma abs_ofZ (n : Z) : Math_abs (ofZ n) = ofZ (Z.abs n).
Proof.
  unfold Math_abs, ofZ.
  destruct (Qc_ltb (Q2Qc (inject_Z n)) 0%Qc) eqn:E.
  - apply Qc_ltb_lt in E. f_equal. apply Qc_is_canon.
    unfold Qclt, Q2Qc, this in E. rewrite Qred_correct in E.
    change (Qred 0) with (inject_Z 0) in E.
    rewrite <- Zlt_Qlt in E.
    unfold Qcopp, Q2Qc, this. rewrite !Qred_correct.
    rewrite <- inject_Z_opp. rewrite Z.abs_neq by lia. reflexivity.
  - f_equal. apply Qc_is_canon. unfold Q2Qc, this. rewrite !Qred_correct.
    assert (H : ~ (Q2Qc (inject_Z n) < 0)%Qc).
    { intros H. apply Qc_ltb_lt in H. rewrite H in E. discriminate E. }
    unfold Qclt, Q2Qc, this in H. rewrite Qred_correct in H.
    change (Qred 0) with (inject_Z 0) in H.
    rewrite <- Zlt_Qlt in H. rewrite Z.abs_eq by lia. reflexivity.
Qed.

(** The ceiling of a quotient of integers. *)
Lemma ceil_div_ofZ (n c : Z) :
  0 < c -> Math_ceil (Num.div (ofZ n) (ofZ c)) = ofZ (- ((- n) / c)).
Proof.
  intros Hc. unfold Math_ceil, Num.div, ofZ.
  assert (Hne : ~ inject_Z c == 0).
  { unfold Qeq. simpl. lia. }
  assert (Hc0 : Qc_eqb (Q2Qc (inject_Z c)) 0%Qc = false).
  { apply not_true_iff_false. intros H. apply Qc_eqb_eq in H.
    apply (f_equal this) in H. apply Hne.
    rewrite <- (Qred_correct (inject_Z c)). unfold Q2Qc, this in H.
    rewrite H. reflexivity. }
  rewrite Hc0. f_equal. f_equal. f_equal.
  assert (E : this (Q2Qc (inject_Z n) / Q2Qc (inject_Z c))%Qc
              == n # (Z.to_pos c)).
  { unfold Qcdiv, Qcmult, Qcinv, Q2Qc, this.
    rewrite !Qred_correct.
    unfold Qeq, Qmult, Qinv, inject_Z. simpl.
    destruct c as [|p|p]; try lia. simpl. lia. }
  rewrite (Qceiling_comp _ _ E). unfold Qceiling, Qfloor, Qopp.
  cbn [Qnum Qden]. rewrite Z2Pos.id by exact Hc. reflexivity.
Qed.

Lemma ceil_div_le (n c k : Z) :
  0 < c -> (- ((- n) / c) <=? k) = (n <=? k * c).
Proof.
  intros Hc. apply eq_true_iff_eq. rewrite !Z.leb_le. split; intros H.
  - assert (H1 : - k <= (- n) / c) by lia.
    assert (H2 : c * ((- n) / c) <= - n) by (apply Z.mul_div_le; exact Hc).
    nia.
  - assert (H1 : - k <= (- n) / c).
    { apply Z.div_le_lower_bound; [exact Hc | lia]. }
    lia.
Qed.

Lemma agingStep_credit (now : Z) (r : AgingAnalysis.t) (t : Transaction.t) :
  agingStep (ValidDate now) r t
  = match aging_bucket now t with
    | Some b => aging_credit b (balanceOf t) r
    | None => r
    end.
Proof.
  unfold agingStep, aging_bucket, balanceOf.
  destruct (Transaction.dueDate t) as [[due|]|]; [| |reflexivity].
  - destruct (truthy (Transaction.balanceDue t)); cbn [negb]; [|reflexivity].
    cbn [getTime]. unfold msPerDay.
    rewrite sub_ofZ, abs_ofZ, ceil_div_ofZ by reflexivity.
    rewrite !le_ofZ. fold day_ms.
    rewrite !ceil_div_le by reflexivity.
    destruct (Z.abs (now - due) <=? 30 * day_ms); [reflexivity|].
    destruct (Z.abs (now - due) <=? 60 * day_ms); reflexivity.
  - destruct (truthy (Transaction.balanceDue t)); reflexivity.
Qed.

Lemma aging_credit_same (b : AgingBucket) (x : num) (r : AgingAnalysis.t) :
  aging_field b (aging_credit b x r) = Num.add (aging_field b r) x.
Proof. destruct b; reflexivity. Qed.

Lemma aging_credit_other (b b' : AgingBucket) (x : num) (r : AgingAnalysis.t) :
  b' <> b -> aging_field b' (aging_credit b x r) = aging_field b' r.
Proof. destruct b, b'; intros H; try reflexivity; contradiction H; reflexivity. Qed.

Lemma in_aging_bucket_iff (now : Z) (b : AgingBucket) (t : Transaction.t) :
  in_aging_bucket now b t = true <-> aging_bucket now t = Some b.
Proof.
  unfold in_aging_bucket.
  destruct (aging_bucket now t) as [[]|], b; split; intros H;
    try reflexivity; discriminate H.
Qed.

(** Each bucket runs through the balances of the transactions placed in it,
    in the order of the list. *)
Lemma aging_field_fold (now : Z) (b : AgingBucket) (l : list Transaction.t) :
  forall r : AgingAnalysis.t,
    aging_field b (fold_left (agingStep (ValidDate now)) l r)
    = fold_left Num.add (map balanceOf (filter (in_aging_bucket now b) l))
        (aging_field b r).
Proof.
  induction l as [|t l IH]; intros r; cbn [fold_left filter]; [reflexivity|].
  rewrite IH, agingStep_credit.
  destruct (in_aging_bucket now b t) eqn:E.
  - apply in_aging_bucket_iff in E. rewrite E. cbn [map fold_left].
    rewrite aging_credit_same. reflexivity.
  - destruct (aging_bucket now t) as [b'|] eqn:E'; [|reflexivity].
    rewrite aging_credit_other; [reflexivity|].
    intros ->. apply in_aging_bucket_iff in E'. rewrite E' in E. discriminate E.
Qed.

Lemma getAgingAnalysis_run (userId : Z) (w : World) :
  getAgingAnalysis userId w
  = (Ok (fold_left (agingStep (ValidDate (clock w)))
           (filter (fun t => Z.eqb (Transaction.userId t) userId)
              (JsMap.values (transactions (storage w))))
           (AgingAnalysis.mk (ofZ 0) (ofZ 0) (ofZ 0))), w).
Proof. destruct w as [s now]. reflexivity. Qed.

(** X14. [getAgingAnalysis] leaves the world as it is and runs over every
    transaction of the user, whatever its type and its status.  Each of its
    three buckets is the sum, in store order, of the balances of the
    transactions placed in it; a transaction is placed in exactly one bucket
    if it has a due date and a truthy [balanceDue], and in none otherwise. *)
Theorem aging_analysis_covers_all_of_the_user (userId : Z) (w : World) :
  let mine :=
    filter (fun t => Z.eqb (Transaction.userId t) userId)
      (JsMap.values (transactions (storage w))) in
  exists r : AgingAnalysis.t,
    getAgingAnalysis userId w = (Ok r, w) /\
    (forall b, aging_field b r
               = sum (map balanceOf (filter (in_aging_bucket (clock w) b) mine))) /\
    (forall t,
       if hasDueDate t && truthy (Transaction.balanceDue t)
       then exists b, forall b', in_aging_bucket (clock w) b' t = true <-> b' = b
       else forall b', in_aging_bucket (clock w) b' t = false).
Proof.
  intros mine. eexists. split; [apply getAgingAnalysis_run|]. fold mine. split.
  - intros b. rewrite aging_field_fold. destruct b; reflexivity.
  - intros t.
    assert (Hb : aging_bucket (clock w) t
                 = if hasDueDate t && truthy (Transaction.balanceDue t)
                   then aging_bucket (clock w) t else None).
    { unfold aging_bucket, hasDueDate.
      destruct (Transaction.dueDate t); [|reflexivity].
      destruct (truthy (Transaction.balanceDue t)); reflexivity. }
    destruct (hasDueDate t && truthy (Transaction.balanceDue t)) eqn:E.
    + assert (Hs : exists b, aging_bucket (clock w) t = Some b).
      { unfold aging_bucket, hasDueDate in *.
        destruct (Transaction.dueDate t); [|discriminate E].
        destruct (truthy (Transaction.balanceDue t)); [|discriminate E].
        eexists. reflexivity. }
      destruct Hs as [b Hs]. exists b. intros b'.
      rewrite in_aging_bucket_iff, Hs. split.
      * intros H. injection H as <-. reflexivity.
      * intros ->. reflexivity.
    + intros b'. destruct (in_aging_bucket (clock w) b' t) eqn:E'; [|reflexivity].
      apply in_aging_bucket_iff in E'. rewrite Hb in E'. discriminate E'.
Qed.

(** X15. In [getAgingAnalysis] only the time between now and the due date
    counts, not its direction.  A transaction with a truthy balance and a
    due date goes to [days1to30] when that time is at most 30 days, to
    [days31to60] when it is more than 30 and at most 60 days, and to
    [days60plus] beyond; so a transaction that falls due in the future is
    aged exactly like one that has been overdue for the same time. *)
Theorem aging_analysis_ignores_direction (now due : Z) (r : AgingAnalysis.t)
    (t : Transaction.t) :
  Transaction.dueDate t = Some (ValidDate due) ->
  truthy (Transaction.balanceDue t) = true ->
  exists b : AgingBucket,
    agingStep (ValidDate now) r t = aging_credit b (balanceOf t) r /\
    (Z.abs (now - due) <= 30 * day_ms -> b = Within30) /\
    (30 * day_ms < Z.abs (now - due) <= 60 * day_ms -> b = Within60) /\
    (60 * day_ms < Z.abs (now - due) -> b = Beyond60) /\
    (forall t' due',
       Transaction.dueDate t' = Some (ValidDate due') ->
       Transaction.balanceDue t' = Transaction.balanceDue t ->
       due' - now = now - due ->
       agingStep (ValidDate now) r t' = agingStep (ValidDate now) r t).
Proof.
  intros Hdue Htruthy.
  assert (Hb : aging_bucket now t
               = Some (if Z.abs (now - due) <=? 30 * day_ms then Within30
                       else if Z.abs (now - due) <=? 60 * day_ms then Within60
                       else Beyond60)).
  { unfold aging_bucket. rewrite Hdue, Htruthy. reflexivity. }
  eexists. split; [rewrite agingStep_credit, Hb; reflexivity|].
  split; [|split; [|split]].
  - intros H. apply Z.leb_le in H. rewrite H. reflexivity.
  - intros [H1 H2]. apply Z.leb_gt in H1. apply Z.leb_le in H2.
    rewrite H1, H2. reflexivity.
  - intros H.
    assert (H1 : (Z.abs (now - due) <=? 30 * day_ms) = false).
    { apply Z.leb_gt. unfold day_ms in *. lia. }
    apply Z.leb_gt in H. rewrite H1, H. reflexivity.
  - intros t' due' Hdue' Hbal Hmirror. rewrite !agingStep_credit, Hb.
    unfold aging_bucket, balanceOf. rewrite Hdue', Hbal, Htruthy.
    replace (Z.abs (now - due')) with (Z.abs (now - due)) by lia.
    reflexivity.
Qed.

(** The invoice of the sample store, due at the start of day 20000: seen
    ten days before and ten days after. *)
Lemma aging_analysis_ignores_direction_witness :
  Transaction.dueDate sample_invoice = Some (ValidDate (20000 * day_ms)) /\
  truthy (Transaction.balanceDue sample_invoice) = true /\
  exists b : AgingBucket,
    agingStep (ValidDate (19990 * day_ms))
      (AgingAnalysis.mk (ofZ 0) (ofZ 0) (ofZ 0)) sample_invoice
    = aging_credit b (balanceOf sample_invoice)
        (AgingAnalysis.mk (ofZ 0) (ofZ 0) (ofZ 0)) /\
    (Z.abs (19990 * day_ms - 20000 * day_ms) <= 30 * day_ms -> b = Within30) /\
    (30 * day_ms < Z.abs (19990 * day_ms - 20000 * day_ms) <= 60 * day_ms ->
     b = Within60) /\
    (60 * day_ms < Z.abs (19990 * day_ms - 20000 * day_ms) -> b = Beyond60) /\
    (forall t' due',
       Transaction.dueDate t' = Some (ValidDate due') ->
       Transaction.balanceDue t' = Transaction.balanceDue sample_invoice ->
       due' - 19990 * day_ms = 19990 * day_ms - 20000 * day_ms ->
       agingStep (ValidDate (19990 * day_ms))
         (AgingAnalysis.mk (ofZ 0) (ofZ 0) (ofZ 0)) t'
       = agingStep (ValidDate (19990 * day_ms))
           (AgingAnalysis.mk (ofZ 0) (ofZ 0) (ofZ 0)) sample_invoice).
Proof.
  split; [reflexivity|]. split; [reflexivity|].
  exact (aging_analysis_ignores_direction (19990 * day_ms) (20000 * day_ms)
           (AgingAnalysis.mk (ofZ 0) (ofZ 0) (ofZ 0)) sample_invoice
           eq_refl eq_refl).
Defined.

End AgingAnalysisProperties.

(** * More of the code: the most recent transactions *)

From Stdlib Require Import Sorted Permutation.

Section RecentTransactions.
Import NumFacts AgeingFacts.

Lemma byDateDescending_valid (a b : Transaction.t) :
  hasValidDate a = true -> hasValidDate b = true ->
  Num.gt (byDateDescending a b) (ofZ 0) = (dateOf a <? dateOf b).
Proof.
  unfold hasValidDate, dateOf, byDateDescending.
  destruct (Transaction.transactionDate a) as [ta|]; [|discriminate].
  destruct (Transaction.transactionDate b) as [tb|]; [|discriminate].
  intros _ _. cbn [getTime].
  rewrite sub_ofZ, gt_ofZ.
  apply eq_true_iff_eq. rewrite !Z.ltb_lt. lia.
Qed.

Lemma sort_insert_perm {A} (cmp : A -> A -> num) (x : A) (l : list A) :
  Permutation (sort_insert cmp x l) (x :: l).
Proof.
  induction l as [|y r IH]; cbn [sort_insert]; [reflexivity|].
  destruct (Num.gt (cmp x y) (ofZ 0)); [|reflexivity].
  rewrite IH. apply perm_swap.
Qed.

Lemma array_sort_perm {A} (cmp : A -> A -> num) (l : list A) :
  Permutation (array_sort cmp l) l.
Proof.
  induction l as [|x l IH]; cbn [array_sort fold_right]; [reflexivity|].
  fold (array_sort cmp l). rewrite sort_insert_perm. constructor. exact IH.
Qed.

Lemma sort_insert_sorted (x : Transaction.t) (l : list Transaction.t) :
  hasValidDate x = true -> Forall (fun t => hasValidDate t = true) l ->
  StronglySorted notOlder l ->
  StronglySorted notOlder (sort_insert byDateDescending x l).
Proof.
  intros Hx Hl Hs. induction Hs as [|y r Hr IH Hy]; cbn [sort_insert].
  - constructor; constructor.
  - inversion Hl as [|? ? Hvy Hvr]; subst.
    rewrite (byDateDescending_valid x y Hx Hvy).
    destruct (Z.ltb_spec (dateOf x) (dateOf y)) as [Hlt|Hge].
    + constructor; [apply IH; exact Hvr|].
      apply Forall_forall. intros t Ht.
      apply (Permutation_in _ (sort_insert_perm byDateDescending x r)) in Ht.
      destruct Ht as [<-|Ht]; [unfold notOlder; lia|].
      rewrite Forall_forall in Hy. exact (Hy t Ht).
    + constructor; [constructor; assumption|].
      constructor; [exact Hge|].
      eapply Forall_impl; [|exact Hy]. unfold notOlder. cbn. intros t Ht. lia.
Qed.

Lemma array_sort_sorted (l : list Transaction.t) :
  Forall (fun t => hasValidDate t = true) l ->
  StronglySorted notOlder (array_sort byDateDescending l).
Proof.
  induction l as [|x l IH]; intros Hl; cbn [array_sort fold_right].
  - constructor.
  - inversion Hl as [|? ? Hx Hl']; subst. fold (array_sort byDateDescending l).
    apply sort_insert_sorted; [exact Hx | | apply IH; exact Hl'].
    apply Forall_forall. intros t Ht.
    apply (Permutation_in _ (array_sort_perm byDateDescending l)) in Ht.
    rewrite Forall_forall in Hl'. exact (Hl' t Ht).
Qed.

Lemma getRecentTransactions_run (userId limit : Z) (w : World) :
  getRecentTransactions userId limit w
  = (Ok (slice_from_start limit
           (array_sort byDateDescending
              (filter (fun t => Z.eqb (Transaction.userId t) userId)
                 (JsMap.values (transactions (storage w)))))), w).
Proof. destruct w as [s now]. reflexivity. Qed.

Lemma sorted_app_inv (l1 l2 : list Transaction.t) :
  StronglySorted notOlder (l1 ++ l2) ->
  forall t u, In t l1 -> In u l2 -> dateOf u <= dateOf t.
Proof.
  induction l1 as [|x l1 IH]; intros Hs t u Ht Hu; [destruct Ht|].
  cbn [app] in Hs. inversion Hs as [|? ? Hs' Hx]; subst.
  destruct Ht as [<-|Ht].
  - rewrite Forall_forall in Hx. apply (Hx u). apply in_or_app. right. exact Hu.
  - exact (IH Hs' t u Ht Hu).
Qed.

(** X16. The recent transactions are the newest of the user.  When the
    transaction dates of the user's transactions are valid dates,
    [getRecentTransactions] returns a list that, followed by the user's
    remaining transactions, is a rearrangement of all the user's
    transactions from the newest to the oldest: nothing returned is older
    than anything left out.  For a limit that is not negative it returns
    [limit] transactions, or all of them if there are fewer; a negative
    limit leaves that many off the end instead.  The store is not
    changed. *)
Theorem recent_transactions_are_the_newest (userId limit : Z) (w : World) :
  let mine :=
    filter (fun t => Z.eqb (Transaction.userId t) userId)
      (JsMap.values (transactions (storage w))) in
  Forall (fun t => hasValidDate t = true) mine ->
  exists recent rest : list Transaction.t,
    getRecentTransactions userId limit w = (Ok recent, w) /\
    Permutation (recent ++ rest) mine /\
    StronglySorted notOlder (recent ++ rest) /\
    (forall t u, In t recent -> In u rest -> dateOf u <= dateOf t) /\
    (0 <= limit ->
     List.length recent = Nat.min (Z.to_nat limit) (List.length mine)) /\
    (limit < 0 ->
     List.length recent = Z.to_nat (Z.of_nat (List.length mine) + limit)).
Proof.
  intros mine Hvalid.
  set (sorted := array_sort byDateDescending mine).
  assert (Hperm : Permutation sorted mine) by apply array_sort_perm.
  assert (Hsorted : StronglySorted notOlder sorted)
    by (apply array_sort_sorted; exact Hvalid).
  assert (Hlen : List.length sorted = List.length mine)
    by (apply Permutation_length; exact Hperm).
  set (n := if limit <? 0 then Z.to_nat (Z.of_nat (List.length sorted) + limit)
            else Z.to_nat limit).
  assert (Hslice : slice_from_start limit sorted = firstn n sorted).
  { unfold slice_from_start, n. destruct (limit <? 0); reflexivity. }
  exists (firstn n sorted), (skipn n sorted).
  split; [rewrite getRecentTransactions_run; fold mine; fold sorted;
          rewrite Hslice; reflexivity|].
  rewrite firstn_skipn.
  split; [exact Hperm|]. split; [exact Hsorted|].
  split.
  { apply sorted_app_inv. rewrite firstn_skipn. exact Hsorted. }
  rewrite length_firstn, Hlen. unfold n. rewrite Hlen. split; intros Hl.
  - assert (E : (limit <? 0) = false) by (apply Z.ltb_ge; exact Hl).
    rewrite E. reflexivity.
  - assert (E : (limit <? 0) = true) by (apply Z.ltb_lt; exact Hl).
    rewrite E. lia.
Qed.

Lemma recent_transactions_are_the_newest_witness :
  Forall (fun t => hasValidDate t = true)
    (filter (fun t => Z.eqb (Transaction.userId t) 1)
       (JsMap.values (transactions (storage sample_world)))) /\
  exists recent rest : list Transaction.t,
    getRecentTransactions 1 1 sample_world = (Ok recent, sample_world) /\
    Permutation (recent ++ rest)
      (filter (fun t => Z.eqb (Transaction.userId t) 1)
         (JsMap.values (transactions (storage sample_world)))) /\
    StronglySorted notOlder (recent ++ rest) /\
    (forall t u, In t recent -> In u rest -> dateOf u <= dateOf t) /\
    (0 <= 1 ->
     List.length recent
     = Nat.min (Z.to_nat 1)
         (List.length
            (filter (fun t => Z.eqb (Transaction.userId t) 1)
               (JsMap.values (transactions (storage sample_world)))))) /\
    (1 < 0 ->
     List.length recent
     = Z.to_nat
         (Z.of_nat
            (List.length
               (filter (fun t => Z.eqb (Transaction.userId t) 1)
                  (JsMap.values (transactions (storage sample_world))))) + 1)).
Proof.
  assert (H : Forall (fun t => hasValidDate t = true)
                (filter (fun t => Z.eqb (Transaction.userId t) 1)
                   (JsMap.values (transactions (storage sample_world))))).
  { repeat constructor. }
  split; [exact H|].
  exact (recent_transactions_are_the_newest 1 1 sample_world H).
Defined.

End RecentTransactions.

(** ** The listing of an item *)

Section ItemListing.
Import StoreFacts.

Lemma value_or_idem (a b : value) : value_or a (value_or a b) = value_or a b.
Proof. unfold value_or. destruct (truthy a); reflexivity. Qed.

Lemma value_or_falsy (a b : value) : truthy a = false -> value_or a b = b.
Proof. unfold value_or. intros ->. reflexivity. Qed.

Lemma value_or_truthy (a b : value) :
  truthy b = true -> truthy (value_or a b) = true.
Proof. unfold value_or. destruct (truthy a) eqn:E; [intros _; exact E | tauto]. Qed.

Lemma array_or_idem (a b : option (list string)) :
  array_or a (array_or a b) = array_or a b.
Proof. destruct a; reflexivity. Qed.

Lemma nullish_idem {A} (a b : option A) : nullish a (nullish a b) = nullish a b.
Proof. destruct a; reflexivity. Qed.

Lemma listingUpdate_inventory (item : Item.t) (d : PartialItem.t) :
  inventoryData (listingUpdate item d) = inventoryData item.
Proof. reflexivity. Qed.

Lemma listingUpdate_idem (item : Item.t) (d : PartialItem.t) :
  listingUpdate (listingUpdate item d) d = listingUpdate item d.
Proof.
  unfold listingUpdate. cbn.
  rewrite !value_or_idem, !array_or_idem, !nullish_idem. reflexivity.
Qed.

Lemma listingUpdate_nothing (item : Item.t) (d : PartialItem.t) :
  carriesNoListing d -> listingUpdate item d = item.
Proof.
  intros (H1 & H2 & H3 & H4 & H5 & H6 & H7 & H8 & H9 & H10 & H11 & H12 & H13 & H14).
  unfold listingUpdate.
  rewrite H2, H3, H6, H10, H14.
  rewrite !value_or_falsy by assumption.
  destruct item. reflexivity.
Qed.

(** X17.  [updateItemListing] overwrites no inventory data: whatever id and
    payload it is called with, the map of items has the same keys in the same
    order afterwards, and under every key the id, name, HSN code, unit,
    category, description, selling and purchase price, opening stock,
    minimum stock level, owner and creation time are what they were.  The
    inventory fields that the payload carries are ignored. *)
Theorem listing_update_keeps_inventory
    (id : Z) (listingData : PartialItem.t) (items : JsMap.t Item.t) :
  let items' := snd (updateItemListing id listingData items) in
  keys items' = keys items
  /\ forall k,
       option_map inventoryData (JsMap.get k items')
       = option_map inventoryData (JsMap.get k items).
Proof.
  cbv zeta. unfold updateItemListing.
  destruct (JsMap.get id items) as [item|] eqn:Hget; cbn [snd].
  2: { split; reflexivity. }
  split.
  - exact (keys_set_present items id _ item Hget).
  - intros k. destruct (Z.eq_dec k id) as [->|Hne].
    + rewrite JsMapFacts.get_set_same, Hget. cbn [option_map].
      rewrite listingUpdate_inventory. reflexivity.
    + rewrite (JsMapFacts.get_set_other items k id _ Hne). reflexivity.
Qed.

(** X18.  A listing update cannot clear a text of the listing: for an item
    that is stored, the update succeeds, and every text or decimal field of
    the listing that was set (truthy) is still set afterwards, every array
    that was there is still there, for every payload, also one that carries
    the empty string or [null] for the field.  The two flags and the review
    count take a value that is given, [false] and [0] included. *)
Theorem listing_update_cannot_clear
    (id : Z) (listingData : PartialItem.t) (items : JsMap.t Item.t)
    (item : Item.t) :
  JsMap.get id items = Some item ->
  exists updated,
    updateItemListing id listingData items
    = (Ok updated, JsMap.set id updated items)
    /\ (forall field,
          In field [Item.imageUrl; Item.listingDescription;
                    Item.listingCategory; Item.listingStatus; Item.mrp;
                    Item.discountPercentage; Item.brandName;
                    Item.specifications; Item.ratings] ->
          truthy (field item) = true -> truthy (field updated) = true)
    /\ (forall field,
          In field [Item.imageUrls; Item.listingTags] ->
          field item <> None -> field updated <> None)
    /\ (forall b, PartialItem.isListed listingData = Some b ->
          Item.isListed updated = Some b)
    /\ (forall b, PartialItem.featuredProduct listingData = Some b ->
          Item.featuredProduct updated = Some b)
    /\ (forall n, PartialItem.reviewCount listingData = Some n ->
          Item.reviewCount updated = Some n).
Proof.
  intros Hget. exists (listingUpdate item listingData).
  unfold updateItemListing. rewrite Hget. split; [reflexivity|].
  split; [|split; [|split; [|split]]].
  - intros field Hin Ht. cbn [In] in Hin.
    repeat (destruct Hin as [<-|Hin];
            [cbn; apply value_or_truthy; exact Ht|]).
    destruct Hin.
  - intros field Hin Hn. cbn [In] in Hin.
    repeat (destruct Hin as [<-|Hin];
            [cbn in *; unfold array_or;
             match goal with |- context [match ?a with _ => _ end] =>
               destruct a end; [discriminate | exact Hn]|]).
    destruct Hin.
  - intros b Hb. cbn. rewrite Hb. reflexivity.
  - intros b Hb. cbn. rewrite Hb. reflexivity.
  - intros n Hn. cbn. rewrite Hn. reflexivity.
Qed.

(** X19.  A listing update is idempotent: applied again with the same
    payload to the map it left, it gives the same answer (the same item, or
    the same error for an id that is not stored) and leaves that map as it
    is. *)
Theorem listing_update_is_idempotent
    (id : Z) (listingData : PartialItem.t) (items : JsMap.t Item.t) :
  let once := updateItemListing id listingData items in
  updateItemListing id listingData (snd once) = once.
Proof.
  cbv zeta. unfold updateItemListing.
  destruct (JsMap.get id items) as [item|] eqn:Hget; cbn [snd].
  - rewrite JsMapFacts.get_set_same, listingUpdate_idem, set_set. reflexivity.
  - rewrite Hget. reflexivity.
Qed.

(** X20.  A payload that carries no listing data changes nothing: when its
    texts and decimals of the listing are absent, [null] or empty and its
    arrays, flags and review count are absent or [null], the update of a
    stored item returns that item as it is stored and leaves the map of
    items as it was, whatever inventory fields the payload carries. *)
Theorem listing_update_without_listing_data
    (id : Z) (listingData : PartialItem.t) (items : JsMap.t Item.t)
    (item : Item.t) :
  JsMap.get id items = Some item ->
  carriesNoListing listingData ->
  updateItemListing id listingData items = (Ok item, items).
Proof.
  intros Hget Hno. unfold updateItemListing. rewrite Hget.
  rewrite (listingUpdate_nothing item listingData Hno).
  rewrite (set_same items id item Hget). reflexivity.
Qed.

Lemma listing_update_cannot_clear_witness :
  JsMap.get 1 [(1, laptop_stock)] = Some laptop_stock
  /\ exists updated,
       updateItemListing 1 rename_and_blank [(1, laptop_stock)]
       = (Ok updated, JsMap.set 1 updated [(1, laptop_stock)])
       /\ truthy (Item.listingDescription updated) = true.
Proof.
  split; [reflexivity|].
  destruct (listing_update_cannot_clear 1 rename_and_blank
              [(1, laptop_stock)] laptop_stock eq_refl)
    as (updated & Hrun & Htexts & _).
  exists updated. split; [exact Hrun|].
  apply (Htexts Item.listingDescription).
  - cbn [In]. right. left. reflexivity.
  - reflexivity.
Defined.

Lemma listing_update_without_listing_data_witness :
  JsMap.get 1 [(1, laptop_stock)] = Some laptop_stock
  /\ carriesNoListing rename_and_blank
  /\ updateItemListing 1 rename_and_blank [(1, laptop_stock)]
     = (Ok laptop_stock, [(1, laptop_stock)]).
Proof.
  assert (Hno : carriesNoListing rename_and_blank)
    by (unfold carriesNoListing; repeat split; reflexivity).
  split; [reflexivity|]. split; [exact Hno|].
  exact (listing_update_without_listing_data 1 rename_and_blank
           [(1, laptop_stock)] laptop_stock eq_refl Hno).
Defined.

End ItemListing.
